(** * QueueCTL: the job store, the worker's outcome handling and the
    dead-letter retry command, embedded from [queuectl/storage.py],
    [queuectl/worker.py], [queuectl/models.py] and [queuectl/cli.py].

    The SQLite table [jobs] is a list of rows in rowid order (an INSERT
    appends, an UPDATE keeps the position, a DELETE removes).  Timestamp
    columns are TEXT and hold what the program writes in them: the
    [isoformat()] of a Python [datetime].  SQL comparisons on those columns
    are comparisons of text (BINARY collation), so they are modelled on
    strings, byte by byte. *)

From Stdlib Require Import ZArith Ascii String List Bool Lia.
From stdpp Require Import base option list strings gmap.

Local Open Scope string_scope.
Local Open Scope Z_scope.

(** ** Python [datetime] and the two text renderings that meet in the table *)

Module Datetime.

(** A naive UTC [datetime], as the number of microseconds since
    1970-01-01T00:00:00.  Python keeps the civil fields; the two are in
    bijection on [datetime.min .. datetime.max]. *)
Definition datetime := Z.

Definition us_per_second : Z := 1000000.
Definition us_per_day : Z := 86400 * us_per_second.

(** [datetime.min] = 0001-01-01T00:00:00 and
    [datetime.max] = 9999-12-31T23:59:59.999999. *)
Definition dt_min : datetime := -62135596800000000.
Definition dt_max : datetime := 253402300799999999.

Definition in_range (t : Z) : bool := (dt_min <=? t) && (t <=? dt_max).

(** Civil date of a day number (days since 1970-01-01), proleptic
    Gregorian calendar. *)
Definition civil_from_days (z : Z) : Z * Z * Z :=
  let z := z + 719468 in
  let era := z / 146097 in
  let doe := z - era * 146097 in
  let yoe := (doe - doe / 1460 + doe / 36524 - doe / 146096) / 365 in
  let y := yoe + era * 400 in
  let doy := doe - (365 * yoe + yoe / 4 - yoe / 100) in
  let mp := (5 * doy + 2) / 153 in
  let d := doy - (153 * mp + 2) / 5 + 1 in
  let m := if mp <? 10 then mp + 3 else mp - 9 in
  (if m <=? 2 then y + 1 else y, m, d).

Definition days_from_civil (y m d : Z) : Z :=
  let y := if m <=? 2 then y - 1 else y in
  let era := y / 400 in
  let yoe := y - era * 400 in
  let doy := (153 * (if 2 <? m then m - 3 else m + 9) + 2) / 5 + d - 1 in
  let doe := yoe * 365 + yoe / 4 - yoe / 100 + doy in
  era * 146097 + doe - 719468.

Definition is_leap (y : Z) : bool :=
  (y mod 4 =? 0) && (negb (y mod 100 =? 0) || (y mod 400 =? 0)).

Definition days_in_month (y m : Z) : Z :=
  if m =? 2 then (if is_leap y then 29 else 28)
  else if (m =? 4) || (m =? 6) || (m =? 9) || (m =? 11) then 30 else 31.

(** Decimal digits, zero padded. *)
Definition digit (n : Z) : ascii := ascii_of_nat (48 + Z.to_nat (n mod 10)).

Fixpoint pad (width : nat) (n : Z) (acc : string) : string :=
  match width with
  | O => acc
  | S w => pad w (n / 10) (String (digit n) acc)
  end.

Definition date_text (days : Z) : string :=
  let '(y, m, d) := civil_from_days days in
  pad 4 y ("-" +:+ pad 2 m ("-" +:+ pad 2 d "")).

Definition time_text (secs : Z) : string :=
  pad 2 (secs / 3600) (":" +:+ pad 2 (secs / 60 mod 60) (":" +:+ pad 2 (secs mod 60) "")).

(** [datetime.isoformat()] of a naive datetime: 'T' between date and time,
    the microseconds only when they are not zero.  (For an aware datetime
    Python appends the UTC offset to this text.) *)
Definition isoformat (t : datetime) : string :=
  let days := t / us_per_day in
  let rest := t mod us_per_day in
  let us := rest mod us_per_second in
  date_text days +:+ "T" +:+ time_text (rest / us_per_second)
    +:+ (if us =? 0 then "" else "." +:+ pad 6 us "").

(** SQLite's [datetime(...)]: a space between date and time, whole
    seconds. *)
Definition sqlite_datetime (t : datetime) : string :=
  let secs := t / us_per_second in
  date_text (secs / 86400) +:+ " " +:+ time_text (secs mod 86400).

(** [datetime('now', '-5 minutes')] when SQLite's clock reads [now]. *)
Definition five_minutes : Z := 300 * us_per_second.
Definition sqlite_now_minus_5_minutes (now : datetime) : string :=
  sqlite_datetime (now - five_minutes).

(** Reading digits back. *)
Definition digit_val (c : ascii) : option Z :=
  let n := Z.of_nat (nat_of_ascii c) in
  if (48 <=? n) && (n <=? 57) then Some (n - 48) else None.

Fixpoint read_digits (width : nat) (s : string) (acc : Z) : option (Z * string) :=
  match width with
  | O => Some (acc, s)
  | S w =>
      match s with
      | String c s' =>
          match digit_val c with
          | Some v => read_digits w s' (acc * 10 + v)
          | None => None
          end
      | EmptyString => None
      end
  end.

Definition expect (c : ascii) (s : string) : option string :=
  match s with
  | String c' s' => if Ascii.eqb c c' then Some s' else None
  | EmptyString => None
  end.

Definition skip1 (s : string) : option string :=
  match s with
  | String _ s' => Some s'
  | EmptyString => None
  end.

(** [datetime.fromisoformat] on the texts [isoformat] writes for a naive
    datetime: [YYYY-MM-DD], one separator character, [HH:MM:SS] and
    optionally [.ffffff].  For a text that is no ISO timestamp, [None] is
    the [ValueError].  Two kinds of text that Python reads are outside this
    function and also give [None]: the other spellings that newer Pythons
    accept, which this program never writes, and a text that ends in a UTC
    offset ([...+00:00]), which Python reads as an aware datetime.  The
    program itself writes such a text only for a job that [Job.from_dict]
    built from a timestamp with an offset; the properties below that read
    a timestamp are about the texts of naive datetimes. *)
Definition fromisoformat (s : string) : option datetime :=
  '(y, s) ← read_digits 4 s 0;
  s ← expect "-" s;
  '(m, s) ← read_digits 2 s 0;
  s ← expect "-" s;
  '(d, s) ← read_digits 2 s 0;
  s ← skip1 s;
  '(hh, s) ← read_digits 2 s 0;
  s ← expect ":" s;
  '(mm, s) ← read_digits 2 s 0;
  s ← expect ":" s;
  '(ss, s) ← read_digits 2 s 0;
  '(us, s) ← (match s with
              | EmptyString => Some (0, s)
              | _ => s ← expect "." s; read_digits 6 s 0
              end);
  if (1 <=? y) && (1 <=? m) && (m <=? 12) && (1 <=? d) && (d <=? days_in_month y m)
     && (hh <? 24) && (mm <? 60) && (ss <? 60)
     && (match s with EmptyString => true | _ => false end)
  then Some (days_from_civil y m d * us_per_day
             + ((hh * 60 + mm) * 60 + ss) * us_per_second + us)
  else None.

(** [datetime + timedelta(seconds=n)] for an integer [n]: an
    [OverflowError] ([None]) when the sum leaves [datetime.min ..
    datetime.max]; a [timedelta] too large to build raises an
    [OverflowError] of its own earlier, and then the sum is out of range as
    well. *)
Definition add_seconds (t : datetime) (n : Z) : option datetime :=
  let r := t + n * us_per_second in
  if in_range r then Some r else None.

End Datetime.

Import Datetime.

(** ** [models.py]: job states and the in-memory [Job] *)

Inductive JobState := PENDING | PROCESSING | COMPLETED | FAILED | DEAD.

#[global] Instance JobState_eq_dec : EqDecision JobState.
Proof. solve_decision. Defined.

(** [JobState.value], the text kept in the [state] column. *)
Definition value (s : JobState) : string :=
  match s with
  | PENDING => "pending"
  | PROCESSING => "processing"
  | COMPLETED => "completed"
  | FAILED => "failed"
  | DEAD => "dead"
  end.

(** A [Job] whose timestamps are naive datetimes, as [datetime.utcnow()]
    and [_row_to_job] on the texts of naive datetimes give them, and whose
    counters are integers. *)
Module Job.
Record t := mk {
  id : string;
  command : string;
  state : JobState;
  attempts : Z;
  max_retries : Z;
  created_at : datetime;
  updated_at : datetime;
  next_retry_at : option datetime;
  error_message : option string
}.
End Job.

(** ** [storage.py]: the [jobs] table *)

Module Row.
(** One row of [jobs].  The [state] column only ever receives
    [job.state.value], so it is kept as the state it names. *)
Record t := mk {
  id : string;
  command : string;
  state : JobState;
  attempts : Z;
  max_retries : Z;
  created_at : string;
  updated_at : string;
  next_retry_at : option string;
  error_message : option string;
  locked_by : option string;
  locked_at : option string
}.
End Row.

#[global] Instance Row_eq_dec : EqDecision Row.t.
Proof. solve_decision. Defined.

(** Rows in rowid order. *)
Definition store := list Row.t.

(** Where an [OverflowError] of this program is raised, which decides its
    text: [datetime + timedelta] leaves [datetime.min .. datetime.max];
    [timedelta(seconds=n)] has more days than a [timedelta] holds; its days
    do not even fit a C [int]; [sqlite3] is asked to bind an integer that is
    not a 64-bit one. *)
Inductive overflow :=
| DateValue
| TimedeltaDays (days : Z)
| CInt
| SqliteInteger.

(** What a Python call can end in. *)
Inductive exn := ValueError | TypeError | OverflowError (o : overflow).

Inductive result (A : Type) :=
| Ok (a : A)
| Raise (e : exn).
Arguments Ok {A} a.
Arguments Raise {A} e.

Definition result_map {A B} (f : A -> B) (r : result A) : result B :=
  match r with
  | Ok a => Ok (f a)
  | Raise e => Raise e
  end.

Definition has_id (job_id : string) (r : Row.t) : bool :=
  bool_decide (Row.id r = job_id).

(** [INSERT INTO jobs ... VALUES (...)] with both lock columns NULL. *)
Definition row_of_job (job : Job.t) : Row.t :=
  {| Row.id := Job.id job;
     Row.command := Job.command job;
     Row.state := Job.state job;
     Row.attempts := Job.attempts job;
     Row.max_retries := Job.max_retries job;
     Row.created_at := isoformat (Job.created_at job);
     Row.updated_at := isoformat (Job.updated_at job);
     Row.next_retry_at := isoformat <$> Job.next_retry_at job;
     Row.error_message := Job.error_message job;
     Row.locked_by := None;
     Row.locked_at := None |}.

(** The integers [sqlite3] binds to a parameter: the 64-bit ones.  For any
    other Python [int], [execute] raises [OverflowError] before the statement
    runs. *)
Definition binds (n : Z) : bool := (- 2 ^ 63 <=? n) && (n <? 2 ^ 63).

(** [JobStore.enqueue].  The parameters are bound first, so counters that
    are no 64-bit integers end the call with an [OverflowError], which
    [enqueue] does not catch, whatever the table holds.  Then the primary
    key refuses a second row with the same id ([sqlite3.IntegrityError],
    answered with [False]). *)
Definition enqueue (job : Job.t) (s : store) : store * result bool :=
  if binds (Job.attempts job) && binds (Job.max_retries job) then
    if existsb (has_id (Job.id job)) s
    then (s, Ok false)
    else ((s ++ [row_of_job job])%list, Ok true)
  else (s, Raise (OverflowError SqliteInteger)).

(** [JobStore._row_to_job].  [Job.__init__] keeps the timestamps it is
    given (a [datetime] is never falsy); an empty or NULL [next_retry_at]
    becomes [None]. *)
Definition _row_to_job (r : Row.t) : result Job.t :=
  match fromisoformat (Row.created_at r), fromisoformat (Row.updated_at r) with
  | Some c, Some u =>
      let mkjob n :=
        {| Job.id := Row.id r;
           Job.command := Row.command r;
           Job.state := Row.state r;
           Job.attempts := Row.attempts r;
           Job.max_retries := Row.max_retries r;
           Job.created_at := c;
           Job.updated_at := u;
           Job.next_retry_at := n;
           Job.error_message := Row.error_message r |} in
      match Row.next_retry_at r with
      | None => Ok (mkjob None)
      | Some "" => Ok (mkjob None)
      | Some txt =>
          match fromisoformat txt with
          | Some n => Ok (mkjob (Some n))
          | None => Raise ValueError
          end
      end
  | _, _ => Raise ValueError
  end.

(** [SELECT * FROM jobs WHERE id = ?] and [fetchone()]. *)
Definition select_by_id (job_id : string) (s : store) : option Row.t :=
  List.find (has_id job_id) s.

(** [JobStore.get_job]. *)
Definition get_job (job_id : string) (s : store) : result (option Job.t) :=
  match select_by_id job_id s with
  | Some r => result_map Some (_row_to_job r)
  | None => Ok None
  end.

(** SQL's [x < y] and [x <= y] on a nullable TEXT column: NULL compares
    as not true. *)
Definition text_lt (x : option string) (y : string) : bool :=
  match x with
  | Some a => String.ltb a y
  | None => false
  end.

Definition text_le (x : option string) (y : string) : bool :=
  match x with
  | Some a => String.leb a y
  | None => false
  end.

Definition is_null {A} (x : option A) : bool :=
  match x with
  | None => true
  | Some _ => false
  end.

(** [locked_by IS NULL OR locked_at < datetime('now', '-5 minutes')]. *)
Definition lock_clause (threshold : string) (r : Row.t) : bool :=
  is_null (Row.locked_by r) || text_lt (Row.locked_at r) threshold.

(** The two alternatives of the WHERE clause of [acquire_job]. *)
Definition pending_clause (threshold : string) (r : Row.t) : bool :=
  bool_decide (Row.state r = PENDING) && lock_clause threshold r.

Definition failed_clause (now threshold : string) (r : Row.t) : bool :=
  bool_decide (Row.state r = FAILED)
  && text_le (Row.next_retry_at r) now
  && lock_clause threshold r.

Definition where_clause (now threshold : string) (r : Row.t) : bool :=
  pending_clause threshold r || failed_clause now threshold r.

(** [ORDER BY created_at ASC LIMIT 1] over the rows the scan delivers: the
    least [created_at], and among equal ones the row delivered first (SQL
    leaves that choice open; SQLite's sorter keeps the delivery order). *)
Fixpoint order_by_created_at_limit_1 (l : list Row.t) : option Row.t :=
  match l with
  | [] => None
  | r :: l' =>
      match order_by_created_at_limit_1 l' with
      | None => Some r
      | Some m =>
          if String.leb (Row.created_at r) (Row.created_at m) then Some r else Some m
      end
  end.

(** The rows the SELECT of [acquire_job] scans, in the order in which they
    reach the sorter.  The source does not fix that order: it is SQLite's
    choice of a query plan.  With the index on [state] that [_init_db]
    declares, SQLite 3.40 answers the OR one alternative after the other,
    the pending rows in rowid order, then the failed ones, and that is the
    order taken here.  It matters only among rows with equal [created_at]:
    that the row selected is an eligible one with the least [created_at]
    is proved below for every order. *)
Definition scan (now threshold : string) (s : store) : list Row.t :=
  (List.filter (pending_clause threshold) s
   ++ List.filter (failed_clause now threshold) s)%list.

(** First statement of [acquire_job]: the SELECT and [fetchone()].  [now] is
    [datetime.utcnow()], [sql_now] is SQLite's own reading of the clock. *)
Definition acquire_select (now sql_now : datetime) (s : store) : option Row.t :=
  order_by_created_at_limit_1
    (scan (isoformat now) (sqlite_now_minus_5_minutes sql_now) s).

(** [UPDATE jobs SET locked_by = ?, locked_at = ?, state = ? WHERE id = ?]. *)
Definition lock_row (worker_id now : string) (r : Row.t) : Row.t :=
  {| Row.id := Row.id r;
     Row.command := Row.command r;
     Row.state := PROCESSING;
     Row.attempts := Row.attempts r;
     Row.max_retries := Row.max_retries r;
     Row.created_at := Row.created_at r;
     Row.updated_at := Row.updated_at r;
     Row.next_retry_at := Row.next_retry_at r;
     Row.error_message := Row.error_message r;
     Row.locked_by := Some worker_id;
     Row.locked_at := Some now |}.

Definition update_where (p : Row.t -> bool) (f : Row.t -> Row.t) (s : store) : store :=
  map (fun r => if p r then f r else r) s.

(** Rest of [acquire_job] once a row was fetched: the UPDATE, the commit,
    and the row read back ([_row_to_job(None)] is a [TypeError]). *)
Definition acquire_lock (worker_id : string) (now : datetime) (job_id : string)
    (s : store) : store * result Job.t :=
  let s' := update_where (has_id job_id) (lock_row worker_id (isoformat now)) s in
  (s', match select_by_id job_id s' with
       | Some r => _row_to_job r
       | None => Raise TypeError
       end).

(** [JobStore.acquire_job], run without another connection in between. *)
Definition acquire_job (worker_id : string) (now sql_now : datetime) (s : store)
  : store * result (option Job.t) :=
  match acquire_select now sql_now s with
  | None => (s, Ok None)
  | Some r =>
      let '(s', j) := acquire_lock worker_id now (Row.id r) s in
      (s', result_map Some j)
  end.

(** [UPDATE jobs SET command = ?, ..., locked_by = NULL, locked_at = NULL
    WHERE id = ?] of [update_job]. *)
Definition write_job (job : Job.t) (now : datetime) (r : Row.t) : Row.t :=
  {| Row.id := Row.id r;
     Row.command := Job.command job;
     Row.state := Job.state job;
     Row.attempts := Job.attempts job;
     Row.max_retries := Job.max_retries job;
     Row.created_at := Row.created_at r;
     Row.updated_at := isoformat now;
     Row.next_retry_at := isoformat <$> Job.next_retry_at job;
     Row.error_message := Job.error_message job;
     Row.locked_by := None;
     Row.locked_at := None |}.

(** [job.updated_at = datetime.utcnow()], the first statement of
    [update_job], on the caller's object. *)
Definition stamp (job : Job.t) (now : datetime) : Job.t :=
  {| Job.id := Job.id job;
     Job.command := Job.command job;
     Job.state := Job.state job;
     Job.attempts := Job.attempts job;
     Job.max_retries := Job.max_retries job;
     Job.created_at := Job.created_at job;
     Job.updated_at := now;
     Job.next_retry_at := Job.next_retry_at job;
     Job.error_message := Job.error_message job |}.

(** [JobStore.update_job] on the table; [now] is the [datetime.utcnow()] it
    stamps on [job.updated_at].  The answer is [cursor.rowcount > 0].  This
    is the call for counters that [sqlite3] binds (64-bit integers): the
    counters of a job read from a row are such, and one more attempt is,
    unless the row holds the greatest 64-bit integer. *)
Definition update_job (job : Job.t) (now : datetime) (s : store) : store * bool :=
  (update_where (has_id (Job.id job)) (write_job job now) s,
   existsb (has_id (Job.id job)) s).

(** [SELECT state, COUNT( * ) FROM jobs GROUP BY state]: one result row per
    state that occurs. *)
Fixpoint bump (k : string) (groups : list (string * Z)) : list (string * Z) :=
  match groups with
  | [] => [(k, 1)]
  | (k', n) :: g => if String.eqb k k' then (k', n + 1) :: g else (k', n) :: bump k g
  end.

Definition group_by_state (s : store) : list (string * Z) :=
  fold_left (fun g r => bump (value (Row.state r)) g) s [].

(** [JobStore.get_stats]: [stats[row["state"]] = row["count"]] for every
    result row. *)
Definition get_stats (s : store) : gmap string Z :=
  fold_left (fun stats row => <[row.1 := row.2]> stats) (group_by_state s) ∅.

(** [JobStore.delete_job]. *)
Definition delete_job (job_id : string) (s : store) : store * bool :=
  (List.filter (fun r => negb (has_id job_id r)) s, existsb (has_id job_id) s).

(** [UPDATE jobs SET locked_by = NULL, locked_at = NULL, state = 'pending'
    WHERE ...] of [clear_locks]. *)
Definition unlock_row (r : Row.t) : Row.t :=
  {| Row.id := Row.id r;
     Row.command := Row.command r;
     Row.state := PENDING;
     Row.attempts := Row.attempts r;
     Row.max_retries := Row.max_retries r;
     Row.created_at := Row.created_at r;
     Row.updated_at := Row.updated_at r;
     Row.next_retry_at := Row.next_retry_at r;
     Row.error_message := Row.error_message r;
     Row.locked_by := None;
     Row.locked_at := None |}.

Definition held_by (worker_id : string) (r : Row.t) : bool :=
  bool_decide (Row.locked_by r = Some worker_id)
  && bool_decide (Row.state r = PROCESSING).

Definition stale (threshold : string) (r : Row.t) : bool :=
  text_lt (Row.locked_at r) threshold && bool_decide (Row.state r = PROCESSING).

(** [JobStore.clear_locks]: [if worker_id:] is false for [None] and for the
    empty string; both take the stale-lock branch. *)
Definition clear_locks (worker_id : option string) (sql_now : datetime)
    (s : store) : store :=
  match worker_id with
  | Some w =>
      if bool_decide (w = "")
      then update_where (stale (sqlite_now_minus_5_minutes sql_now)) unlock_row s
      else update_where (held_by w) unlock_row s
  | None => update_where (stale (sqlite_now_minus_5_minutes sql_now)) unlock_row s
  end.

(** ** [worker.py]: what the worker does with an outcome *)

Definition set_completed (job : Job.t) (now : datetime) : Job.t :=
  {| Job.id := Job.id job;
     Job.command := Job.command job;
     Job.state := COMPLETED;
     Job.attempts := Job.attempts job;
     Job.max_retries := Job.max_retries job;
     Job.created_at := Job.created_at job;
     Job.updated_at := now;
     Job.next_retry_at := Job.next_retry_at job;
     Job.error_message := Job.error_message job |}.

(** [Worker._mark_completed]; [r1] and [r2] are its two readings of the
    clock (its own, then [update_job]'s). *)
Definition _mark_completed (job : Job.t) (r1 r2 : datetime) (s : store) : store :=
  (update_job (set_completed job r1) r2 s).1.

(** First three assignments of [_handle_failure]. *)
Definition count_failure (job : Job.t) (error_message : string) (now : datetime) : Job.t :=
  {| Job.id := Job.id job;
     Job.command := Job.command job;
     Job.state := Job.state job;
     Job.attempts := Job.attempts job + 1;
     Job.max_retries := Job.max_retries job;
     Job.created_at := Job.created_at job;
     Job.updated_at := now;
     Job.next_retry_at := Job.next_retry_at job;
     Job.error_message := Some error_message |}.

Definition set_outcome (job : Job.t) (st : JobState) (next : option datetime) : Job.t :=
  {| Job.id := Job.id job;
     Job.command := Job.command job;
     Job.state := st;
     Job.attempts := Job.attempts job;
     Job.max_retries := Job.max_retries job;
     Job.created_at := Job.created_at job;
     Job.updated_at := Job.updated_at job;
     Job.next_retry_at := next;
     Job.error_message := Job.error_message job |}.

(** Which [OverflowError] [datetime.utcnow() + timedelta(seconds=n)] ends
    in, when it ends in one: [timedelta] splits [n] into days and a rest, and
    refuses days that do not fit a C [int], then more than 999999999 days
    either way; a [timedelta] that can be built takes the sum out of the
    range of [datetime]. *)
Definition add_seconds_error (n : Z) : overflow :=
  let days := n / 86400 in
  if (days <? - 2 ^ 31) || (2 ^ 31 <=? days) then CInt
  else if 999999999 <? Z.abs days then TimedeltaDays days
  else DateValue.

(** [Worker._handle_failure].  [backoff_base] is [config.get("backoff_base", 2)],
    an integer; [r1], [r2], [r3] are the readings of [datetime.utcnow()] in
    the order in which they are taken: line 134, then either [update_job]'s
    (the job dies) or line 148 followed by [update_job]'s.  The job object is
    mutated in place, so it is returned as the call leaves it, with the
    reading [update_job] stamped on it, or, when the retry instant does not
    fit a [datetime] and the call raises, as it was counted.
    [backoff_base ** job.attempts] is the integer power for the exponents a
    count can take (from 0 on); for a negative exponent Python computes a
    float, which this function does not follow. *)
Definition _handle_failure (job : Job.t) (error_message : string)
    (backoff_base : Z) (r1 r2 r3 : datetime) (s : store)
  : Job.t * store * result unit :=
  let job := count_failure job error_message r1 in
  if Job.max_retries job <=? Job.attempts job then
    let job := set_outcome job DEAD None in
    (stamp job r2, (update_job job r2 s).1, Ok tt)
  else
    let delay_seconds := backoff_base ^ Job.attempts job in
    match add_seconds r2 delay_seconds with
    | None => (job, s, Raise (OverflowError (add_seconds_error delay_seconds)))
    | Some next =>
        let job := set_outcome job FAILED (Some next) in
        (stamp job r3, (update_job job r3 s).1, Ok tt)
    end.

(** [str(n)] for an integer. *)
Fixpoint decimal_digits (fuel : nat) (n : Z) (acc : string) : string :=
  match fuel with
  | O => acc
  | S fuel' =>
      let acc := String (digit n) acc in
      if n <? 10 then acc else decimal_digits fuel' (n / 10) acc
  end.

Definition decimal (n : Z) : string :=
  let digits m := decimal_digits (S (Z.to_nat (Z.log2 m))) m "" in
  if n <? 0 then "-" +:+ digits (- n) else digits n.

(** [str(e)] for an [OverflowError]. *)
Definition overflow_text (o : overflow) : string :=
  match o with
  | DateValue => "date value out of range"
  | TimedeltaDays days =>
      "days=" +:+ decimal days +:+ "; must have magnitude <= 999999999"
  | CInt => "Python int too large to convert to C int"
  | SqliteInteger => "Python int too large to convert to SQLite INTEGER"
  end.

(** [str(e)].  The handler of [_process_next_job] applies it to what
    [_handle_failure] raised, an [OverflowError]; the text of a [ValueError]
    goes on to quote the string that was refused, and no function here
    stores it. *)
Definition str (e : exn) : string :=
  match e with
  | ValueError => "Invalid isoformat string"
  | TypeError => "'NoneType' object is not subscriptable"
  | OverflowError o => overflow_text o
  end.

(** [Worker._process_next_job] for a runner that answers
    [(success, error_message)].  [clock k] is the k-th reading of the clock
    in this cycle (SQLite's reading in [acquire_job] is the second one).
    The [except Exception] handler runs [_handle_failure] once more on the
    job in hand, and what that call raises leaves the method. *)
Definition _process_next_job (worker_id : string) (backoff_base : Z)
    (clock : nat -> datetime) (success : bool) (error_message : string)
    (s : store) : store * result unit :=
  match acquire_job worker_id (clock 0%nat) (clock 1%nat) s with
  | (s, Raise _) => (s, Ok tt)
  | (s, Ok None) => (s, Ok tt)
  | (s, Ok (Some job)) =>
      if success then (_mark_completed job (clock 2%nat) (clock 3%nat) s, Ok tt)
      else
        match _handle_failure job error_message backoff_base
                (clock 2%nat) (clock 3%nat) (clock 4%nat) s with
        | (_, s, Ok _) => (s, Ok tt)
        | (job, s, Raise e) =>
            let '(_, s, r) :=
              _handle_failure job (str e) backoff_base
                (clock 4%nat) (clock 5%nat) (clock 6%nat) s in
            (s, r)
        end
  end.

(** ** [cli.py]: [dlq retry] *)

Inductive retry_outcome :=
| Requeued                      (* "[OK] Job ... has been requeued for retry" *)
| NotFound                      (* "Error: Job ... not found" *)
| NotInDLQ (current : JobState) (* "Error: Job ... is not in Dead Letter Queue (state: ...)" *)
| UpdateFailed                  (* "Error: Failed to update job ..." *)
| RetryError (e : exn).         (* "Error retrying job: ..." *)

Definition reset_for_retry (job : Job.t) : Job.t :=
  {| Job.id := Job.id job;
     Job.command := Job.command job;
     Job.state := PENDING;
     Job.attempts := 0;
     Job.max_retries := Job.max_retries job;
     Job.created_at := Job.created_at job;
     Job.updated_at := Job.updated_at job;
     Job.next_retry_at := None;
     Job.error_message := None |}.

Definition retry (job_id : string) (now : datetime) (s : store) : store * retry_outcome :=
  match get_job job_id s with
  | Raise e => (s, RetryError e)
  | Ok None => (s, NotFound)
  | Ok (Some job) =>
      if bool_decide (Job.state job = DEAD) then
        let '(s', updated) := update_job (reset_for_retry job) now s in
        (s', if updated then Requeued else UpdateFailed)
      else (s, NotInDLQ (Job.state job))
  end.

(** ** Two [acquire_job] calls side by side

    [acquire_job] holds [self._lock], a [threading.Lock] of the [JobStore]
    object, from before its SELECT until it returns.  Every [Worker] builds
    a [JobStore] of its own, and [worker start] runs each worker in its own
    process, so two workers never share that lock: what remains between them
    is SQLite, which runs one statement at a time.  A call is therefore two
    steps, the SELECT and the UPDATE with the read-back, and calls on
    different [JobStore] objects may take their steps in any order. *)

Inductive pc :=
| AtSelect
| AtUpdate (fetched : Row.t)
| Returned (r : result (option Job.t)).

Record call := mkCall {
  store_object : nat;
  worker_id : string;
  now : datetime;
  sql_now : datetime;
  at_pc : pc
}.

Definition at_ (c : call) (p : pc) : call :=
  {| store_object := store_object c;
     worker_id := worker_id c;
     now := now c;
     sql_now := sql_now c;
     at_pc := p |}.

Definition holds_lock (c : call) : bool :=
  match at_pc c with
  | AtUpdate _ => true
  | _ => false
  end.

(** One step of call [c] while [other] is where it is; [None] when [c]
    cannot move (it has returned, or it waits for the lock). *)
Definition step (c other : call) (s : store) : option (store * call) :=
  match at_pc c with
  | AtSelect =>
      if bool_decide (store_object c = store_object other) && holds_lock other
      then None
      else
        match acquire_select (now c) (sql_now c) s with
        | None => Some (s, at_ c (Returned (Ok None)))
        | Some r => Some (s, at_ c (AtUpdate r))
        end
  | AtUpdate r =>
      let '(s', j) := acquire_lock (worker_id c) (now c) (Row.id r) s in
      Some (s', at_ c (Returned (result_map Some j)))
  | Returned _ => None
  end.

(** A schedule says which call moves next: [false] the first, [true] the
    second. *)
Fixpoint run (schedule : list bool) (s : store) (a b : call)
  : option (store * call * call) :=
  match schedule with
  | [] => Some (s, a, b)
  | false :: rest =>
      match step a b s with
      | Some (s', a') => run rest s' a' b
      | None => None
      end
  | true :: rest =>
      match step b a s with
      | Some (s', b') => run rest s' a b'
      | None => None
      end
  end.

(** The id a returned call handed to its worker. *)
Definition returned_id (c : call) : option string :=
  match at_pc c with
  | Returned (Ok (Some job)) => Some (Job.id job)
  | _ => None
  end.

(** ** Example data *)

(** Scenario S4: two submissions under the id "dup". *)
Definition job_dup_x : Job.t :=
  {| Job.id := "dup"; Job.command := "x"; Job.state := PENDING;
     Job.attempts := 0; Job.max_retries := 3;
     Job.created_at := 1704110400000000; Job.updated_at := 1704110400000000;
     Job.next_retry_at := None; Job.error_message := None |}.

Definition job_dup_y : Job.t :=
  {| Job.id := "dup"; Job.command := "y"; Job.state := PENDING;
     Job.attempts := 0; Job.max_retries := 3;
     Job.created_at := 1704110460000000; Job.updated_at := 1704110460000000;
     Job.next_retry_at := None; Job.error_message := None |}.

(** A third submission under "dup", as [enqueue] gets it from the JSON
    [{"id": "dup", "command": "z", "attempts": 9223372036854775808}]. *)
Definition job_dup_big : Job.t :=
  {| Job.id := "dup"; Job.command := "z"; Job.state := PENDING;
     Job.attempts := 2 ^ 63; Job.max_retries := 3;
     Job.created_at := 1704110520000000; Job.updated_at := 1704110520000000;
     Job.next_retry_at := None; Job.error_message := None |}.

(** Scenario S2 midway: "job-b" failed once and is due again; its row
    still carries the diagnostic of that run. *)
Definition row_failed_once : Row.t :=
  {| Row.id := "job-b"; Row.command := "make report"; Row.state := FAILED;
     Row.attempts := 1; Row.max_retries := 5;
     Row.created_at := "2024-01-01T12:00:00";
     Row.updated_at := "2024-01-01T12:00:01.250000";
     Row.next_retry_at := Some "2024-01-01T12:00:03.250000";
     Row.error_message := Some "Exit code 1";
     Row.locked_by := None; Row.locked_at := None |}.

(** 2024-01-01T12:00:10, and later readings of the clock. *)
Definition t_12_00_10 : datetime := 1704110410000000.
Definition t_12_00_11 : datetime := 1704110411000000.
Definition t_12_00_12 : datetime := 1704110412000000.

(** The primary key: no two rows under one id. *)
Definition primary_key (s : store) : Prop := NoDup (Row.id <$> s).

(** [r'] is [r] with the lease of [worker_id] taken at the text [now]:
    every column that is not named keeps its value. *)
Definition leased (worker_id now : string) (r r' : Row.t) : Prop :=
  Row.state r' = PROCESSING
  /\ Row.locked_by r' = Some worker_id
  /\ Row.locked_at r' = Some now
  /\ Row.id r' = Row.id r
  /\ Row.command r' = Row.command r
  /\ Row.attempts r' = Row.attempts r
  /\ Row.max_retries r' = Row.max_retries r
  /\ Row.created_at r' = Row.created_at r
  /\ Row.updated_at r' = Row.updated_at r
  /\ Row.next_retry_at r' = Row.next_retry_at r
  /\ Row.error_message r' = Row.error_message r.

(** What the claim C4 says of the same step: [updated_at] is stamped too. *)
Definition leased_and_stamped (worker_id now : string) (r r' : Row.t) : Prop :=
  Row.state r' = PROCESSING
  /\ Row.locked_by r' = Some worker_id
  /\ Row.locked_at r' = Some now
  /\ Row.updated_at r' = now
  /\ Row.id r' = Row.id r
  /\ Row.command r' = Row.command r
  /\ Row.attempts r' = Row.attempts r
  /\ Row.max_retries r' = Row.max_retries r
  /\ Row.created_at r' = Row.created_at r
  /\ Row.next_retry_at r' = Row.next_retry_at r
  /\ Row.error_message r' = Row.error_message r.

(** "job-b" as [acquire_job] hands it to "worker-1" at 12:00:10. *)
Definition job_b_acquired : Job.t :=
  {| Job.id := "job-b"; Job.command := "make report"; Job.state := PROCESSING;
     Job.attempts := 1; Job.max_retries := 5;
     Job.created_at := 1704110400000000;
     Job.updated_at := 1704110401250000;
     Job.next_retry_at := Some 1704110403250000;
     Job.error_message := Some "Exit code 1" |}.

Definition row_b_leased : Row.t :=
  {| Row.id := "job-b"; Row.command := "make report"; Row.state := PROCESSING;
     Row.attempts := 1; Row.max_retries := 5;
     Row.created_at := "2024-01-01T12:00:00";
     Row.updated_at := "2024-01-01T12:00:01.250000";
     Row.next_retry_at := Some "2024-01-01T12:00:03.250000";
     Row.error_message := Some "Exit code 1";
     Row.locked_by := Some "worker-1";
     Row.locked_at := Some "2024-01-01T12:00:10" |}.

(** The row of "job-b" after a successful run recorded at 12:00:12. *)
Definition row_b_completed : Row.t :=
  {| Row.id := "job-b"; Row.command := "make report"; Row.state := COMPLETED;
     Row.attempts := 1; Row.max_retries := 5;
     Row.created_at := "2024-01-01T12:00:00";
     Row.updated_at := "2024-01-01T12:00:12";
     Row.next_retry_at := Some "2024-01-01T12:00:03.250000";
     Row.error_message := Some "Exit code 1";
     Row.locked_by := None; Row.locked_at := None |}.

(** A clock that reads 12:00:10 and then one second more at every reading. *)
Definition clock_from_12_00_10 (k : nat) : datetime :=
  t_12_00_10 + Z.of_nat k * us_per_second.

(** Scenario S5: "job-d" is dead after three attempts; "job-p" waits. *)
Definition row_dead : Row.t :=
  {| Row.id := "job-d"; Row.command := "exit 2"; Row.state := DEAD;
     Row.attempts := 3; Row.max_retries := 3;
     Row.created_at := "2024-01-01T11:00:00";
     Row.updated_at := "2024-01-01T11:00:09.500000";
     Row.next_retry_at := None;
     Row.error_message := Some "Exit code 2";
     Row.locked_by := None; Row.locked_at := None |}.

Definition row_pending : Row.t :=
  {| Row.id := "job-p"; Row.command := "echo hello"; Row.state := PENDING;
     Row.attempts := 0; Row.max_retries := 3;
     Row.created_at := "2024-01-01T11:30:00";
     Row.updated_at := "2024-01-01T11:30:00";
     Row.next_retry_at := None;
     Row.error_message := None;
     Row.locked_by := None; Row.locked_at := None |}.

Definition store_s5 : store := [row_dead; row_pending].

Definition job_dead : Job.t :=
  {| Job.id := "job-d"; Job.command := "exit 2"; Job.state := DEAD;
     Job.attempts := 3; Job.max_retries := 3;
     Job.created_at := 1704106800000000;
     Job.updated_at := 1704106809500000;
     Job.next_retry_at := None;
     Job.error_message := Some "Exit code 2" |}.

Definition job_pending : Job.t :=
  {| Job.id := "job-p"; Job.command := "echo hello"; Job.state := PENDING;
     Job.attempts := 0; Job.max_retries := 3;
     Job.created_at := 1704108600000000;
     Job.updated_at := 1704108600000000;
     Job.next_retry_at := None;
     Job.error_message := None |}.

(** The number of rows in state [st]. *)
Definition count_state (st : JobState) (s : store) : Z :=
  Z.of_nat (length (List.filter (fun r => bool_decide (Row.state r = st)) s)).

(** The count a GROUP BY result holds for a key, if it holds one. *)
Definition assoc (k : string) (groups : list (string * Z)) : option Z :=
  snd <$> List.find (fun p => String.eqb k p.1) groups.

Definition count_key (k : string) (s : store) : Z :=
  Z.of_nat (length (List.filter (fun r => String.eqb k (value (Row.state r))) s)).

(** Two submissions that carry the same [created_at]; "b" is enqueued
    first. *)
Definition job_tie_b : Job.t :=
  {| Job.id := "b"; Job.command := "echo b"; Job.state := PENDING;
     Job.attempts := 0; Job.max_retries := 3;
     Job.created_at := 1704110400000000; Job.updated_at := 1704110400000000;
     Job.next_retry_at := None; Job.error_message := None |}.

Definition job_tie_a : Job.t :=
  {| Job.id := "a"; Job.command := "echo a"; Job.state := PENDING;
     Job.attempts := 0; Job.max_retries := 3;
     Job.created_at := 1704110400000000; Job.updated_at := 1704110400000000;
     Job.next_retry_at := None; Job.error_message := None |}.

Definition store_tie : store := (enqueue job_tie_a (enqueue job_tie_b []).1).1.

(** The rows [acquire_job] may take at the texts [now] and [threshold]. *)
Definition eligible (now threshold : string) (s : store) (r : Row.t) : Prop :=
  In r s /\ where_clause now threshold r = true.

(** What [ORDER BY created_at ASC LIMIT 1] may answer when it is given the
    eligible rows: one of them whose [created_at] text no other goes below,
    or nothing when there is none. *)
Definition least_eligible (now threshold : string) (s : store)
    (selected : option Row.t) : Prop :=
  match selected with
  | Some r =>
      eligible now threshold s r
      /\ forall r', eligible now threshold s r' ->
                    String.leb (Row.created_at r) (Row.created_at r') = true
  | None => forall r, ~ eligible now threshold s r
  end.

(** Scenario S6: "job-e" is PROCESSING under a worker that is gone; its
    lease was taken at 11:50:10, ten minutes before the clock reads
    12:00:10. *)
Definition row_ghost : Row.t :=
  {| Row.id := "job-e"; Row.command := "sleep 1"; Row.state := PROCESSING;
     Row.attempts := 0; Row.max_retries := 3;
     Row.created_at := "2024-01-01T11:50:00";
     Row.updated_at := "2024-01-01T11:50:00";
     Row.next_retry_at := None;
     Row.error_message := None;
     Row.locked_by := Some "ghost";
     Row.locked_at := Some "2024-01-01T11:50:10" |}.

(** The same job with a lease taken the evening before. *)
Definition row_ghost_yesterday : Row.t :=
  {| Row.id := "job-e"; Row.command := "sleep 1"; Row.state := PROCESSING;
     Row.attempts := 0; Row.max_retries := 3;
     Row.created_at := "2023-12-31T23:50:00";
     Row.updated_at := "2023-12-31T23:50:00";
     Row.next_retry_at := None;
     Row.error_message := None;
     Row.locked_by := Some "ghost";
     Row.locked_at := Some "2023-12-31T23:50:10" |}.

(** [r'] is [r] given back: PENDING, no lease, every other column as it
    was. *)
Definition released (r r' : Row.t) : Prop :=
  Row.state r' = PENDING
  /\ Row.locked_by r' = None
  /\ Row.locked_at r' = None
  /\ Row.id r' = Row.id r
  /\ Row.command r' = Row.command r
  /\ Row.attempts r' = Row.attempts r
  /\ Row.max_retries r' = Row.max_retries r
  /\ Row.created_at r' = Row.created_at r
  /\ Row.updated_at r' = Row.updated_at r
  /\ Row.next_retry_at r' = Row.next_retry_at r
  /\ Row.error_message r' = Row.error_message r.


(** "job-b", acquired after one failure, fails again.  The three readings
    of the clock in [_handle_failure] and [update_job]: 12:00:11, then 40
    and 900 microseconds later. *)
Definition t_fail_1 : datetime := 1704110411000000.
Definition t_fail_2 : datetime := 1704110411000040.
Definition t_fail_3 : datetime := 1704110411000900.

Definition row_b_failed_twice : Row.t :=
  {| Row.id := "job-b"; Row.command := "make report"; Row.state := FAILED;
     Row.attempts := 2; Row.max_retries := 5;
     Row.created_at := "2024-01-01T12:00:00";
     Row.updated_at := "2024-01-01T12:00:11.000900";
     Row.next_retry_at := Some "2024-01-01T12:00:15.000040";
     Row.error_message := Some "Exit code 3";
     Row.locked_by := None; Row.locked_at := None |}.

Definition job_b_failed_twice : Job.t :=
  {| Job.id := "job-b"; Job.command := "make report"; Job.state := FAILED;
     Job.attempts := 2; Job.max_retries := 5;
     Job.created_at := 1704110400000000;
     Job.updated_at := t_fail_3;
     Job.next_retry_at := Some 1704110415000040;
     Job.error_message := Some "Exit code 3" |}.

(** Two workers as [worker start --count 2] starts them: each in its own
    process, each with its own [JobStore] object, both about to call
    [acquire_job] while "job-p" is the only job. *)
Definition call_worker_1 : call :=
  {| store_object := 1; worker_id := "worker-1";
     now := t_12_00_10; sql_now := t_12_00_10; at_pc := AtSelect |}.

Definition call_worker_2 : call :=
  {| store_object := 2; worker_id := "worker-2";
     now := t_12_00_10 + 250; sql_now := t_12_00_10 + 250; at_pc := AtSelect |}.

(** The same two calls made through one [JobStore] object, as the test
    [test_job_locking] makes them. *)
Definition call_shared_1 : call :=
  {| store_object := 1; worker_id := "worker-1";
     now := t_12_00_10; sql_now := t_12_00_10; at_pc := AtSelect |}.

Definition call_shared_2 : call :=
  {| store_object := 1; worker_id := "worker-2";
     now := t_12_00_10 + 250; sql_now := t_12_00_10 + 250; at_pc := AtSelect |}.

(** Both SELECTs, then both UPDATEs. *)
Definition schedule_interleaved : list bool := [false; true; false; true].

(** The job a call has in hand: fetched, or already returned. *)
Definition id_in_hand (c : call) : option string :=
  match at_pc c with
  | AtSelect => None
  | AtUpdate r => Some (Row.id r)
  | Returned (Ok (Some job)) => Some (Job.id job)
  | Returned _ => None
  end.

(** What the table says of the job a call has in hand: a fetched row is in
    the table and not PROCESSING yet, a returned job is PROCESSING. *)
Definition in_step_with (s : store) (c : call) : Prop :=
  match at_pc c with
  | AtSelect => True
  | AtUpdate r => In r s /\ (Row.state r = PENDING \/ Row.state r = FAILED)
  | Returned (Ok (Some job)) =>
      exists r, select_by_id (Job.id job) s = Some r /\ Row.state r = PROCESSING
  | Returned _ => True
  end.

(** Two calls through one [JobStore] object, anywhere in their run. *)
Definition sharing_one_store (s : store) (a b : call) : Prop :=
  primary_key s
  /\ store_object a = store_object b
  /\ (holds_lock a && holds_lock b = false)
  /\ in_step_with s a
  /\ in_step_with s b
  /\ forall i j, id_in_hand a = Some i -> id_in_hand b = Some j -> i <> j.

(** ** The table over a run of calls *)

(** The calls a program makes on a [JobStore]. *)
Inductive store_call :=
| Enqueue (job : Job.t)
| AcquireJob (worker_id : string) (now sql_now : datetime)
| UpdateJob (job : Job.t) (now : datetime)
| DeleteJob (job_id : string)
| ClearLocks (worker_id : option string) (sql_now : datetime).

(** The table a call leaves. *)
Definition perform (s : store) (c : store_call) : store :=
  match c with
  | Enqueue job => (enqueue job s).1
  | AcquireJob w now sql_now => (acquire_job w now sql_now s).1
  | UpdateJob job now => (update_job job now s).1
  | DeleteJob job_id => (delete_job job_id s).1
  | ClearLocks w sql_now => clear_locks w sql_now s
  end.

(** The table after a run of calls on the empty table that [_init_db]
    creates. *)
Definition table_after (calls : list store_call) : store :=
  fold_left perform calls [].

(** A lease is both columns or none, and only a PROCESSING row has one. *)
Definition lease_ok (r : Row.t) : Prop :=
  (Row.locked_by r = None <-> Row.locked_at r = None)
  /\ (Row.locked_by r <> None -> Row.state r = PROCESSING).

(** A job whose timestamps are ones a [datetime] can hold. *)
Definition datetimes_in_range (job : Job.t) : Prop :=
  in_range (Job.created_at job) = true
  /\ in_range (Job.updated_at job) = true
  /\ (forall n, Job.next_retry_at job = Some n -> in_range n = true).

(** The job that [update_job] leaves to be read: what it was given, under
    the [created_at] of the row, stamped [now]. *)
Definition as_updated (job : Job.t) (created_at now : datetime) : Job.t :=
  {| Job.id := Job.id job;
     Job.command := Job.command job;
     Job.state := Job.state job;
     Job.attempts := Job.attempts job;
     Job.max_retries := Job.max_retries job;
     Job.created_at := created_at;
     Job.updated_at := now;
     Job.next_retry_at := Job.next_retry_at job;
     Job.error_message := Job.error_message job |}.

(** ** Texts and instants *)

(** One civil date before another. *)
Definition date_lt (y m d y' m' d' : Z) : Prop :=
  y < y' \/ (y = y' /\ (m < m' \/ (m = m' /\ d < d'))).

(** The text of an instant, field by field. *)
Definition fields_text (y m d hh mm ss us : Z) : string :=
  pad 4 y (String "-" (pad 2 m (String "-" (pad 2 d (String "T"
    (pad 2 hh (String ":" (pad 2 mm (String ":" (pad 2 ss
       (if us =? 0 then "" else String "." (pad 6 us "")))))))))))).

(** Comparison by a first key, then by what follows. *)
Definition then_by (c k : comparison) : comparison :=
  match c with
  | Eq => k
  | _ => c
  end.

(** The text of a naive datetime, as [isoformat] writes it.  The store and
    the worker write such texts for every timestamp they take themselves,
    which are readings of [datetime.utcnow()]; [enqueue] writes them for a
    job whose timestamps are naive. *)
Definition isoformat_text (txt : string) : Prop :=
  exists t, in_range t = true /\ txt = isoformat t.

(** A row whose timestamps are all such texts.  A row that [enqueue] wrote
    for a job built by [Job.from_dict] from a timestamp with a UTC offset
    is not one. *)
Definition timestamps_written (r : Row.t) : Prop :=
  isoformat_text (Row.created_at r)
  /\ isoformat_text (Row.updated_at r)
  /\ (forall txt, Row.next_retry_at r = Some txt -> isoformat_text txt)
  /\ (forall txt, Row.locked_at r = Some txt -> isoformat_text txt).

(** The instants a call hands to the store are ones a [datetime] can hold
    (in Python they are [datetime] objects). *)
Definition call_in_range (c : store_call) : Prop :=
  match c with
  | Enqueue job => datetimes_in_range job
  | AcquireJob _ now _ => in_range now = true
  | UpdateJob job now =>
      in_range now = true
      /\ forall n, Job.next_retry_at job = Some n -> in_range n = true
  | DeleteJob _ => True
  | ClearLocks _ _ => True
  end.

(** Two submissions, the dead job of S5 first. *)
Definition calls_s5 : list store_call := [Enqueue job_dead; Enqueue job_pending].

(** "job-b" is enqueued as it stands after one failure, and "job-p". *)
Definition job_b_failed_once : Job.t :=
  {| Job.id := "job-b"; Job.command := "make report"; Job.state := FAILED;
     Job.attempts := 1; Job.max_retries := 5;
     Job.created_at := 1704110400000000;
     Job.updated_at := 1704110401250000;
     Job.next_retry_at := Some 1704110403250000;
     Job.error_message := Some "Exit code 1" |}.

Definition calls_b_p : list store_call :=
  [Enqueue job_b_failed_once; Enqueue job_pending].

Definition row_p_leased : Row.t :=
  {| Row.id := "job-p"; Row.command := "echo hello"; Row.state := PROCESSING;
     Row.attempts := 0; Row.max_retries := 3;
     Row.created_at := "2024-01-01T11:30:00";
     Row.updated_at := "2024-01-01T11:30:00";
     Row.next_retry_at := None;
     Row.error_message := None;
     Row.locked_by := Some "worker-1";
     Row.locked_at := Some "2024-01-01T12:00:10" |}.

Definition job_p_acquired : Job.t :=
  {| Job.id := "job-p"; Job.command := "echo hello"; Job.state := PROCESSING;
     Job.attempts := 0; Job.max_retries := 3;
     Job.created_at := 1704108600000000;
     Job.updated_at := 1704108600000000;
     Job.next_retry_at := None;
     Job.error_message := None |}.

(** [Worker._cleanup], which [start] runs when its loop ends, also when
    [_process_next_job] raised: the worker's leases are given back. *)
Definition _cleanup (worker_id : string) (sql_now : datetime) (s : store) : store :=
  clear_locks (Some worker_id) sql_now s.

(** A job that is allowed two attempts, as it is enqueued. *)
Definition row_two_tries : Row.t :=
  {| Row.id := "job-t"; Row.command := "exit 1"; Row.state := PENDING;
     Row.attempts := 0; Row.max_retries := 2;
     Row.created_at := "2024-01-01T11:30:00";
     Row.updated_at := "2024-01-01T11:30:00";
     Row.next_retry_at := None;
     Row.error_message := None;
     Row.locked_by := None; Row.locked_at := None |}.


(** A [backoff_base] of 10^12, as [config set backoff_base 1000000000000]
    stores it: already the first delay leaves the range of [datetime]. *)
Definition backoff_base_huge : Z := 1000000000000.

(** Rows as [enqueue] stores them for jobs that [Job.from_dict] built from
    timestamps with a UTC offset: "job-o" from [{"id": "job-o", "command":
    "exit 1", "state": "failed", "attempts": 1, "created_at":
    "2024-01-01T11:00:00", "updated_at": "2024-01-01T11:00:00",
    "next_retry_at": "2024-01-01T12:00:00-08:00"}], whose retry instant is
    20:00 UTC, and "job-z" from a [created_at] of
    "2024-01-01T12:00:00+05:00", which is 07:00 UTC. *)
Definition row_offset_retry : Row.t :=
  {| Row.id := "job-o"; Row.command := "exit 1"; Row.state := FAILED;
     Row.attempts := 1; Row.max_retries := 3;
     Row.created_at := "2024-01-01T11:00:00";
     Row.updated_at := "2024-01-01T11:00:00";
     Row.next_retry_at := Some "2024-01-01T12:00:00-08:00";
     Row.error_message := None;
     Row.locked_by := None; Row.locked_at := None |}.

Definition row_offset_created : Row.t :=
  {| Row.id := "job-z"; Row.command := "echo hello"; Row.state := PENDING;
     Row.attempts := 0; Row.max_retries := 3;
     Row.created_at := "2024-01-01T12:00:00+05:00";
     Row.updated_at := "2024-01-01T12:00:00+05:00";
     Row.next_retry_at := None;
     Row.error_message := None;
     Row.locked_by := None; Row.locked_at := None |}.

(** 13:00:00 on that day. *)
Definition t_13_00_00 : datetime := 1704114000000000.



(** ** [storage.py]: [list_jobs] *)

(** [ORDER BY created_at DESC]: the greatest text first.  Rows with equal
    texts stay in the order in which the scan delivers them (SQL leaves
    that open; SQLite's sorter keeps it). *)
Fixpoint insert_desc (r : Row.t) (l : list Row.t) : list Row.t :=
  match l with
  | [] => [r]
  | m :: l' =>
      if String.leb (Row.created_at m) (Row.created_at r)
      then r :: m :: l'
      else m :: insert_desc r l'
  end.

Definition order_by_created_at_desc (l : list Row.t) : list Row.t :=
  foldr insert_desc [] l.

(** SQLite's integers.  A LIMIT outside them is refused by SQLite
    ("datatype mismatch"); [limit_rows] below is the LIMIT for the limits
    that fit. *)
Definition sqlite_integer (n : Z) : Prop := - 2 ^ 63 <= n < 2 ^ 63.

Definition limit_fits (limit : option Z) : Prop :=
  forall n, limit = Some n -> sqlite_integer n.

(** A job whose counters SQLite can hold: the [sqlite3] module refuses to
    bind any other integer ([OverflowError], see [binds]). *)
Definition counts_fit (job : Job.t) : Prop :=
  sqlite_integer (Job.attempts job) /\ sqlite_integer (Job.max_retries job).

(** The LIMIT that [list_jobs] appends: [if limit:] appends none for [None]
    and for 0, and SQLite reads a negative LIMIT as no limit. *)
Definition limit_rows (limit : option Z) (l : list Row.t) : list Row.t :=
  match limit with
  | None => l
  | Some n => if n <=? 0 then l else firstn (Z.to_nat n) l
  end.

(** [[self._row_to_job(row) for row in rows]]: the first row that cannot be
    read ends the comprehension with its error. *)
Fixpoint rows_to_jobs (rows : list Row.t) : result (list Job.t) :=
  match rows with
  | [] => Ok []
  | r :: rest =>
      match _row_to_job r with
      | Ok job => result_map (cons job) (rows_to_jobs rest)
      | Raise e => Raise e
      end
  end.

(** The rows of the SELECT of [list_jobs] before they are sorted: [if
    state:] holds for every [JobState] (its values are non-empty strings),
    and the scan delivers the rows in rowid order. *)
Definition rows_in_state (state : option JobState) (s : store) : list Row.t :=
  match state with
  | Some st => List.filter (fun r => bool_decide (Row.state r = st)) s
  | None => s
  end.

(** [JobStore.list_jobs]. *)
Definition list_jobs (state : option JobState) (limit : option Z) (s : store)
  : result (list Job.t) :=
  rows_to_jobs (limit_rows limit (order_by_created_at_desc (rows_in_state state s))).

(** ** [cli.py]: [dlq clear] and [status] *)

(** The loop of [dlq clear]: every job is deleted by its id, and counted
    when [delete_job] answers [True]. *)
Definition delete_counting (acc : store * Z) (job : Job.t) : store * Z :=
  let '(s', deleted) := delete_job (Job.id job) acc.1 in
  (s', if deleted then acc.2 + 1 else acc.2).

Definition delete_each (jobs : list Job.t) (s : store) : store * Z :=
  fold_left delete_counting jobs (s, 0).

(** [dlq clear], once confirmed: the count of "[OK] Cleared ... job(s)", or
    the error of "Error clearing DLQ: ...". *)
Definition clear (s : store) : store * result Z :=
  match list_jobs (Some DEAD) None s with
  | Ok jobs => let '(s', count) := delete_each jobs s in (s', Ok count)
  | Raise e => (s, Raise e)
  end.

(** [str.upper()] on the ASCII letters. *)
Definition upper_ascii (c : ascii) : ascii :=
  let n := nat_of_ascii c in
  if (97 <=? n)%nat && (n <=? 122)%nat then ascii_of_nat (n - 32) else c.

Fixpoint upper (s : string) : string :=
  match s with
  | EmptyString => EmptyString
  | String c s' => String (upper_ascii c) (upper s')
  end.

(** [for state in JobState]: the members in the order of their definition. *)
Definition all_states : list JobState := [PENDING; PROCESSING; COMPLETED; FAILED; DEAD].

(** The table of [status]: [[state.value.upper(), stats.get(state.value, 0)]]
    for every state. *)
Definition status_table (s : store) : list (string * Z) :=
  map (fun st => (upper (value st), default 0 (get_stats s !! value st))) all_states.

(** Rows with the greatest [created_at] text first. *)
Fixpoint desc_by_text (rows : list Row.t) : Prop :=
  match rows with
  | [] => True
  | r :: rest =>
      Forall (fun r' => String.leb (Row.created_at r') (Row.created_at r) = true) rest
      /\ desc_by_text rest
  end.

(** Jobs with the newest first. *)
Fixpoint newest_first (jobs : list Job.t) : Prop :=
  match jobs with
  | [] => True
  | job :: rest =>
      Forall (fun job' => Job.created_at job' <= Job.created_at job) rest
      /\ newest_first rest
  end.


(** A row and the job it is read as, with the instant its [created_at]
    text stands for. *)
Definition read_as (r : Row.t) (job : Job.t) : Prop :=
  _row_to_job r = Ok job
  /\ in_range (Job.created_at job) = true
  /\ Row.created_at r = isoformat (Job.created_at job).

(** ** [config.py]: [ConfigManager] *)

Module ConfigManager.

(** A value of the configuration: an integer or a string, as [config set]
    stores them, or any other JSON value, kept as its text. *)
Inductive setting :=
| VInt (n : Z)
| VStr (s : string)
| VJson (text : string).

(** What [_load_config] finds at [config_path]: no file; a file that
    cannot be opened or whose text is not JSON; a file that is not text;
    JSON that is not an object; or an object, given as the dict that
    [json.load] returns for it (which is also the dict that [json.dump]
    wrote). *)
Inductive config_file :=
| Missing
| Unparsable
| NotText
| NotAnObject
| Object (m : gmap string setting).

Definition DEFAULT_CONFIG : gmap string setting :=
  <["max_retries" := VInt 3]>
    (<["backoff_base" := VInt 2]> (<["db_path" := VStr "queuectl.db"]> ∅)).

(** [_load_config]: [{**DEFAULT_CONFIG, **config}] takes the file's value
    for a key that both have.  Only [JSONDecodeError] and [IOError] are
    caught: the [UnicodeDecodeError] (a [ValueError]) of a file that is not
    text, and the [TypeError] of merging a JSON value that is no mapping,
    leave the constructor. *)
Definition _load_config (file : config_file) : result (gmap string setting) :=
  match file with
  | Missing => Ok DEFAULT_CONFIG
  | Unparsable => Ok DEFAULT_CONFIG
  | NotText => Raise ValueError
  | NotAnObject => Raise TypeError
  | Object m => Ok (m ∪ DEFAULT_CONFIG)
  end.

(** [get(key, default)]; [None] is Python's [None]. *)
Definition get (config : gmap string setting) (key : string)
    (default : option setting) : option setting :=
  match config !! key with
  | Some v => Some v
  | None => default
  end.

(** [set(key, value)] with [_save_config]: the manager's dict and the file
    it leaves. *)
Definition set (config : gmap string setting) (key : string) (v : setting)
  : gmap string setting * config_file :=
  (<[key := v]> config, Object (<[key := v]> config)).

(** [reset()]. *)
Definition reset : gmap string setting * config_file :=
  (DEFAULT_CONFIG, Object DEFAULT_CONFIG).

(** A file in which only the backoff base is set. *)
Definition file_backoff_3 : config_file := Object {["backoff_base" := VInt 3]}.

End ConfigManager.

(** Two calls through one [JobStore] object, one after the other, on the
    table that holds "b" and "a": where the run ends. *)
Definition shared_run_end : store * call * call :=
  Eval vm_compute in
    default ([], call_shared_1, call_shared_2)
      (run [false; false; true; true] store_tie call_shared_1 call_shared_2).

(** * Properties *)

(** ** The text renderings, on examples *)

Example isoformat_noon : isoformat 1704110400000000 = "2024-01-01T12:00:00".
Proof. vm_compute. reflexivity. Qed.

Example isoformat_microseconds :
  isoformat 1704110400000005 = "2024-01-01T12:00:00.000005".
Proof. vm_compute. reflexivity. Qed.

Example isoformat_min : isoformat dt_min = "0001-01-01T00:00:00".
Proof. vm_compute. reflexivity. Qed.

Example isoformat_max : isoformat dt_max = "9999-12-31T23:59:59.999999".
Proof. vm_compute. reflexivity. Qed.

Example sqlite_threshold :
  sqlite_now_minus_5_minutes 1704111000000123 = "2024-01-01 12:05:00".
Proof. vm_compute. reflexivity. Qed.

Example fromisoformat_microseconds :
  fromisoformat "2024-01-01T12:00:00.000005" = Some 1704110400000005.
Proof. vm_compute. reflexivity. Qed.

Example fromisoformat_no_such_day : fromisoformat "2024-02-30T12:00:00" = None.
Proof. vm_compute. reflexivity. Qed.

(** ** Reading back what [isoformat] writes *)

Lemma digit_val_digit n : digit_val (digit n) = Some (n mod 10).
Proof.
  unfold digit.
  assert (H : 0 <= n mod 10 < 10) by (apply Z.mod_pos_bound; lia).
  assert (E : n mod 10 = 0 \/ n mod 10 = 1 \/ n mod 10 = 2 \/ n mod 10 = 3
              \/ n mod 10 = 4 \/ n mod 10 = 5 \/ n mod 10 = 6 \/ n mod 10 = 7
              \/ n mod 10 = 8 \/ n mod 10 = 9) by lia.
  destruct E as [-> | [-> | [-> | [-> | [-> | [-> | [-> | [-> | [-> | ->]]]]]]]]];
    reflexivity.
Qed.

Lemma read_digits_pad w j n rest a :
  read_digits (w + j) (pad w n rest) a
  = read_digits j rest (a * 10 ^ Z.of_nat w + n mod 10 ^ Z.of_nat w).
Proof.
  revert j n rest a. induction w as [|w IH]; intros j n rest a.
  - simpl. rewrite Z.mod_1_r. f_equal. lia.
  - replace (S w + j)%nat with (w + S j)%nat by lia.
    cbn [pad]. rewrite IH. cbn [read_digits]. rewrite digit_val_digit.
    f_equal. rewrite Nat2Z.inj_succ, Z.pow_succ_r by lia.
    rewrite (Z.rem_mul_r n 10 (10 ^ Z.of_nat w)) by lia. lia.
Qed.

Lemma read_pad w n rest :
  0 <= n < 10 ^ Z.of_nat w ->
  read_digits w (pad w n rest) 0 = Some (n, rest).
Proof.
  intros H. replace w with (w + 0)%nat at 1 by lia.
  rewrite read_digits_pad. simpl. rewrite Z.mod_small by assumption. reflexivity.
Qed.

Lemma pad_append w n acc rest : pad w n acc +:+ rest = pad w n (acc +:+ rest).
Proof.
  revert n acc. induction w as [|w IH]; intros n acc; simpl; [reflexivity|].
  now rewrite IH.
Qed.

(** The year of the era and the day of that year (eras of 400 years and
    years that begin with March, as [civil_from_days] counts them). *)
Lemma year_of_era_bounds doe :
  0 <= doe < 146097 ->
  let yoe := (doe - doe / 1460 + doe / 36524 - doe / 146096) / 365 in
  let doy := doe - (365 * yoe + yoe / 4 - yoe / 100) in
  0 <= yoe <= 399 /\ 0 <= doy <= 365
  /\ (doy = 365 -> (yoe + 1) mod 4 = 0
                   /\ ((yoe + 1) mod 100 <> 0 \/ yoe + 1 = 400)).
Proof.
  intros H yoe doy. subst yoe doy.
  Z.to_euclidean_division_equations. lia.
Qed.

Lemma is_leap_era y e : is_leap (y + e * 400) = is_leap y.
Proof.
  unfold is_leap.
  replace (y + e * 400) with (y + (e * 100) * 4) at 1 by ring.
  replace (y + e * 400) with (y + (e * 4) * 100) at 1 by ring.
  rewrite !Z.mod_add by lia. reflexivity.
Qed.

Lemma days_in_month_spec y m :
  (m = 2 /\ days_in_month y m = if is_leap y then 29 else 28)
  \/ ((m = 4 \/ m = 6 \/ m = 9 \/ m = 11) /\ days_in_month y m = 30)
  \/ (m <> 2 /\ m <> 4 /\ m <> 6 /\ m <> 9 /\ m <> 11 /\ days_in_month y m = 31).
Proof.
  unfold days_in_month.
  destruct (Z.eqb_spec m 2); [left; auto|].
  destruct (Z.eqb_spec m 4); [right; left; auto|].
  destruct (Z.eqb_spec m 6); [right; left; auto|].
  destruct (Z.eqb_spec m 9); [right; left; auto|].
  destruct (Z.eqb_spec m 11); [right; left; auto|].
  right; right. auto 10.
Qed.

(** The month and the day of a day of the year. *)
Lemma month_of_year_bounds doy (Y : Z) :
  0 <= doy <= 365 ->
  (doy = 365 -> is_leap Y = true) ->
  let mp := (5 * doy + 2) / 153 in
  let d := doy - (153 * mp + 2) / 5 + 1 in
  let m := if mp <? 10 then mp + 3 else mp - 9 in
  1 <= m <= 12 /\ 1 <= d <= days_in_month Y m
  /\ (if 2 <? m then m - 3 else m + 9) = mp.
Proof.
  intros H Hleap mp d m.
  assert (Hmp : 0 <= mp <= 11) by (subst mp; Z.to_euclidean_division_equations; lia).
  assert (Hm : (mp < 10 /\ m = mp + 3) \/ (10 <= mp /\ m = mp - 9)).
  { subst m. destruct (Z.ltb_spec mp 10); lia. }
  assert (Hd : d = doy - (153 * mp + 2) / 5 + 1) by reflexivity.
  assert (Hq : mp = (5 * doy + 2) / 153) by reflexivity.
  clearbody mp d m.
  split; [lia|]. split.
  - assert (Hlast : doy = 365 -> days_in_month Y m = 29).
    { intros E. destruct (days_in_month_spec Y m) as [[_ ->]|[[? _]|(? & _)]].
      - now rewrite (Hleap E).
      - exfalso. Z.to_euclidean_division_equations. lia.
      - exfalso. Z.to_euclidean_division_equations. lia. }
    assert (Hfeb : m = 2 -> 28 <= days_in_month Y m).
    { intros E. destruct (days_in_month_spec Y m) as [[_ ->]|[[? _]|(? & _)]];
        [destruct (is_leap Y); lia | lia | lia]. }
    destruct (days_in_month_spec Y m) as [[E _]|[[E ->]|(? & ? & ? & ? & ? & ->)]].
    + specialize (Hfeb E). clear Hleap.
      Z.to_euclidean_division_equations. lia.
    + clear Hleap Hlast Hfeb. Z.to_euclidean_division_equations. lia.
    + clear Hleap Hlast Hfeb. Z.to_euclidean_division_equations. lia.
  - destruct (Z.ltb_spec 2 m); lia.
Qed.

(** Every day from 0001-01-01 to 9999-12-31 has a civil date that
    [days_from_civil] takes back to it. *)
Lemma civil_from_days_inverse z :
  -719162 <= z <= 2932896 ->
  exists y m d,
    civil_from_days z = (y, m, d)
    /\ 1 <= y <= 9999 /\ 1 <= m <= 12 /\ 1 <= d <= days_in_month y m
    /\ days_from_civil y m d = z.
Proof.
  intros Hz. unfold civil_from_days. cbv zeta.
  set (era := (z + 719468) / 146097).
  set (doe := z + 719468 - era * 146097).
  assert (Hera : 0 <= era <= 24)
    by (subst era; Z.to_euclidean_division_equations; lia).
  assert (Hdoe : 0 <= doe < 146097)
    by (subst doe era; Z.to_euclidean_division_equations; lia).
  assert (Hfirst : era = 0 -> 306 <= doe) by (subst doe; lia).
  assert (Hlast : era = 24 -> doe <= 146036) by (subst doe; lia).
  assert (Hz' : z = era * 146097 + doe - 719468) by (subst doe; lia).
  clearbody doe era.
  pose proof (year_of_era_bounds doe Hdoe) as H. cbv zeta in H.
  set (yoe := (doe - doe / 1460 + doe / 36524 - doe / 146096) / 365) in *.
  set (doy := doe - (365 * yoe + yoe / 4 - yoe / 100)) in *.
  destruct H as (Hyoe & Hdoy & Hleap).
  assert (Hdoe' : doe = yoe * 365 + yoe / 4 - yoe / 100 + doy) by (subst doy; lia).
  assert (Hy0 : era = 0 -> yoe = 0 -> 306 <= doy)
    by (intros E1 E2; subst doy; rewrite E2; specialize (Hfirst E1);
        change (0 / 4) with 0; change (0 / 100) with 0; lia).
  assert (Hy399 : era = 24 -> yoe = 399 -> doy <= 305)
    by (intros E1 E2; subst doy; rewrite E2; specialize (Hlast E1);
        change (399 / 4) with 99; change (399 / 100) with 3; lia).
  clearbody doy yoe.
  set (mp := (5 * doy + 2) / 153).
  set (m := if mp <? 10 then mp + 3 else mp - 9).
  set (Y := if m <=? 2 then yoe + era * 400 + 1 else yoe + era * 400).
  assert (Hmp : (doy = 365 -> m = 2) /\ (306 <= doy -> m <= 2)
                /\ (doy <= 305 -> 2 < m)).
  { subst m. destruct (Z.ltb_spec mp 10); subst mp;
      Z.to_euclidean_division_equations; lia. }
  assert (HleapY : doy = 365 -> is_leap Y = true).
  { intros E. destruct Hmp as (Hm2 & _). specialize (Hm2 E).
    destruct (Hleap E) as [H4 H100]. subst Y. rewrite Hm2. cbn [Z.leb Z.compare Pos.compare Pos.compare_cont].
    replace (yoe + era * 400 + 1) with (yoe + 1 + era * 400) by ring.
    rewrite is_leap_era. unfold is_leap. rewrite H4. cbn [Z.eqb andb].
    destruct H100 as [H|H].
    - destruct (Z.eqb_spec ((yoe + 1) mod 100) 0); [contradiction | reflexivity].
    - rewrite H. reflexivity. }
  pose proof (month_of_year_bounds doy Y Hdoy HleapY) as H. cbv zeta in H.
  fold mp in H. fold m in H.
  destruct H as (Hm & Hd & Hback).
  exists Y, m, (doy - (153 * mp + 2) / 5 + 1).
  split; [reflexivity|]. split.
  { subst Y. destruct (Z.leb_spec m 2); lia. }
  split; [assumption|]. split; [assumption|].
  unfold days_from_civil. cbv zeta. rewrite Hback.
  assert (HY : (if m <=? 2 then Y - 1 else Y) = yoe + era * 400).
  { subst Y. destruct (m <=? 2); ring. }
  rewrite HY, Z.div_add, (Z.div_small yoe 400) by lia.
  replace (yoe + era * 400 - (0 + era) * 400) with yoe by ring.
  set (q := (153 * mp + 2) / 5) in *. lia.
Qed.

Lemma append_String c s rest : String c s +:+ rest = String c (s +:+ rest).
Proof. reflexivity. Qed.

Lemma append_empty rest : "" +:+ rest = rest.
Proof. reflexivity. Qed.

Lemma expect_same c s : expect c (String c s) = Some s.
Proof. unfold expect. now rewrite Ascii.eqb_refl. Qed.

Ltac parse_step :=
  first [ rewrite read_pad by (simpl; lia)
        | rewrite expect_same
        | progress cbv beta iota zeta delta [mbind option_bind skip1] ].

(** [fromisoformat] undoes [isoformat] on every [datetime]. *)
Lemma fromisoformat_isoformat t :
  in_range t = true -> fromisoformat (isoformat t) = Some t.
Proof.
  unfold in_range, dt_min, dt_max. rewrite andb_true_iff, !Z.leb_le. intros Ht.
  unfold isoformat, date_text, time_text.
  set (days := t / us_per_day).
  set (rest := t mod us_per_day).
  set (secs := rest / us_per_second).
  set (us := rest mod us_per_second).
  assert (Hrest : 0 <= rest < 86400000000)
    by (apply (Z.mod_pos_bound t 86400000000); lia).
  assert (Hdays : -719162 <= days <= 2932896).
  { unfold days, us_per_day, us_per_second. split.
    - apply Z.div_le_lower_bound; lia.
    - apply Z.lt_succ_r, Z.div_lt_upper_bound; lia. }
  assert (Hsecs : 0 <= secs < 86400).
  { unfold secs, us_per_second. split.
    - apply Z.div_pos; lia.
    - apply Z.div_lt_upper_bound; lia. }
  assert (Hus : 0 <= us < 1000000)
    by (apply (Z.mod_pos_bound rest 1000000); lia).
  assert (Ht' : t = days * us_per_day + (secs * us_per_second + us)).
  { unfold days, secs, us, rest, us_per_day, us_per_second.
    pose proof (Z.div_mod t (86400 * 1000000) ltac:(lia)).
    pose proof (Z.div_mod (t mod (86400 * 1000000)) 1000000 ltac:(lia)). lia. }
  destruct (civil_from_days_inverse days Hdays)
    as (y & m & d & -> & Hy & Hm & Hd & Hback).
  set (hh := secs / 3600). set (mm := secs / 60 mod 60). set (ss := secs mod 60).
  assert (Hhh : 0 <= hh < 24).
  { unfold hh. split; [apply Z.div_pos; lia | apply Z.div_lt_upper_bound; lia]. }
  assert (Hmm : 0 <= mm < 60) by (apply Z.mod_pos_bound; lia).
  assert (Hss : 0 <= ss < 60) by (apply Z.mod_pos_bound; lia).
  assert (Hhms : (hh * 60 + mm) * 60 + ss = secs).
  { unfold hh, mm, ss.
    pose proof (Z.div_mod secs 60 ltac:(lia)).
    pose proof (Z.div_mod (secs / 60) 60 ltac:(lia)).
    rewrite Z.div_div in H0 by lia. change (60 * 60) with 3600 in H0. lia. }
  assert (Hlim : d <= 31).
  { unfold days_in_month in Hd.
    destruct (m =? 2); [destruct (is_leap y)|destruct (_ || _)]; lia. }
  assert (Hvalid :
            (1 <=? y) && (1 <=? m) && (m <=? 12) && (1 <=? d)
            && (d <=? days_in_month y m) && (hh <? 24) && (mm <? 60) && (ss <? 60)
            = true).
  { rewrite !andb_true_iff, !Z.leb_le, !Z.ltb_lt. lia. }
  unfold fromisoformat.
  destruct (Z.eqb_spec us 0) as [E|E].
  - repeat first [rewrite pad_append | rewrite append_String | rewrite append_empty].
    repeat parse_step.
    rewrite Hvalid, Hback, Hhms. cbn [andb]. f_equal. lia.
  - repeat first [rewrite pad_append | rewrite append_String | rewrite append_empty].
    repeat parse_step.
    rewrite Hvalid, Hback, Hhms. cbn [andb]. f_equal. lia.
Qed.

(** ** Rows and ids *)

Lemma has_id_true k r : has_id k r = true <-> Row.id r = k.
Proof. unfold has_id. apply bool_decide_eq_true. Qed.

Lemma has_id_false k r : has_id k r = false <-> Row.id r <> k.
Proof. unfold has_id. apply bool_decide_eq_false. Qed.

Lemma existsb_has_id k (s : store) :
  existsb (has_id k) s = true <-> exists r, In r s /\ Row.id r = k.
Proof.
  rewrite existsb_exists. split; intros (r & Hin & H); exists r; split; auto;
    now apply has_id_true.
Qed.

Lemma select_by_id_Some k (s : store) r :
  select_by_id k s = Some r -> In r s /\ Row.id r = k.
Proof.
  unfold select_by_id. intros H. apply find_some in H as [Hin Hid].
  split; [assumption | now apply has_id_true].
Qed.

Lemma select_by_id_None k (s : store) :
  select_by_id k s = None <-> forall r, In r s -> Row.id r <> k.
Proof.
  unfold select_by_id. split.
  - intros H r Hin. apply has_id_false. eapply find_none; eauto.
  - induction s as [|r s IH]; simpl; intros H; [reflexivity|].
    destruct (has_id k r) eqn:E.
    + apply has_id_true in E. exfalso. apply (H r); auto.
    + apply IH. intros r' Hin. apply H. now right.
Qed.

Lemma select_by_id_existsb k (s : store) :
  existsb (has_id k) s = true <-> exists r, select_by_id k s = Some r.
Proof.
  split.
  - intros H. destruct (select_by_id k s) as [r|] eqn:E; [eauto|].
    apply existsb_has_id in H as (r & Hin & Hid).
    rewrite select_by_id_None in E. now destruct (E r Hin).
  - intros (r & H). apply existsb_has_id. exists r. now apply select_by_id_Some.
Qed.

(** An UPDATE that keeps the ids rewrites the row that a lookup finds. *)
Lemma select_by_id_update_where k p f (s : store) :
  (forall r, Row.id (f r) = Row.id r) ->
  select_by_id k (update_where p f s)
  = (fun r => if p r then f r else r) <$> select_by_id k s.
Proof.
  intros Hf. unfold select_by_id, update_where.
  induction s as [|r s IH]; simpl; [reflexivity|].
  assert (E : has_id k (if p r then f r else r) = has_id k r).
  { unfold has_id. destruct (p r); [rewrite Hf|]; reflexivity. }
  rewrite E. destruct (has_id k r); [reflexivity | exact IH].
Qed.

Lemma update_where_other k k' f (s : store) :
  (forall r, Row.id (f r) = Row.id r) ->
  k' <> k ->
  select_by_id k' (update_where (has_id k) f s) = select_by_id k' s.
Proof.
  intros Hf Hne. rewrite select_by_id_update_where by assumption.
  destruct (select_by_id k' s) as [r|] eqn:E; simpl; [|reflexivity].
  apply select_by_id_Some in E as [_ Hid].
  assert (H : has_id k r = false) by (apply has_id_false; congruence).
  now rewrite H.
Qed.

Lemma lock_row_id w t r : Row.id (lock_row w t r) = Row.id r.
Proof. reflexivity. Qed.

Lemma write_job_id job t r : Row.id (write_job job t r) = Row.id r.
Proof. reflexivity. Qed.

Lemma unlock_row_id r : Row.id (unlock_row r) = Row.id r.
Proof. reflexivity. Qed.

(** [_row_to_job] copies the id, the command, the state, the counters and
    the error message. *)
Lemma _row_to_job_fields r job :
  _row_to_job r = Ok job ->
  Job.id job = Row.id r /\ Job.command job = Row.command r
  /\ Job.state job = Row.state r /\ Job.attempts job = Row.attempts r
  /\ Job.max_retries job = Row.max_retries r
  /\ Job.error_message job = Row.error_message r.
Proof.
  unfold _row_to_job.
  destruct (fromisoformat (Row.created_at r)); [|discriminate].
  destruct (fromisoformat (Row.updated_at r)); [|discriminate].
  destruct (Row.next_retry_at r) as [[|c txt]|].
  - intros [= <-]. repeat split.
  - destruct (fromisoformat (String c txt)); [|discriminate].
    intros [= <-]. repeat split.
  - intros [= <-]. repeat split.
Qed.

(** A job written by [enqueue] reads back as the job it was (the
    round trip of the data model), for timestamps a [datetime] can hold. *)
Lemma _row_to_job_row_of_job job :
  in_range (Job.created_at job) = true ->
  in_range (Job.updated_at job) = true ->
  (forall n, Job.next_retry_at job = Some n -> in_range n = true) ->
  _row_to_job (row_of_job job) = Ok job.
Proof.
  destruct job as [i c st a m ca ua nr e]. cbn [Job.created_at Job.updated_at
    Job.next_retry_at]. intros Hc Hu Hn.
  unfold _row_to_job, row_of_job. cbn [Row.created_at Row.updated_at
    Row.next_retry_at Row.id Row.command Row.state Row.attempts
    Row.max_retries Row.error_message Job.id Job.command Job.state
    Job.attempts Job.max_retries Job.created_at Job.updated_at
    Job.next_retry_at Job.error_message].
  rewrite (fromisoformat_isoformat _ Hc), (fromisoformat_isoformat _ Hu).
  destruct nr as [n|]; [|reflexivity]. cbn [fmap option_fmap option_map].
  pose proof (fromisoformat_isoformat n (Hn n eq_refl)) as Hrt.
  destruct (isoformat n) as [|ch txt]; [discriminate Hrt|].
  now rewrite Hrt.
Qed.

(** ** C8: a second admission under an existing id *)

(** C8, as amended.  For every store and every job whose id already has a
    row, the store [enqueue] leaves is the store it found: no row is added,
    none is changed.  [enqueue] answers [False] when the job's [attempts]
    and [max_retries] are 64-bit integers; for any other job it does not
    answer: it raises the [OverflowError] of [sqlite3], which it does not
    catch. *)
Theorem enqueue_existing_id (s : store) (job : Job.t) :
  (exists r, In r s /\ Row.id r = Job.id job) ->
  enqueue job s
  = (s, if binds (Job.attempts job) && binds (Job.max_retries job)
        then Ok false
        else Raise (OverflowError SqliteInteger)).
Proof.
  intros H. unfold enqueue.
  apply existsb_has_id in H. rewrite H.
  now destruct (binds (Job.attempts job) && binds (Job.max_retries job)).
Qed.

Lemma enqueue_existing_id_witness :
  (exists r, In r (enqueue job_dup_x []).1 /\ Row.id r = Job.id job_dup_y)
  /\ enqueue job_dup_y (enqueue job_dup_x []).1
     = ((enqueue job_dup_x []).1,
        if binds (Job.attempts job_dup_y) && binds (Job.max_retries job_dup_y)
        then Ok false
        else Raise (OverflowError SqliteInteger)).
Proof.
  assert (H : exists r, In r (enqueue job_dup_x []).1 /\ Row.id r = Job.id job_dup_y).
  { exists (row_of_job job_dup_x). split; [left; reflexivity | reflexivity]. }
  split; [exact H | exact (enqueue_existing_id _ job_dup_y H)].
Defined.

(** C8 as the specification words it, for every job: "dup" is taken, and a
    job submitted under it with 2^63 attempts is not answered with [False];
    the call raises.  The table stays as it was. *)
Lemma enqueue_overflow_counterexample :
  let s := (enqueue job_dup_x []).1 in
  (exists r, In r s /\ Row.id r = Job.id job_dup_big)
  /\ Job.attempts job_dup_big = 9223372036854775808
  /\ enqueue job_dup_big s <> (s, Ok false)
  /\ enqueue job_dup_big s = (s, Raise (OverflowError SqliteInteger)).
Proof.
  cbv zeta. split.
  - exists (row_of_job job_dup_x). split; [left; reflexivity | reflexivity].
  - split; [reflexivity|]. split; [|vm_compute; reflexivity].
    vm_compute. discriminate.
Qed.

(** Scenario S4: the row under "dup" still carries the first command. *)
Example duplicate_id_keeps_command :
  let s1 := (enqueue job_dup_x []).1 in
  let '(s2, answer) := enqueue job_dup_y s1 in
  answer = Ok false /\ Row.command <$> select_by_id "dup" s2 = Some "x".
Proof. vm_compute. split; reflexivity. Qed.

(** ** The SELECT of [acquire_job] *)

Lemma limit_1_In l r : order_by_created_at_limit_1 l = Some r -> In r l.
Proof.
  revert r. induction l as [|a l IH]; simpl; intros r; [discriminate|].
  destruct (order_by_created_at_limit_1 l) as [m|].
  - destruct (String.leb _ _); intros [= <-]; auto.
  - intros [= <-]. auto.
Qed.

Lemma limit_1_None l : order_by_created_at_limit_1 l = None <-> l = [].
Proof.
  destruct l as [|a l]; simpl; [tauto|].
  split; [|discriminate].
  destruct (order_by_created_at_limit_1 l); [destruct (String.leb _ _)|]; discriminate.
Qed.

Lemma scan_In now thr (s : store) r :
  In r (scan now thr s) <-> In r s /\ where_clause now thr r = true.
Proof.
  unfold scan, where_clause. rewrite in_app_iff, !filter_In, orb_true_iff. tauto.
Qed.

Lemma acquire_select_In now sql s r :
  acquire_select now sql s = Some r ->
  In r s /\ where_clause (isoformat now) (sqlite_now_minus_5_minutes sql) r = true.
Proof. intros H. apply limit_1_In in H. now apply scan_In. Qed.

Lemma acquire_job_store w now sql s r :
  acquire_select now sql s = Some r ->
  (acquire_job w now sql s).1
  = update_where (has_id (Row.id r)) (lock_row w (isoformat now)) s.
Proof. intros H. unfold acquire_job. rewrite H. reflexivity. Qed.

Lemma primary_key_select (s : store) r :
  primary_key s -> In r s -> select_by_id (Row.id r) s = Some r.
Proof.
  unfold primary_key, select_by_id.
  induction s as [|a s IH]; simpl; intros Hnd Hin; [contradiction|].
  apply NoDup_cons in Hnd as [Hna Hnd].
  destruct (has_id (Row.id r) a) eqn:E.
  - destruct Hin as [->|Hin]; [reflexivity|].
    apply has_id_true in E. exfalso. apply Hna.
    rewrite E. apply list_elem_of_fmap. exists r. split; [reflexivity|].
    now apply list_elem_of_In.
  - destruct Hin as [->|Hin]; [|now apply IH].
    apply has_id_false in E. congruence.
Qed.

(** What a successful [acquire_job] returns is the selected row, read
    back with the lease on it. *)
Lemma acquire_job_returns w now sql s s' job :
  primary_key s ->
  acquire_job w now sql s = (s', Ok (Some job)) ->
  exists r, acquire_select now sql s = Some r
    /\ s' = update_where (has_id (Row.id r)) (lock_row w (isoformat now)) s
    /\ select_by_id (Row.id r) s' = Some (lock_row w (isoformat now) r)
    /\ _row_to_job (lock_row w (isoformat now) r) = Ok job.
Proof.
  intros Hpk. unfold acquire_job.
  destruct (acquire_select now sql s) as [r|] eqn:Hsel; [|discriminate].
  unfold acquire_lock.
  set (s1 := update_where _ _ s).
  assert (Hr : select_by_id (Row.id r) s1 = Some (lock_row w (isoformat now) r)).
  { unfold s1. rewrite select_by_id_update_where by apply lock_row_id.
    apply acquire_select_In in Hsel as [Hin _].
    rewrite (primary_key_select s r Hpk Hin). simpl.
    assert (E : has_id (Row.id r) r = true) by now apply has_id_true.
    now rewrite E. }
  rewrite Hr. intros [= <- Hj]. exists r. repeat split; auto.
  destruct (_row_to_job (lock_row w (isoformat now) r)); simpl in Hj; congruence.
Qed.

(** ** C4: what [acquire_job] writes *)

Lemma lock_row_leased w t r : leased w t r (lock_row w t r).
Proof. repeat split. Qed.

Lemma lock_rows_leased k w t (s : store) :
  Forall2 (fun r r' => if has_id k r then leased w t r r' else r' = r)
          s (update_where (has_id k) (lock_row w t) s).
Proof.
  unfold update_where. induction s as [|r s IH]; simpl; constructor; auto.
  destruct (has_id k r); [apply lock_row_leased | reflexivity].
Qed.

(** C4, as amended. For every successful [acquire_job], the table after
    the call is the table before it, row by row, except for the row of the
    job handed out: that row has [state = PROCESSING], [locked_by] the
    caller's id and [locked_at] the text of [now]; its [updated_at] is not
    touched, and neither are [id], [command], [attempts], [max_retries],
    [created_at], [next_retry_at] and [error_message]. *)
Theorem acquire_job_frame w now sql (s s' : store) job :
  acquire_job w now sql s = (s', Ok (Some job)) ->
  Forall2 (fun r r' =>
             if has_id (Job.id job) r then leased w (isoformat now) r r' else r' = r)
          s s'.
Proof.
  unfold acquire_job.
  destruct (acquire_select now sql s) as [r0|] eqn:Hsel; [|discriminate].
  unfold acquire_lock.
  set (s1 := update_where _ _ s).
  destruct (select_by_id (Row.id r0) s1) as [r1|] eqn:Hr1; simpl; [|discriminate].
  destruct (_row_to_job r1) as [j|] eqn:Hj; simpl; [|discriminate].
  intros [= <- <-].
  assert (Hid : Job.id j = Row.id r0).
  { apply _row_to_job_fields in Hj as (-> & _).
    now apply select_by_id_Some in Hr1. }
  rewrite Hid. apply lock_rows_leased.
Qed.

Example acquire_failed_once :
  acquire_job "worker-1" t_12_00_10 t_12_00_10 [row_failed_once]
  = ([row_b_leased], Ok (Some job_b_acquired)).
Proof. vm_compute. reflexivity. Qed.

Lemma acquire_job_frame_witness :
  acquire_job "worker-1" t_12_00_10 t_12_00_10 [row_failed_once]
  = ([row_b_leased], Ok (Some job_b_acquired))
  /\ Forall2 (fun r r' =>
                if has_id (Job.id job_b_acquired) r
                then leased "worker-1" (isoformat t_12_00_10) r r' else r' = r)
             [row_failed_once] [row_b_leased].
Proof.
  assert (H : acquire_job "worker-1" t_12_00_10 t_12_00_10 [row_failed_once]
              = ([row_b_leased], Ok (Some job_b_acquired)))
    by (vm_compute; reflexivity).
  split; [exact H | exact (acquire_job_frame _ _ _ _ _ _ H)].
Defined.

(** C4, as the claim has it, fails: the row keeps the [updated_at] it had,
    here the instant of the failed run and not the instant of the lease. *)
Lemma acquire_job_stamps_updated_at_counterexample :
  acquire_job "worker-1" t_12_00_10 t_12_00_10 [row_failed_once]
  = ([row_b_leased], Ok (Some job_b_acquired))
  /\ isoformat t_12_00_10 = "2024-01-01T12:00:10"
  /\ Row.updated_at row_b_leased = "2024-01-01T12:00:01.250000"
  /\ ~ leased_and_stamped "worker-1" (isoformat t_12_00_10)
         row_failed_once row_b_leased.
Proof.
  split; [vm_compute; reflexivity|].
  split; [vm_compute; reflexivity|].
  split; [reflexivity|].
  intros (_ & _ & _ & H & _). vm_compute in H. discriminate.
Qed.

(** ** C3: a successful run *)

Lemma update_job_store job now s :
  (update_job job now s).1
  = update_where (has_id (Job.id job)) (write_job job now) s.
Proof. reflexivity. Qed.

Lemma select_by_id_updated k f (s : store) r :
  (forall r, Row.id (f r) = Row.id r) ->
  select_by_id k s = Some r ->
  select_by_id k (update_where (has_id k) f s) = Some (f r).
Proof.
  intros Hf H. rewrite select_by_id_update_where, H by assumption. simpl.
  apply select_by_id_Some in H as [_ Hid].
  assert (E : has_id k r = true) by now apply has_id_true.
  now rewrite E.
Qed.

(** C3, as amended. For every acquired job whose run succeeds, the worker's
    update stores [state = COMPLETED] and, as [error_message], what the row
    held when the job was acquired: null for a job that had not failed, the
    diagnostic of the last failed attempt otherwise. *)
Theorem mark_completed_keeps_error_message w now sql (s s1 : store) job r1 r2 :
  primary_key s ->
  acquire_job w now sql s = (s1, Ok (Some job)) ->
  exists r r',
    select_by_id (Job.id job) s = Some r
    /\ select_by_id (Job.id job) (_mark_completed job r1 r2 s1) = Some r'
    /\ Row.state r' = COMPLETED
    /\ Row.error_message r' = Row.error_message r.
Proof.
  intros Hpk Hacq.
  destruct (acquire_job_returns _ _ _ _ _ _ Hpk Hacq) as (r & Hsel & -> & Hr & Hj).
  apply _row_to_job_fields in Hj as (Hid & _ & _ & _ & _ & Hmsg).
  simpl in Hid, Hmsg.
  exists r, (write_job (set_completed job r1) r2 (lock_row w (isoformat now) r)).
  rewrite Hid. split.
  { apply primary_key_select; [assumption|]. now apply acquire_select_In in Hsel. }
  split.
  { unfold _mark_completed. rewrite update_job_store. simpl Job.id. rewrite Hid.
    apply select_by_id_updated; [apply write_job_id | exact Hr]. }
  split; [reflexivity | exact Hmsg].
Qed.

Lemma primary_key_one r : primary_key [r].
Proof. unfold primary_key. simpl. apply NoDup_singleton. Qed.

Lemma mark_completed_keeps_error_message_witness :
  primary_key [row_failed_once]
  /\ acquire_job "worker-1" t_12_00_10 t_12_00_10 [row_failed_once]
     = ([row_b_leased], Ok (Some job_b_acquired))
  /\ exists r r',
       select_by_id (Job.id job_b_acquired) [row_failed_once] = Some r
       /\ select_by_id (Job.id job_b_acquired)
            (_mark_completed job_b_acquired t_12_00_11 t_12_00_12 [row_b_leased])
          = Some r'
       /\ Row.state r' = COMPLETED
       /\ Row.error_message r' = Row.error_message r.
Proof.
  assert (H : acquire_job "worker-1" t_12_00_10 t_12_00_10 [row_failed_once]
              = ([row_b_leased], Ok (Some job_b_acquired)))
    by (vm_compute; reflexivity).
  split; [apply primary_key_one|]. split; [exact H|].
  exact (mark_completed_keeps_error_message _ _ _ _ _ _ t_12_00_11 t_12_00_12
           (primary_key_one _) H).
Defined.

(** C3, as the claim has it, fails: a job that failed once and then
    succeeds is stored COMPLETED with the diagnostic of the failed run. *)
Lemma mark_completed_clears_error_counterexample :
  acquire_job "worker-1" t_12_00_10 t_12_00_10 [row_failed_once]
  = ([row_b_leased], Ok (Some job_b_acquired))
  /\ _mark_completed job_b_acquired t_12_00_11 t_12_00_12 [row_b_leased]
     = [row_b_completed]
  /\ Row.state row_b_completed = COMPLETED
  /\ Row.error_message row_b_completed = Some "Exit code 1"
  /\ Row.error_message row_b_completed <> None.
Proof.
  split; [vm_compute; reflexivity|].
  split; [vm_compute; reflexivity|].
  repeat split. discriminate.
Qed.

(** The same through one cycle of the worker. *)
Example process_next_job_success :
  let s' := (_process_next_job "worker-1" 2 clock_from_12_00_10 true ""
               [row_failed_once]).1 in
  Row.state <$> select_by_id "job-b" s' = Some COMPLETED
  /\ Row.error_message <$> select_by_id "job-b" s' = Some (Some "Exit code 1").
Proof. vm_compute. split; reflexivity. Qed.

(** ** C9: [dlq retry] *)

(** C9. [dlq retry] on a job whose row is DEAD stores it with
    [state = PENDING], [attempts = 0], [error_message] and [next_retry_at]
    null, and touches no other job; on a job in any other state it reports
    that state and leaves the table as it is; on an id without a row it
    reports that the job was not found.  (A row takes part when it can be
    read back as a [Job].) *)
Theorem dlq_retry job_id now (s : store) :
  (select_by_id job_id s = None -> retry job_id now s = (s, NotFound))
  /\ (forall r job,
        select_by_id job_id s = Some r -> _row_to_job r = Ok job ->
        Row.state r <> DEAD ->
        retry job_id now s = (s, NotInDLQ (Row.state r)))
  /\ (forall r job,
        select_by_id job_id s = Some r -> _row_to_job r = Ok job ->
        Row.state r = DEAD ->
        exists s' r',
          retry job_id now s = (s', Requeued)
          /\ select_by_id job_id s' = Some r'
          /\ Row.state r' = PENDING
          /\ Row.attempts r' = 0
          /\ Row.error_message r' = None
          /\ Row.next_retry_at r' = None
          /\ forall k, k <> job_id -> select_by_id k s' = select_by_id k s).
Proof.
  unfold retry, get_job. split; [|split].
  - intros ->. reflexivity.
  - intros r job -> Hj Hst. rewrite Hj. simpl.
    apply _row_to_job_fields in Hj as (_ & _ & Hs & _). rewrite Hs.
    rewrite bool_decide_eq_false_2 by assumption. reflexivity.
  - intros r job Hsel Hj Hst. rewrite Hsel, Hj. simpl.
    pose proof (_row_to_job_fields _ _ Hj) as (Hid & _ & Hs & _).
    rewrite bool_decide_eq_true_2 by congruence.
    assert (Hk : Job.id job = job_id).
    { rewrite Hid. now apply select_by_id_Some in Hsel. }
    assert (Hex : existsb (has_id job_id) s = true).
    { apply select_by_id_existsb. eauto. }
    unfold update_job. simpl Job.id. rewrite Hk, Hex.
    eexists _, _. split; [reflexivity|]. split.
    { apply select_by_id_updated; [apply write_job_id | exact Hsel]. }
    repeat split.
    intros k Hne. apply update_where_other; [apply write_job_id | assumption].
Qed.

Lemma dlq_retry_witness :
  (select_by_id "job-x" store_s5 = None
   /\ retry "job-x" t_12_00_10 store_s5 = (store_s5, NotFound))
  /\ (select_by_id "job-p" store_s5 = Some row_pending
      /\ _row_to_job row_pending = Ok job_pending
      /\ Row.state row_pending <> DEAD
      /\ retry "job-p" t_12_00_10 store_s5
         = (store_s5, NotInDLQ (Row.state row_pending)))
  /\ (select_by_id "job-d" store_s5 = Some row_dead
      /\ _row_to_job row_dead = Ok job_dead
      /\ Row.state row_dead = DEAD
      /\ exists s' r',
           retry "job-d" t_12_00_10 store_s5 = (s', Requeued)
           /\ select_by_id "job-d" s' = Some r'
           /\ Row.state r' = PENDING
           /\ Row.attempts r' = 0
           /\ Row.error_message r' = None
           /\ Row.next_retry_at r' = None
           /\ forall k, k <> "job-d" -> select_by_id k s' = select_by_id k store_s5).
Proof.
  assert (Hx : select_by_id "job-x" store_s5 = None) by reflexivity.
  assert (Hp : select_by_id "job-p" store_s5 = Some row_pending) by reflexivity.
  assert (Hd : select_by_id "job-d" store_s5 = Some row_dead) by reflexivity.
  assert (Hjp : _row_to_job row_pending = Ok job_pending) by (vm_compute; reflexivity).
  assert (Hjd : _row_to_job row_dead = Ok job_dead) by (vm_compute; reflexivity).
  assert (Hsp : Row.state row_pending <> DEAD) by discriminate.
  assert (Hsd : Row.state row_dead = DEAD) by reflexivity.
  split; [|split].
  - split; [exact Hx|].
    exact (proj1 (dlq_retry "job-x" t_12_00_10 store_s5) Hx).
  - repeat (split; [assumption|]).
    exact (proj1 (proj2 (dlq_retry "job-p" t_12_00_10 store_s5)) _ _ Hp Hjp Hsp).
  - repeat (split; [assumption|]).
    exact (proj2 (proj2 (dlq_retry "job-d" t_12_00_10 store_s5)) _ _ Hd Hjd Hsd).
Defined.

(** Scenario S5, evaluated. *)
Example requeue_from_dead :
  let '(s', outcome) := retry "job-d" t_12_00_10 store_s5 in
  outcome = Requeued
  /\ (fun r => (Row.state r, Row.attempts r, Row.error_message r, Row.next_retry_at r))
       <$> select_by_id "job-d" s'
     = Some (PENDING, 0, None, None).
Proof. vm_compute. split; reflexivity. Qed.

(** ** C10: [get_stats] *)

Lemma value_inj st st' : value st = value st' -> st = st'.
Proof. destruct st, st'; simpl; intros H; first [reflexivity | discriminate H]. Qed.

Lemma count_key_value st s : count_key (value st) s = count_state st s.
Proof.
  unfold count_key, count_state. do 2 f_equal.
  apply filter_ext. intros r.
  destruct (String.eqb_spec (value st) (value (Row.state r))) as [E|E].
  - apply value_inj in E. symmetry. now apply bool_decide_eq_true_2.
  - symmetry. apply bool_decide_eq_false_2. congruence.
Qed.

Lemma assoc_bump k k' g :
  assoc k (bump k' g)
  = if String.eqb k k' then Some (default 0 (assoc k g) + 1) else assoc k g.
Proof.
  unfold assoc. induction g as [|[k0 n] g IH]; simpl.
  - destruct (String.eqb k k'); reflexivity.
  - destruct (String.eqb_spec k' k0) as [->|Hne]; simpl.
    + destruct (String.eqb k k0); reflexivity.
    + destruct (String.eqb_spec k k0) as [->|Hne'].
      * destruct (String.eqb_spec k0 k'); [congruence | reflexivity].
      * exact IH.
Qed.

Lemma assoc_None k g : assoc k g = None <-> k ∉ g.*1.
Proof.
  unfold assoc. induction g as [|[k0 n] g IH]; simpl.
  - split; [intros _; apply not_elem_of_nil | reflexivity].
  - rewrite not_elem_of_cons.
    destruct (String.eqb_spec k k0) as [->|Hne]; simpl.
    + split; [discriminate | intros [H _]; congruence].
    + rewrite IH. tauto.
Qed.

Lemma bump_keys k g :
  (bump k g).*1
  = match assoc k g with Some _ => g.*1 | None => (g.*1 ++ [k])%list end.
Proof.
  unfold assoc. induction g as [|[k0 n] g IH]; [reflexivity|].
  cbn [bump List.find fst].
  destruct (String.eqb_spec k k0) as [->|Hne]; [reflexivity|].
  rewrite !fmap_cons, IH. destruct (List.find _ g); reflexivity.
Qed.

Lemma bump_NoDup k g : NoDup g.*1 -> NoDup (bump k g).*1.
Proof.
  intros H. rewrite bump_keys. destruct (assoc k g) eqn:E; [assumption|].
  apply NoDup_app. split; [assumption|]. split; [|apply NoDup_singleton].
  intros x Hx Hk. apply list_elem_of_singleton in Hk as ->.
  now apply assoc_None in E.
Qed.

Lemma group_fold_NoDup (s : store) g :
  NoDup g.*1 ->
  NoDup (fold_left (fun g r => bump (value (Row.state r)) g) s g).*1.
Proof.
  revert g. induction s as [|r s IH]; simpl; intros g H; [assumption|].
  apply IH, bump_NoDup, H.
Qed.

Lemma group_fold_assoc k (s : store) g :
  assoc k (fold_left (fun g r => bump (value (Row.state r)) g) s g)
  = if count_key k s =? 0 then assoc k g
    else Some (default 0 (assoc k g) + count_key k s).
Proof.
  revert g. unfold count_key.
  induction s as [|r s IH]; simpl; intros g; [reflexivity|].
  rewrite IH, assoc_bump.
  destruct (String.eqb k (value (Row.state r))); simpl length.
  - rewrite Nat2Z.inj_succ.
    destruct (Z.eqb_spec (Z.succ (Z.of_nat (length (List.filter
      (fun r0 => String.eqb k (value (Row.state r0))) s)))) 0) as [E|E]; [lia|].
    destruct (Z.eqb_spec (Z.of_nat (length (List.filter
      (fun r0 => String.eqb k (value (Row.state r0))) s))) 0) as [E'|E'];
      simpl; f_equal; lia.
  - reflexivity.
Qed.

Lemma group_by_state_assoc k s :
  assoc k (group_by_state s)
  = if count_key k s =? 0 then None else Some (count_key k s).
Proof. unfold group_by_state. rewrite group_fold_assoc. reflexivity. Qed.

Lemma fold_insert_lookup k (l : list (string * Z)) (m : gmap string Z) :
  NoDup l.*1 ->
  fold_left (fun stats row => <[row.1 := row.2]> stats) l m !! k
  = match assoc k l with Some v => Some v | None => m !! k end.
Proof.
  revert m. induction l as [|[k0 n] l IH]; simpl; intros m Hnd; [reflexivity|].
  apply NoDup_cons in Hnd as [Hk0 Hnd]. rewrite IH by assumption.
  unfold assoc at 2. simpl.
  destruct (String.eqb_spec k k0) as [->|Hne]; simpl.
  - apply assoc_None in Hk0. rewrite Hk0. apply lookup_insert_eq.
  - fold (assoc k l). destruct (assoc k l); [reflexivity|].
    apply lookup_insert_ne. congruence.
Qed.

Lemma get_stats_lookup k s :
  get_stats s !! k = if count_key k s =? 0 then None else Some (count_key k s).
Proof.
  unfold get_stats. rewrite fold_insert_lookup.
  - rewrite group_by_state_assoc, lookup_empty.
    destruct (count_key k s =? 0); reflexivity.
  - apply group_fold_NoDup. simpl. apply NoDup_nil_2.
Qed.

(** C10. For every table, [get_stats] has an entry for a state exactly
    when some job is in that state, the entry is the number of jobs in that
    state, and there is no entry under any other key: a state without jobs
    is absent, not mapped to 0. *)
Theorem get_stats_exact (s : store) :
  (forall st,
     get_stats s !! value st
     = if count_state st s =? 0 then None else Some (count_state st s))
  /\ (forall k n,
        get_stats s !! k = Some n ->
        0 < n /\ exists st, k = value st /\ n = count_state st s).
Proof.
  split.
  - intros st. rewrite get_stats_lookup, count_key_value. reflexivity.
  - intros k n. rewrite get_stats_lookup.
    destruct (Z.eqb_spec (count_key k s) 0) as [E|E]; [discriminate|].
    intros [= <-]. split; [unfold count_key in *; lia|].
    unfold count_key in E.
    destruct (List.filter (fun r => String.eqb k (value (Row.state r))) s)
      as [|r l] eqn:F; [simpl in E; lia|].
    assert (Hr : In r (List.filter (fun r => String.eqb k (value (Row.state r))) s))
      by (rewrite F; now left).
    apply filter_In in Hr as [_ Hr]. apply String.eqb_eq in Hr.
    exists (Row.state r). split; [assumption|].
    rewrite <- count_key_value, <- Hr. reflexivity.
Qed.

(** The test [test_get_stats] with one job dead and one pending: the other
    three states have no entry. *)
Example get_stats_s5 :
  get_stats store_s5 = {[ "dead" := 1; "pending" := 1 ]}
  /\ get_stats store_s5 !! "completed" = None.
Proof. vm_compute. split; reflexivity. Qed.

(** ** C5: which job [acquire_job] takes *)

Lemma ascii_compare_refl a : Ascii.compare a a = Eq.
Proof. unfold Ascii.compare. apply N.compare_refl. Qed.

Lemma string_compare_refl a : String.compare a a = Eq.
Proof. induction a as [|c a IH]; simpl; [reflexivity|]. now rewrite ascii_compare_refl. Qed.

Lemma string_leb_refl a : String.leb a a = true.
Proof. unfold String.leb. now rewrite string_compare_refl. Qed.

Lemma string_ltb_leb a b : String.ltb a b = true -> String.leb a b = true.
Proof. unfold String.ltb, String.leb. destruct (String.compare a b); congruence. Qed.

Lemma string_leb_false a b : String.leb a b = false -> String.ltb b a = true.
Proof.
  unfold String.ltb, String.leb. rewrite (String.compare_antisym a b).
  destruct (String.compare b a); simpl; congruence.
Qed.

Lemma string_ltb_irrefl_leb a b : String.ltb a b = true -> String.leb b a = false.
Proof.
  unfold String.ltb, String.leb. rewrite (String.compare_antisym a b).
  destruct (String.compare b a); simpl; congruence.
Qed.

Lemma string_leb_trans a b c :
  String.leb a b = true -> String.leb b c = true -> String.leb a c = true.
Proof.
  unfold String.leb. revert b c.
  induction a as [|x a IH]; intros [|y b] [|z c]; simpl; try congruence.
  destruct (Ascii.compare x y) eqn:Exy; try congruence;
    destruct (Ascii.compare y z) eqn:Eyz; try congruence.
  - apply Ascii.compare_eq_iff in Exy as ->. rewrite Eyz. apply IH.
  - apply Ascii.compare_eq_iff in Exy as ->. rewrite Eyz. congruence.
  - apply Ascii.compare_eq_iff in Eyz as <-. rewrite Exy. congruence.
  - unfold Ascii.compare in *. rewrite N.compare_lt_iff in Exy, Eyz.
    assert (H : (N_of_ascii x < N_of_ascii z)%N) by lia.
    apply N.compare_lt_iff in H. rewrite H. congruence.
Qed.

(** The row the sorter gives first: nothing delivered before it reaches as
    low, nothing delivered after it goes lower. *)
Lemma limit_1_first_least l r :
  order_by_created_at_limit_1 l = Some r ->
  exists l1 l2,
    l = (l1 ++ r :: l2)%list
    /\ (forall x, In x l1 -> String.ltb (Row.created_at r) (Row.created_at x) = true)
    /\ (forall x, In x l2 -> String.leb (Row.created_at r) (Row.created_at x) = true).
Proof.
  revert r. induction l as [|a l IH]; simpl; intros r; [discriminate|].
  destruct (order_by_created_at_limit_1 l) as [m|] eqn:Hm.
  - destruct (IH m eq_refl) as (l1 & l2 & -> & H1 & H2).
    destruct (String.leb (Row.created_at a) (Row.created_at m)) eqn:E;
      intros [= <-].
    + exists [], (l1 ++ m :: l2)%list. split; [reflexivity|].
      split; [intros x []|]. intros x Hx.
      apply string_leb_trans with (Row.created_at m); [assumption|].
      apply in_app_iff in Hx as [Hx|[<-|Hx]];
        [apply string_ltb_leb, H1, Hx | apply string_leb_refl | apply H2, Hx].
    + exists (a :: l1), l2. split; [reflexivity|]. split; [|assumption].
      intros x [<-|Hx]; [now apply string_leb_false | now apply H1].
  - apply limit_1_None in Hm as ->. intros [= <-].
    exists [], []. split; [reflexivity|]. split; intros x [].
Qed.

Lemma limit_1_least l r x :
  order_by_created_at_limit_1 l = Some r -> In x l ->
  String.leb (Row.created_at r) (Row.created_at x) = true.
Proof.
  intros H Hx. destruct (limit_1_first_least l r H) as (l1 & l2 & -> & H1 & H2).
  apply in_app_iff in Hx as [Hx|[<-|Hx]];
    [apply string_ltb_leb, H1, Hx | apply string_leb_refl | apply H2, Hx].
Qed.

(** C5, as amended.  Whenever jobs are eligible, [acquire_job] selects an
    eligible one whose [created_at] (the stored text) is smallest, and when
    none is eligible it selects none; this holds in whatever order SQLite
    delivers the eligible rows to its sorter.  The query has no second sort
    key: which of several eligible jobs with the same smallest [created_at]
    is selected is left to SQLite, and their ids do not decide it. *)
Theorem acquire_select_least now sql (s : store) :
  let now_text := isoformat now in
  let threshold := sqlite_now_minus_5_minutes sql in
  least_eligible now_text threshold s (acquire_select now sql s)
  /\ forall delivered,
       (forall r, In r delivered <-> eligible now_text threshold s r) ->
       least_eligible now_text threshold s (order_by_created_at_limit_1 delivered).
Proof.
  intros now_text threshold.
  assert (H : forall delivered,
            (forall r, In r delivered <-> eligible now_text threshold s r) ->
            least_eligible now_text threshold s
              (order_by_created_at_limit_1 delivered)).
  { intros delivered Hd. unfold least_eligible.
    destruct (order_by_created_at_limit_1 delivered) as [r|] eqn:E.
    - split; [apply Hd, limit_1_In, E|].
      intros r' Hr'. apply (limit_1_least _ _ _ E). now apply Hd.
    - apply limit_1_None in E. intros r Hr. apply Hd in Hr.
      rewrite E in Hr. destruct Hr. }
  split; [|exact H].
  unfold acquire_select. apply H. intros r. apply scan_In.
Qed.

(** C5, as the claim has it, fails: "a" and "b" are both eligible and carry
    the same [created_at]; "b", enqueued first, is the one selected (by
    SQLite 3.40 on the schema of [_init_db]) although "a" is the smaller
    id. *)
Lemma acquire_tie_by_id_counterexample :
  Row.id <$> store_tie = ["b"; "a"]
  /\ Forall (fun r => where_clause (isoformat t_12_00_10)
                        (sqlite_now_minus_5_minutes t_12_00_10) r = true
                      /\ Row.created_at r = "2024-01-01T12:00:00") store_tie
  /\ Row.id <$> acquire_select t_12_00_10 t_12_00_10 store_tie = Some "b"
  /\ result_map (fmap Job.id)
       (acquire_job "worker-1" t_12_00_10 t_12_00_10 store_tie).2
     = Ok (Some "b")
  /\ String.ltb "a" "b" = true.
Proof.
  split; [vm_compute; reflexivity|].
  split; [repeat constructor; vm_compute; reflexivity|].
  split; [vm_compute; reflexivity|].
  split; vm_compute; reflexivity.
Qed.

(** ** C2: leases that have run out *)

Lemma where_clause_state now thr r :
  where_clause now thr r = true -> Row.state r = PENDING \/ Row.state r = FAILED.
Proof.
  unfold where_clause, pending_clause, failed_clause.
  rewrite orb_true_iff, !andb_true_iff, !bool_decide_eq_true. tauto.
Qed.

Lemma where_clause_released now thr r r' :
  released r r' -> where_clause now thr r' = true.
Proof.
  intros (Hs & Hl & _). unfold where_clause, pending_clause, lock_clause.
  rewrite Hl. simpl. rewrite bool_decide_eq_true_2 by assumption. reflexivity.
Qed.

Lemma unlock_row_released r : released r (unlock_row r).
Proof. repeat split. Qed.

(** A row that is eligible and strictly older than every other eligible
    row is the one selected. *)
Lemma acquire_select_first now sql (s : store) r :
  eligible (isoformat now) (sqlite_now_minus_5_minutes sql) s r ->
  (forall r', eligible (isoformat now) (sqlite_now_minus_5_minutes sql) s r' ->
              r' <> r ->
              String.ltb (Row.created_at r) (Row.created_at r') = true) ->
  acquire_select now sql s = Some r.
Proof.
  intros Hr Hfirst. unfold acquire_select.
  destruct (order_by_created_at_limit_1 _) as [m|] eqn:Hm.
  - destruct (decide (m = r)) as [->|Hne]; [reflexivity|].
    assert (Hel : eligible (isoformat now) (sqlite_now_minus_5_minutes sql) s m)
      by (apply scan_In, limit_1_In, Hm).
    apply Hfirst in Hel; [|assumption]. apply string_ltb_irrefl_leb in Hel.
    rewrite (limit_1_least _ _ r Hm) in Hel; [discriminate|]. now apply scan_In.
  - apply limit_1_None in Hm. apply scan_In in Hr. rewrite Hm in Hr. destruct Hr.
Qed.

(** What the two calls do about leases.  [acquire_job] never selects a
    PROCESSING job, however old its lease: it selects among PENDING and
    FAILED jobs only.  [clear_locks()] gives back every PROCESSING job whose
    stored [locked_at] compares below the threshold as a text: state
    PENDING, [locked_by] and [locked_at] null, all else as it was, and no
    other row changed.  A job given back is eligible, and the next
    [acquire_job] by any worker selects it when every other eligible job is
    younger. *)
Lemma lease_recovery now sql (s : store) :
  (forall r, acquire_select now sql s = Some r ->
             Row.state r = PENDING \/ Row.state r = FAILED)
  /\ Forall2 (fun r r' =>
                if stale (sqlite_now_minus_5_minutes sql) r
                then released r r' else r' = r)
             s (clear_locks None sql s)
  /\ (forall r r',
        released r r' -> In r' s ->
        (forall x, eligible (isoformat now) (sqlite_now_minus_5_minutes sql) s x ->
                   x <> r' ->
                   String.ltb (Row.created_at r') (Row.created_at x) = true) ->
        acquire_select now sql s = Some r'
        /\ forall w,
             Forall2 (fun x x' =>
                        if has_id (Row.id r') x
                        then leased w (isoformat now) x x' else x' = x)
                     s (acquire_job w now sql s).1).
Proof.
  split; [|split].
  - intros r H. apply acquire_select_In in H as [_ H].
    eapply where_clause_state, H.
  - unfold clear_locks, update_where.
    induction s as [|r s IH]; simpl; constructor; auto.
    destruct (stale _ r); [apply unlock_row_released | reflexivity].
  - intros r r' Hrel Hin Hfirst.
    assert (Hsel : acquire_select now sql s = Some r').
    { apply acquire_select_first; [|assumption].
      split; [assumption|]. eapply where_clause_released, Hrel. }
    split; [exact Hsel|]. intros w.
    rewrite (acquire_job_store w _ _ _ _ Hsel). apply lock_rows_leased.
Qed.

(** Yesterday's lease is given back by [clear_locks()], and then taken by
    the next [acquire_job]. *)
Example lease_of_yesterday_recovered :
  stale (sqlite_now_minus_5_minutes t_12_00_10) row_ghost_yesterday = true
  /\ clear_locks None t_12_00_10 [row_ghost_yesterday]
     = [unlock_row row_ghost_yesterday]
  /\ acquire_select t_12_00_11 t_12_00_11 [unlock_row row_ghost_yesterday]
     = Some (unlock_row row_ghost_yesterday).
Proof. vm_compute. repeat split; reflexivity. Qed.

(** C2 on the code.  A lease that has run out is not recovered on the day
    it was taken.  "job-e" is PROCESSING under the worker "ghost", which is
    gone; its lease is ten minutes old when the clock reads 12:00:10, twice
    the five minutes after which [clear_locks] calls a lock stale, and it is
    the only job.  [clear_locks()] leaves the row as it is, and
    [acquire_job] by a live worker returns no job, before the sweep and
    after it: the job stays with "ghost".  The lease is not found stale
    because [isoformat] wrote it as "2024-01-01T11:50:10" and SQLite writes
    the threshold as "2024-01-01 11:55:10": the two texts agree up to the
    'T' and the space, and 'T' is the greater.  And [acquire_job] takes no
    PROCESSING job whatever the age of its lease: the lease of the day
    before, which [clear_locks()] does give back, is not taken either as
    long as the row is PROCESSING. *)
Theorem stale_lease_not_recovered :
  Row.state row_ghost = PROCESSING
  /\ Row.locked_by row_ghost = Some "ghost"
  /\ Row.locked_at row_ghost = Some (isoformat (t_12_00_10 - 600 * us_per_second))
  /\ (t_12_00_10 - 600 * us_per_second) + five_minutes < t_12_00_10
  /\ clear_locks None t_12_00_10 [row_ghost] = [row_ghost]
  /\ acquire_job "worker-1" t_12_00_10 t_12_00_10 [row_ghost]
     = ([row_ghost], Ok None)
  /\ acquire_job "worker-1" t_12_00_11 t_12_00_11
       (clear_locks None t_12_00_10 [row_ghost])
     = ([row_ghost], Ok None)
  /\ Row.state row_ghost_yesterday = PROCESSING
  /\ acquire_job "worker-1" t_12_00_10 t_12_00_10 [row_ghost_yesterday]
     = ([row_ghost_yesterday], Ok None).
Proof.
  split; [reflexivity|]. split; [reflexivity|].
  split; [vm_compute; reflexivity|]. split; [vm_compute; reflexivity|].
  split; [vm_compute; reflexivity|]. split; [vm_compute; reflexivity|].
  split; [vm_compute; reflexivity|]. split; [reflexivity|].
  vm_compute. reflexivity.
Qed.

(** The text of a lease and the text of the threshold differ in their
    eleventh character: [isoformat] writes 'T' there and SQLite's
    [datetime] a space, and 'T' is the larger.  A lease taken on the day of
    the threshold therefore never compares below it. *)
Example lease_text_against_threshold :
  sqlite_now_minus_5_minutes t_12_00_10 = "2024-01-01 11:55:10"
  /\ String.ltb "2024-01-01T11:50:10" "2024-01-01 11:55:10" = false
  /\ String.ltb "2023-12-31T23:50:10" "2024-01-01 11:55:10" = true
  /\ clear_locks None t_12_00_10 [row_ghost] = [row_ghost]
  /\ clear_locks None t_12_00_10 [row_ghost_yesterday] = [unlock_row row_ghost_yesterday].
Proof. vm_compute. repeat split; reflexivity. Qed.

(** ** C6: a failed run *)

Lemma update_where_Forall2 k f (P : Row.t -> Row.t -> Prop) (s : store) :
  (forall r, has_id k r = true -> P r (f r)) ->
  Forall2 (fun r r' => if has_id k r then P r r' else r' = r)
          s (update_where (has_id k) f s).
Proof.
  intros H. unfold update_where.
  induction s as [|r s IH]; simpl; constructor; auto.
  destruct (has_id k r) eqn:E; [now apply H | reflexivity].
Qed.



Lemma _handle_failure_failed job msg base r1 r2 r3 s :
  Job.attempts job + 1 < Job.max_retries job ->
  in_range (r2 + base ^ (Job.attempts job + 1) * us_per_second) = true ->
  let next := r2 + base ^ (Job.attempts job + 1) * us_per_second in
  _handle_failure job msg base r1 r2 r3 s
  = (stamp (set_outcome (count_failure job msg r1) FAILED (Some next)) r3,
     (update_job (set_outcome (count_failure job msg r1) FAILED (Some next)) r3 s).1,
     Ok tt).
Proof.
  intros H Hr next. subst next. unfold _handle_failure, add_seconds.
  cbv zeta. cbn [Job.max_retries Job.attempts count_failure].
  destruct (Z.leb_spec (Job.max_retries job) (Job.attempts job + 1)); [lia|].
  now rewrite Hr.
Qed.



Example handle_failure_second_failure :
  _handle_failure job_b_acquired "Exit code 3" 2 t_fail_1 t_fail_2 t_fail_3
    [row_b_leased]
  = (job_b_failed_twice, [row_b_failed_twice], Ok tt).
Proof. vm_compute. reflexivity. Qed.



(** Scenario S3: the second failure of a job with [max_retries = 2] is its
    last. *)
Example handle_failure_exhausted :
  let job := {| Job.id := "job-c"; Job.command := "exit 1"; Job.state := PROCESSING;
                Job.attempts := 1; Job.max_retries := 2;
                Job.created_at := 1704110400000000;
                Job.updated_at := 1704110401000000;
                Job.next_retry_at := Some 1704110403000000;
                Job.error_message := Some "Exit code 1" |} in
  let job' := (_handle_failure job "Exit code 1" 2 t_fail_1 t_fail_2 t_fail_3 []).1.1 in
  (Job.state job', Job.attempts job', Job.next_retry_at job', Job.error_message job')
  = (DEAD, 2, None, Some "Exit code 1").
Proof. vm_compute. reflexivity. Qed.

(** Beyond [datetime.max] the retry instant cannot be built: with
    [backoff_base = 1000000] the second failure of "job-b" asks for 10^12
    seconds, [_handle_failure] raises before it stores anything, and so
    does the second call that [_process_next_job] makes from its handler.
    The row stays as [acquire_job] left it. *)
Example retry_instant_out_of_range :
  (_handle_failure job_b_acquired "Exit code 3" 1000000
     t_fail_1 t_fail_2 t_fail_3 [row_b_leased]).2
  = Raise (OverflowError DateValue)
  /\ _process_next_job "worker-1" 1000000 clock_from_12_00_10 false "Exit code 3"
       [row_failed_once]
     = ([row_b_leased], Raise (OverflowError CInt)).
Proof. vm_compute. split; reflexivity. Qed.

(** ** C7: the retry instant *)

(** C7, as amended. For every job that just failed and was stored with new
    [attempts = k < max_retries], the stored [next_retry_at] reads back as
    the clock as [_handle_failure] read it when scheduling plus
    [backoff_base ^ k] seconds, and the stored [updated_at] reads back as the
    later reading that [update_job] takes: [next_retry_at - updated_at] is
    [backoff_base ^ k] seconds less the time that passed between the two
    readings.  ([r2] and [r3] are those readings, in microseconds.) *)
Theorem retry_delay job msg base r1 r2 r3 (s : store) :
  let k := Job.attempts job + 1 in
  0 <= Job.attempts job ->
  k < Job.max_retries job ->
  in_range (r2 + base ^ k * us_per_second) = true ->
  in_range r3 = true ->
  exists job' s',
    _handle_failure job msg base r1 r2 r3 s = (job', s', Ok tt)
    /\ Forall2 (fun r r' =>
                  if has_id (Job.id job) r
                  then Row.state r' = FAILED
                       /\ Row.attempts r' = k
                       /\ exists next_retry_at updated_at,
                            Row.next_retry_at r' ≫= fromisoformat = Some next_retry_at
                            /\ fromisoformat (Row.updated_at r') = Some updated_at
                            /\ next_retry_at = r2 + base ^ k * us_per_second
                            /\ next_retry_at - updated_at
                               = base ^ k * us_per_second - (r3 - r2)
                  else r' = r)
               s s'.
Proof.
  intros k Hpos Hk Hfit Hr3. subst k.
  rewrite (_handle_failure_failed _ _ _ _ _ _ _ Hk Hfit).
  eexists _, _. split; [reflexivity|].
  rewrite update_job_store. apply update_where_Forall2.
  intros r _. split; [reflexivity|]. split; [reflexivity|].
  exists (r2 + base ^ (Job.attempts job + 1) * us_per_second), r3.
  cbn [write_job set_outcome Row.next_retry_at Row.updated_at Job.next_retry_at
       fmap option_fmap option_map mbind option_bind].
  rewrite (fromisoformat_isoformat _ Hfit), (fromisoformat_isoformat _ Hr3).
  repeat split. lia.
Qed.

Lemma retry_delay_witness :
  0 <= Job.attempts job_b_acquired
  /\ Job.attempts job_b_acquired + 1 < Job.max_retries job_b_acquired
  /\ in_range (t_fail_2 + 2 ^ (Job.attempts job_b_acquired + 1) * us_per_second)
     = true
  /\ in_range t_fail_3 = true
  /\ exists job' s',
       _handle_failure job_b_acquired "Exit code 3" 2 t_fail_1 t_fail_2 t_fail_3
         [row_b_leased]
       = (job', s', Ok tt)
       /\ Forall2 (fun r r' =>
                     if has_id (Job.id job_b_acquired) r
                     then Row.state r' = FAILED
                          /\ Row.attempts r' = Job.attempts job_b_acquired + 1
                          /\ exists next_retry_at updated_at,
                               Row.next_retry_at r' ≫= fromisoformat
                               = Some next_retry_at
                               /\ fromisoformat (Row.updated_at r') = Some updated_at
                               /\ next_retry_at
                                  = t_fail_2
                                    + 2 ^ (Job.attempts job_b_acquired + 1)
                                      * us_per_second
                               /\ next_retry_at - updated_at
                                  = 2 ^ (Job.attempts job_b_acquired + 1)
                                    * us_per_second
                                    - (t_fail_3 - t_fail_2)
                     else r' = r)
                  [row_b_leased] s'.
Proof.
  assert (H0 : 0 <= Job.attempts job_b_acquired) by (simpl; lia).
  assert (H1 : Job.attempts job_b_acquired + 1 < Job.max_retries job_b_acquired)
    by (simpl; lia).
  assert (H2 : in_range (t_fail_2
                         + 2 ^ (Job.attempts job_b_acquired + 1) * us_per_second)
               = true)
    by (vm_compute; reflexivity).
  assert (H3 : in_range t_fail_3 = true) by (vm_compute; reflexivity).
  split; [exact H0|]. split; [exact H1|]. split; [exact H2|]. split; [exact H3|].
  exact (retry_delay job_b_acquired "Exit code 3" 2
           t_fail_1 t_fail_2 t_fail_3 [row_b_leased] H0 H1 H2 H3).
Defined.

(** C7, as the claim has it, fails: with [backoff_base = 2] and new
    [attempts = 2] the stored [next_retry_at] and [updated_at] are
    3.999140 seconds apart, not 4: the clock moved on by 860 microseconds
    between the two readings. *)
Lemma retry_delay_exact_counterexample :
  _handle_failure job_b_acquired "Exit code 3" 2 t_fail_1 t_fail_2 t_fail_3
    [row_b_leased]
  = (job_b_failed_twice, [row_b_failed_twice], Ok tt)
  /\ Row.attempts row_b_failed_twice = 2
  /\ Row.attempts row_b_failed_twice < Row.max_retries row_b_failed_twice
  /\ (next ← Row.next_retry_at row_b_failed_twice ≫= fromisoformat;
      upd ← fromisoformat (Row.updated_at row_b_failed_twice);
      Some (next - upd)) = Some 3999140
  /\ 2 ^ 2 * us_per_second = 4000000.
Proof.
  split; [vm_compute; reflexivity|].
  split; [reflexivity|]. split; [reflexivity|].
  split; vm_compute; reflexivity.
Qed.

(** ** C1: two [acquire_job] calls at once *)

(** A call that runs alone is [acquire_job]. *)
Lemma run_alone c other (s : store) :
  at_pc c = AtSelect ->
  holds_lock other = false ->
  exists c',
    run (match acquire_select (now c) (sql_now c) s with
         | Some _ => [false; false]
         | None => [false]
         end) s c other
    = Some ((acquire_job (worker_id c) (now c) (sql_now c) s).1, c', other)
    /\ at_pc c' = Returned (acquire_job (worker_id c) (now c) (sql_now c) s).2.
Proof.
  intros Hc Ho. unfold acquire_job.
  destruct (acquire_select (now c) (sql_now c) s) as [r|] eqn:Hsel; simpl;
    unfold step; rewrite Hc, Ho, andb_false_r, Hsel; simpl.
  - destruct (acquire_lock (worker_id c) (now c) (Row.id r) s) as [s' j].
    eexists. split; reflexivity.
  - eexists. split; reflexivity.
Qed.

Lemma update_where_ids p f (s : store) :
  (forall r, Row.id (f r) = Row.id r) ->
  Row.id <$> update_where p f s = Row.id <$> s.
Proof.
  intros Hf. unfold update_where.
  induction s as [|r s IH]; simpl; [reflexivity|].
  f_equal; [|exact IH]. destruct (p r); [apply Hf | reflexivity].
Qed.

Lemma primary_key_update_where p f (s : store) :
  (forall r, Row.id (f r) = Row.id r) ->
  primary_key s -> primary_key (update_where p f s).
Proof. intros Hf. unfold primary_key. now rewrite update_where_ids. Qed.

Lemma sharing_one_store_sym s a b :
  sharing_one_store s a b -> sharing_one_store s b a.
Proof.
  intros (Hpk & Ho & Hl & Ha & Hb & Hd).
  repeat split; auto; [now rewrite andb_comm|].
  intros i j Hi Hj E. apply (Hd j i); auto.
Qed.

(** A step of one call keeps the two calls in step with the table. *)
Lemma step_sharing_one_store s a b s' a' :
  sharing_one_store s a b ->
  step a b s = Some (s', a') ->
  sharing_one_store s' a' b.
Proof.
  intros (Hpk & Ho & Hl & Ha & Hb & Hd). unfold step.
  destruct (at_pc a) as [|r|res] eqn:Hpc; [| |discriminate].
  - (* the SELECT *)
    rewrite bool_decide_eq_true_2 by assumption. simpl.
    destruct (holds_lock b) eqn:Hlb; [discriminate|].
    destruct (acquire_select (now a) (sql_now a) s) as [r|] eqn:Hsel;
      intros [= <- <-].
    + apply acquire_select_In in Hsel as [Hin Hw].
      pose proof (where_clause_state _ _ _ Hw) as Hst.
      repeat split; auto.
      unfold id_in_hand at 1. simpl. intros i j [= <-] Hj E.
      unfold id_in_hand in Hj. unfold in_step_with in Hb.
      destruct (at_pc b) as [|rb|[[jb|]|]] eqn:Hb'; try discriminate.
      * unfold holds_lock in Hlb. rewrite Hb' in Hlb. discriminate.
      * injection Hj as <-. destruct Hb as (r' & Hr' & Hst').
        rewrite <- E, (primary_key_select s r Hpk Hin) in Hr'.
        injection Hr' as <-. rewrite Hst' in Hst. destruct Hst; discriminate.
    + repeat split; auto.
  - (* the UPDATE and the read-back *)
    unfold acquire_lock.
    set (s1 := update_where _ _ s).
    intros [= <- <-].
    unfold in_step_with in Ha. rewrite Hpc in Ha. destruct Ha as [Hin Hst].
    assert (Hlb : holds_lock b = false).
    { unfold holds_lock at 1 in Hl. now rewrite Hpc in Hl. }
    assert (Hr : select_by_id (Row.id r) s1
                 = Some (lock_row (worker_id a) (isoformat (now a)) r)).
    { unfold s1. apply select_by_id_updated; [apply lock_row_id|].
      now apply primary_key_select. }
    rewrite Hr. repeat split; auto.
    + apply primary_key_update_where; [apply lock_row_id | assumption].
    + unfold in_step_with. simpl.
      destruct (_row_to_job _) as [job|] eqn:Hj; simpl; [|exact I].
      apply _row_to_job_fields in Hj as (-> & _). simpl. eauto.
    + unfold in_step_with in *.
      destruct (at_pc b) as [|rb|[[jb|]|]] eqn:Hb'; auto.
      * unfold holds_lock in Hlb. rewrite Hb' in Hlb. discriminate.
      * destruct Hb as (r' & Hr' & Hst').
        unfold s1. rewrite select_by_id_update_where, Hr' by apply lock_row_id.
        simpl. eexists. split; [reflexivity|].
        destruct (has_id (Row.id r) r'); [reflexivity | assumption].
    + intros i j Hi Hj. apply Hd; [|assumption].
      unfold id_in_hand in *. simpl in Hi. rewrite Hpc.
      destruct (_row_to_job _) as [job|] eqn:Hjob; simpl in Hi; [|discriminate].
      apply _row_to_job_fields in Hjob as (Hid & _). simpl in Hid. congruence.
Qed.

Lemma run_sharing_one_store schedule s a b s' a' b' :
  sharing_one_store s a b ->
  run schedule s a b = Some (s', a', b') ->
  sharing_one_store s' a' b'.
Proof.
  revert s a b. induction schedule as [|[|] rest IH]; simpl; intros s a b H.
  - intros [= <- <- <-]. assumption.
  - destruct (step b a s) as [[s1 b1]|] eqn:Hs; [|discriminate].
    apply IH. apply sharing_one_store_sym.
    eapply step_sharing_one_store; [|exact Hs]. now apply sharing_one_store_sym.
  - destruct (step a b s) as [[s1 a1]|] eqn:Hs; [|discriminate].
    apply IH. eapply step_sharing_one_store; eauto.
Qed.

(** What [self._lock] achieves: two calls made through one [JobStore]
    object, however they are scheduled, never return the same job. *)
Lemma one_store_object_exclusive schedule (s : store) a b s' a' b' :
  primary_key s ->
  store_object a = store_object b ->
  at_pc a = AtSelect -> at_pc b = AtSelect ->
  run schedule s a b = Some (s', a', b') ->
  forall i j, returned_id a' = Some i -> returned_id b' = Some j -> i <> j.
Proof.
  intros Hpk Ho Ha Hb Hrun.
  assert (H : sharing_one_store s a b).
  { unfold sharing_one_store, in_step_with, holds_lock, id_in_hand.
    rewrite Ha, Hb. repeat split; auto. }
  apply (run_sharing_one_store _ _ _ _ _ _ _ H) in Hrun
    as (_ & _ & _ & _ & _ & Hd).
  intros i j Hi Hj. apply Hd.
  - unfold returned_id in Hi. unfold id_in_hand.
    destruct (at_pc a') as [| |[[?|]|]]; congruence.
  - unfold returned_id in Hj. unfold id_in_hand.
    destruct (at_pc b') as [| |[[?|]|]]; congruence.
Qed.

(** C1 on the code: with a [JobStore] object each, "worker-1" and
    "worker-2" both read "job-p" as the next job before either has written
    its lease, and both calls return "job-p".  The row ends up under the
    lease of the call that wrote last. *)
Theorem two_workers_acquire_one_job :
  worker_id call_worker_1 <> worker_id call_worker_2
  /\ exists s' a b,
       run schedule_interleaved [row_pending] call_worker_1 call_worker_2
       = Some (s', a, b)
       /\ returned_id a = Some "job-p"
       /\ returned_id b = Some "job-p"
       /\ Row.locked_by <$> select_by_id "job-p" s' = Some (Some "worker-2").
Proof.
  split; [discriminate|].
  eexists _, _, _. split; [vm_compute; reflexivity|].
  repeat split.
Qed.

(** Through one [JobStore] object the second call waits for the lock: the
    same schedule cannot run, and one call after the other gives the job to
    the first only. *)
Example one_store_object_serialises :
  run schedule_interleaved [row_pending] call_shared_1 call_shared_2 = None
  /\ exists s' a b,
       run [false; false; true] [row_pending] call_shared_1 call_shared_2
       = Some (s', a, b)
       /\ returned_id a = Some "job-p"
       /\ at_pc b = Returned (Ok None).
Proof.
  split; [vm_compute; reflexivity|].
  eexists _, _, _. split; [vm_compute; reflexivity|].
  split; reflexivity.
Qed.

(** * More of the store *)

(** ** [enqueue], [get_job], [update_job], [delete_job] *)

Lemma select_by_id_app k (s1 s2 : store) :
  select_by_id k (s1 ++ s2)%list
  = match select_by_id k s1 with Some r => Some r | None => select_by_id k s2 end.
Proof.
  unfold select_by_id. induction s1 as [|r s1 IH]; simpl; [reflexivity|].
  destruct (has_id k r); [reflexivity | exact IH].
Qed.

Lemma existsb_has_id_false k (s : store) :
  existsb (has_id k) s = false <-> select_by_id k s = None.
Proof.
  split; intros H.
  - destruct (select_by_id k s) as [r|] eqn:E; [|reflexivity].
    assert (H' : existsb (has_id k) s = true) by (apply select_by_id_existsb; eauto).
    congruence.
  - destruct (existsb (has_id k) s) eqn:E; [|reflexivity].
    apply select_by_id_existsb in E as [r E]. congruence.
Qed.

Lemma binds_counts_fit job :
  counts_fit job -> binds (Job.attempts job) && binds (Job.max_retries job) = true.
Proof.
  unfold counts_fit, sqlite_integer, binds. intros [H1 H2].
  apply andb_true_intro. split; apply andb_true_intro; split;
    first [apply Z.leb_le | apply Z.ltb_lt]; lia.
Qed.

(** X1. A job enqueued under an id that is not in the table is accepted,
    and [get_job] then returns that very job; every other id reads as
    before.  (Round trip of [enqueue] and [get_job].) *)
Theorem enqueue_get_job job (s : store) :
  select_by_id (Job.id job) s = None ->
  datetimes_in_range job ->
  counts_fit job ->
  exists s',
    enqueue job s = (s', Ok true)
    /\ get_job (Job.id job) s' = Ok (Some job)
    /\ forall k, k <> Job.id job -> select_by_id k s' = select_by_id k s.
Proof.
  intros Hnew (Hc & Hu & Hn) Hfit. unfold enqueue.
  rewrite (binds_counts_fit job Hfit).
  rewrite (proj2 (existsb_has_id_false _ _) Hnew).
  eexists. split; [reflexivity|]. split.
  - unfold get_job. rewrite select_by_id_app, Hnew. simpl.
    rewrite (proj2 (has_id_true (Job.id job) (row_of_job job)) eq_refl).
    now rewrite _row_to_job_row_of_job.
  - intros k Hk. rewrite select_by_id_app.
    destruct (select_by_id k s); [reflexivity|]. simpl.
    assert (E : has_id k (row_of_job job) = false)
      by (apply has_id_false; simpl; congruence).
    now rewrite E.
Qed.

Lemma job_pending_in_range : datetimes_in_range job_pending.
Proof.
  split; [vm_compute; reflexivity|]. split; [vm_compute; reflexivity|].
  intros n H. discriminate H.
Qed.

Lemma enqueue_get_job_witness :
  select_by_id (Job.id job_pending) [row_dead] = None
  /\ datetimes_in_range job_pending
  /\ counts_fit job_pending
  /\ exists s',
       enqueue job_pending [row_dead] = (s', Ok true)
       /\ get_job (Job.id job_pending) s' = Ok (Some job_pending)
       /\ forall k, k <> Job.id job_pending ->
                    select_by_id k s' = select_by_id k [row_dead].
Proof.
  assert (H : select_by_id (Job.id job_pending) [row_dead] = None) by reflexivity.
  assert (Hfit : counts_fit job_pending)
    by (split; unfold sqlite_integer; simpl; lia).
  split; [exact H|]. split; [exact job_pending_in_range|]. split; [exact Hfit|].
  exact (enqueue_get_job job_pending [row_dead] H job_pending_in_range Hfit).
Defined.

(** X2. [update_job] under an id that has no row answers [False] and leaves
    the table as it is: it never inserts. *)
Theorem update_job_missing job now (s : store) :
  counts_fit job ->
  select_by_id (Job.id job) s = None ->
  update_job job now s = (s, false).
Proof.
  intros _ H. unfold update_job.
  rewrite (proj2 (existsb_has_id_false _ _) H). f_equal.
  unfold update_where. rewrite <- (map_id s) at 2. apply map_ext_in.
  intros r Hr. rewrite select_by_id_None in H.
  assert (E : has_id (Job.id job) r = false) by (apply has_id_false, H, Hr).
  now rewrite E.
Qed.

Lemma update_job_missing_witness :
  counts_fit job_pending
  /\ select_by_id (Job.id job_pending) [row_dead] = None
  /\ update_job job_pending t_12_00_10 [row_dead] = ([row_dead], false).
Proof.
  assert (Hfit : counts_fit job_pending)
    by (split; unfold sqlite_integer; simpl; lia).
  assert (H : select_by_id (Job.id job_pending) [row_dead] = None) by reflexivity.
  split; [exact Hfit|].
  split; [exact H | exact (update_job_missing job_pending t_12_00_10 _ Hfit H)].
Defined.

(** X3. [update_job] under an id that has a row answers [True], and
    [get_job] then returns the job it was given, with the [created_at] of
    the row and [updated_at] the instant of the update; the lease is gone
    and every other id reads as before. *)
Theorem update_job_get_job job now (s : store) r created :
  counts_fit job ->
  select_by_id (Job.id job) s = Some r ->
  fromisoformat (Row.created_at r) = Some created ->
  in_range now = true ->
  (forall n, Job.next_retry_at job = Some n -> in_range n = true) ->
  exists s' r',
    update_job job now s = (s', true)
    /\ get_job (Job.id job) s' = Ok (Some (as_updated job created now))
    /\ select_by_id (Job.id job) s' = Some r'
    /\ Row.locked_by r' = None /\ Row.locked_at r' = None
    /\ forall k, k <> Job.id job -> select_by_id k s' = select_by_id k s.
Proof.
  intros _ Hr Hc Hnow Hn. unfold update_job.
  assert (Hex : existsb (has_id (Job.id job)) s = true)
    by (apply select_by_id_existsb; eauto).
  rewrite Hex. eexists _, (write_job job now r). split; [reflexivity|].
  assert (Hsel : select_by_id (Job.id job)
                   (update_where (has_id (Job.id job)) (write_job job now) s)
                 = Some (write_job job now r))
    by (apply select_by_id_updated; [apply write_job_id | exact Hr]).
  split; [|split; [exact Hsel|split; [reflexivity|split; [reflexivity|]]]].
  - unfold get_job. rewrite Hsel. unfold _row_to_job, as_updated.
    apply select_by_id_Some in Hr as [_ Hid].
    destruct job as [i c st a m ca ua nr e].
    cbn [write_job Row.created_at Row.updated_at Row.next_retry_at Row.id
         Row.command Row.state Row.attempts Row.max_retries Row.error_message
         Job.id Job.command Job.state Job.attempts Job.max_retries
         Job.created_at Job.updated_at Job.next_retry_at Job.error_message]
      in Hid, Hn |- *.
    rewrite Hc, (fromisoformat_isoformat _ Hnow), Hid.
    destruct nr as [n|]; cbn [fmap option_fmap option_map]; [|reflexivity].
    pose proof (fromisoformat_isoformat n (Hn n eq_refl)) as Hrt.
    destruct (isoformat n) as [|ch txt]; [discriminate Hrt|].
    now rewrite Hrt.
  - intros k Hk. apply update_where_other; [apply write_job_id | congruence].
Qed.

Lemma update_job_get_job_witness :
  counts_fit job_b_failed_twice
  /\ select_by_id (Job.id job_b_failed_twice) [row_b_leased] = Some row_b_leased
  /\ fromisoformat (Row.created_at row_b_leased) = Some 1704110400000000
  /\ in_range t_fail_3 = true
  /\ (forall n, Job.next_retry_at job_b_failed_twice = Some n -> in_range n = true)
  /\ exists s' r',
       update_job job_b_failed_twice t_fail_3 [row_b_leased] = (s', true)
       /\ get_job (Job.id job_b_failed_twice) s'
          = Ok (Some (as_updated job_b_failed_twice 1704110400000000 t_fail_3))
       /\ select_by_id (Job.id job_b_failed_twice) s' = Some r'
       /\ Row.locked_by r' = None /\ Row.locked_at r' = None
       /\ forall k, k <> Job.id job_b_failed_twice ->
                    select_by_id k s' = select_by_id k [row_b_leased].
Proof.
  assert (H1 : select_by_id (Job.id job_b_failed_twice) [row_b_leased]
               = Some row_b_leased) by reflexivity.
  assert (H2 : fromisoformat (Row.created_at row_b_leased) = Some 1704110400000000)
    by (vm_compute; reflexivity).
  assert (H3 : in_range t_fail_3 = true) by (vm_compute; reflexivity).
  assert (H4 : forall n, Job.next_retry_at job_b_failed_twice = Some n ->
                         in_range n = true)
    by (intros n [= <-]; vm_compute; reflexivity).
  assert (Hfit : counts_fit job_b_failed_twice)
    by (split; unfold sqlite_integer; simpl; lia).
  split; [exact Hfit|].
  split; [exact H1|]. split; [exact H2|]. split; [exact H3|]. split; [exact H4|].
  exact (update_job_get_job job_b_failed_twice t_fail_3 _ _ _ Hfit H1 H2 H3 H4).
Defined.

Lemma select_by_id_filter_other k k' (s : store) :
  k' <> k ->
  select_by_id k' (List.filter (fun r => negb (has_id k r)) s) = select_by_id k' s.
Proof.
  intros Hne. unfold select_by_id.
  induction s as [|r s IH]; simpl; [reflexivity|].
  destruct (has_id k r) eqn:E; simpl.
  - apply has_id_true in E.
    assert (E' : has_id k' r = false) by (apply has_id_false; congruence).
    now rewrite E'.
  - destruct (has_id k' r); [reflexivity | exact IH].
Qed.

(** X4. [delete_job] answers whether the id had a row; afterwards the id
    has none, and every other id reads as before.  On an id without a row
    the table is left as it is. *)
Theorem delete_job_removes job_id (s : store) :
  let '(s', deleted) := delete_job job_id s in
  (deleted = true <-> exists r, select_by_id job_id s = Some r)
  /\ select_by_id job_id s' = None
  /\ (forall k, k <> job_id -> select_by_id k s' = select_by_id k s)
  /\ (deleted = false -> s' = s).
Proof.
  unfold delete_job. split; [apply select_by_id_existsb|]. split.
  - apply select_by_id_None. intros r Hr. apply filter_In in Hr as [_ Hr].
    apply has_id_false. now destruct (has_id job_id r).
  - split; [intros k Hk; now apply select_by_id_filter_other|].
    intros H. apply existsb_has_id_false in H. rewrite select_by_id_None in H.
    induction s as [|r s IH]; simpl; [reflexivity|].
    assert (E : has_id job_id r = false) by (apply has_id_false, H; now left).
    rewrite E. simpl. f_equal. apply IH. intros r' Hr'. apply H. now right.
Qed.

(** ** [clear_locks] *)

(** X5. [clear_locks(worker_id)], as a worker calls it when it stops, gives
    back every PROCESSING job under that worker's lease (state PENDING, no
    lease, all else as it was) and leaves every other row as it is, the
    jobs other workers hold included. *)
Theorem clear_locks_of_worker w sql_now (s : store) :
  w <> "" ->
  Forall2 (fun r r' =>
             if bool_decide (Row.locked_by r = Some w /\ Row.state r = PROCESSING)
             then released r r' else r' = r)
          s (clear_locks (Some w) sql_now s).
Proof.
  intros Hw. unfold clear_locks. rewrite bool_decide_eq_false_2 by assumption.
  unfold update_where, held_by.
  induction s as [|r s IH]; simpl; constructor; auto.
  destruct (bool_decide_reflect (Row.locked_by r = Some w)) as [E1|E1];
    destruct (bool_decide_reflect (Row.state r = PROCESSING)) as [E2|E2]; simpl.
  - rewrite bool_decide_eq_true_2 by auto. apply unlock_row_released.
  - rewrite bool_decide_eq_false_2 by tauto. reflexivity.
  - rewrite bool_decide_eq_false_2 by tauto. reflexivity.
  - rewrite bool_decide_eq_false_2 by tauto. reflexivity.
Qed.

Lemma clear_locks_of_worker_witness :
  "worker-1" <> ""
  /\ Forall2 (fun r r' =>
                if bool_decide (Row.locked_by r = Some "worker-1"
                                /\ Row.state r = PROCESSING)
                then released r r' else r' = r)
             [row_b_leased; row_ghost]
             (clear_locks (Some "worker-1") t_12_00_10 [row_b_leased; row_ghost]).
Proof.
  assert (H : "worker-1" <> "") by discriminate.
  split; [exact H|].
  exact (clear_locks_of_worker "worker-1" t_12_00_10 [row_b_leased; row_ghost] H).
Defined.

Lemma update_where_idempotent p f (s : store) :
  (forall r, p r = true -> p (f r) = false) ->
  update_where p f (update_where p f s) = update_where p f s.
Proof.
  intros H. unfold update_where. rewrite map_map. apply map_ext.
  intros r. destruct (p r) eqn:E; [|now rewrite E].
  now rewrite (H r E).
Qed.

(** X6. [clear_locks] is idempotent, with or without a worker id: a second
    call (at the same reading of SQLite's clock) changes nothing. *)
Theorem clear_locks_idempotent w sql_now (s : store) :
  clear_locks w sql_now (clear_locks w sql_now s) = clear_locks w sql_now s.
Proof.
  assert (Hstale : forall thr r, stale thr r = true -> stale thr (unlock_row r) = false).
  { intros thr r _. unfold stale. simpl. reflexivity. }
  assert (Hheld : forall x r, held_by x r = true -> held_by x (unlock_row r) = false).
  { intros x r _. unfold held_by. simpl. reflexivity. }
  unfold clear_locks. destruct w as [x|].
  - destruct (bool_decide (x = "")); apply update_where_idempotent; auto.
  - apply update_where_idempotent; auto.
Qed.

(** ** What every run of calls keeps *)

Lemma acquire_job_table w now sql (s : store) :
  (acquire_job w now sql s).1
  = match acquire_select now sql s with
    | Some r => update_where (has_id (Row.id r)) (lock_row w (isoformat now)) s
    | None => s
    end.
Proof. unfold acquire_job. destruct (acquire_select now sql s); reflexivity. Qed.

Lemma clear_locks_table w sql (s : store) :
  exists p, clear_locks w sql s = update_where p unlock_row s.
Proof.
  unfold clear_locks. destruct w as [x|]; [destruct (bool_decide (x = ""))|]; eauto.
Qed.

Lemma primary_key_filter p (s : store) :
  primary_key s -> primary_key (List.filter p s).
Proof.
  unfold primary_key. induction s as [|r s IH]; cbn [List.filter]; [auto|].
  rewrite fmap_cons, NoDup_cons. intros [Hr Hs].
  destruct (p r); [|auto]. rewrite fmap_cons, NoDup_cons. split; [|auto].
  intros Hin. apply Hr. apply list_elem_of_fmap in Hin as (x & -> & Hx).
  apply list_elem_of_fmap. exists x. split; [reflexivity|].
  apply list_elem_of_In. apply list_elem_of_In, filter_In in Hx. tauto.
Qed.

Lemma primary_key_perform s c : primary_key s -> primary_key (perform s c).
Proof.
  intros H. destruct c as [job|w now sql|job now|k|w sql]; simpl.
  - unfold enqueue. destruct (binds _ && binds _); [|assumption].
    destruct (existsb (has_id (Job.id job)) s) eqn:E; [assumption|].
    simpl. unfold primary_key. rewrite fmap_app. apply NoDup_app.
    split; [assumption|]. split; [|apply NoDup_singleton].
    intros x Hx Hx'. apply list_elem_of_singleton in Hx'. subst x.
    apply list_elem_of_fmap in Hx as (r & Hid & Hr).
    apply existsb_has_id_false in E. rewrite select_by_id_None in E.
    apply (E r); [now apply list_elem_of_In | now symmetry].
  - rewrite acquire_job_table. destruct (acquire_select now sql s); [|assumption].
    apply primary_key_update_where; [apply lock_row_id | assumption].
  - apply primary_key_update_where; [apply write_job_id | assumption].
  - now apply primary_key_filter.
  - destruct (clear_locks_table w sql s) as [p ->].
    apply primary_key_update_where; [apply unlock_row_id | assumption].
Qed.

Lemma Forall_update_where (Q : Row.t -> Prop) p f (s : store) :
  (forall r, Q (f r)) -> Forall Q s -> Forall Q (update_where p f s).
Proof.
  intros Hf Hs. unfold update_where. induction Hs; simpl; constructor; auto.
  destruct (p x); auto.
Qed.

Lemma lease_ok_perform s c : Forall lease_ok s -> Forall lease_ok (perform s c).
Proof.
  intros H. destruct c as [job|w now sql|job now|k|w sql]; simpl.
  - unfold enqueue. destruct (binds _ && binds _); [|assumption].
    destruct (existsb _ s); [assumption|]. simpl.
    apply Forall_app. split; [assumption|]. constructor; [|constructor].
    split; simpl; [tauto | congruence].
  - rewrite acquire_job_table. destruct (acquire_select now sql s); [|assumption].
    apply Forall_update_where; [|assumption].
    intros r. split; simpl; [split; discriminate | reflexivity].
  - apply Forall_update_where; [|assumption].
    intros r. split; simpl; [tauto | congruence].
  - rewrite Forall_forall in *. intros r Hr. apply H.
    apply list_elem_of_In. apply list_elem_of_In, filter_In in Hr. tauto.
  - destruct (clear_locks_table w sql s) as [p ->].
    apply Forall_update_where; [|assumption].
    intros r. split; simpl; [tauto | congruence].
Qed.

Lemma run_of_calls_keeps (calls : list store_call) (s : store) :
  primary_key s /\ Forall lease_ok s ->
  primary_key (fold_left perform calls s)
  /\ Forall lease_ok (fold_left perform calls s).
Proof.
  revert s. induction calls as [|c calls IH]; intros s [H1 H2]; simpl; [auto|].
  apply IH. split; [now apply primary_key_perform | now apply lease_ok_perform].
Qed.

Lemma empty_table_ok : primary_key [] /\ Forall lease_ok ([] : store).
Proof. split; [apply NoDup_nil_2 | constructor]. Qed.

(** X7. Whatever calls are made on a [JobStore], in whatever order, the
    table never holds two rows under one id, a row has [locked_by] exactly
    when it has [locked_at], and only PROCESSING rows carry a lease. *)
Theorem table_invariants (calls : list store_call) :
  primary_key (table_after calls) /\ Forall lease_ok (table_after calls).
Proof. apply run_of_calls_keeps, empty_table_ok. Qed.

Lemma acquire_select_without_threshold now sql sql' (s : store) :
  Forall lease_ok s -> acquire_select now sql s = acquire_select now sql' s.
Proof.
  intros H. unfold acquire_select, scan. rewrite Forall_forall in H. f_equal. f_equal.
  - apply filter_ext_in. intros r Hr. apply list_elem_of_In, H in Hr as [_ Hp].
    unfold pending_clause, lock_clause.
    destruct (Row.locked_by r) as [w|]; simpl; [|reflexivity].
    rewrite (Hp ltac:(discriminate)). reflexivity.
  - apply filter_ext_in. intros r Hr. apply list_elem_of_In, H in Hr as [_ Hp].
    unfold failed_clause, lock_clause.
    destruct (Row.locked_by r) as [w|]; simpl; [|reflexivity].
    rewrite (Hp ltac:(discriminate)). reflexivity.
Qed.

(** X8. On a table that calls on a [JobStore] have produced, the age of a
    lease plays no part in [acquire_job]: whatever SQLite's clock reads,
    the same job is selected and the same table and answer result.  (The
    rows the stale-lease test of the WHERE clause could admit are PENDING
    or FAILED rows under a lease, and no call leaves such a row.) *)
Theorem acquire_job_ignores_lease_age (calls : list store_call) w now sql sql' :
  acquire_job w now sql (table_after calls)
  = acquire_job w now sql' (table_after calls).
Proof.
  unfold acquire_job.
  rewrite (acquire_select_without_threshold now sql sql');
    [reflexivity | apply run_of_calls_keeps, empty_table_ok].
Qed.

(** X9. [acquire_job] answers [None] exactly when no row is PENDING, or
    FAILED with its retry instant reached, under no lease or a stale one;
    the table is then left as it is. *)
Theorem acquire_job_nothing_eligible w now sql (s : store) :
  (forall r, In r s ->
             where_clause (isoformat now) (sqlite_now_minus_5_minutes sql) r = false)
  <-> acquire_job w now sql s = (s, Ok None).
Proof.
  unfold acquire_job, acquire_select. split.
  - intros H.
    assert (E : scan (isoformat now) (sqlite_now_minus_5_minutes sql) s = []).
    { destruct (scan _ _ s) as [|r l] eqn:E; [reflexivity|].
      assert (Hr : In r (scan (isoformat now) (sqlite_now_minus_5_minutes sql) s))
        by (rewrite E; now left).
      apply scan_In in Hr as [Hin Hw]. rewrite (H r Hin) in Hw. discriminate. }
    now rewrite E.
  - destruct (order_by_created_at_limit_1 _) as [r0|] eqn:E.
    + unfold acquire_lock.
      destruct (select_by_id _ _) as [r1|]; [destruct (_row_to_job r1)|];
        simpl; intros [= _ ?].
    + intros _ r Hr. apply limit_1_None in E.
      destruct (where_clause _ _ r) eqn:Hw; [|reflexivity].
      assert (Hs : In r (scan (isoformat now) (sqlite_now_minus_5_minutes sql) s))
        by (apply scan_In; auto).
      rewrite E in Hs. destruct Hs.
Qed.

(** ** The order of the texts is the order of the instants *)

(** Days before the March-based year [Y] (up to a constant), as
    [days_from_civil] counts them. *)
Lemma year_start_step (Y Y' : Z) :
  Y < Y' ->
  let g Y := Y / 400 * 146097 + ((Y - Y / 400 * 400) * 365
             + (Y - Y / 400 * 400) / 4 - (Y - Y / 400 * 400) / 100) in
  g Y + 365 + (if is_leap (Y + 1) then 1 else 0) <= g Y'.
Proof.
  intros H g. subst g. cbv beta.
  assert (L : (if is_leap (Y + 1) then 1 else 0) = 1 ->
              (Y + 1) mod 4 = 0 /\ ((Y + 1) mod 100 <> 0 \/ (Y + 1) mod 400 = 0)).
  { unfold is_leap.
    destruct (Z.eqb_spec ((Y + 1) mod 4) 0); simpl; [|discriminate].
    destruct (Z.eqb_spec ((Y + 1) mod 100) 0); simpl; [|auto].
    destruct (Z.eqb_spec ((Y + 1) mod 400) 0); simpl; [auto|discriminate]. }
  assert (B : 0 <= (if is_leap (Y + 1) then 1 else 0) <= 1)
    by (destruct (is_leap (Y + 1)); lia).
  set (l := if is_leap (Y + 1) then 1 else 0) in *. clearbody l.
  Z.to_euclidean_division_equations. lia.
Qed.

Lemma month_start_step m m' :
  0 <= m -> m < m' -> m' <= 11 ->
  (153 * m + 2) / 5 + (if m =? 11 then 29 else
                       if (m =? 1) || (m =? 3) || (m =? 6) || (m =? 8) then 30 else 31)
  <= (153 * m' + 2) / 5.
Proof.
  intros H0 H1 H2.
  assert (E : m = 0 \/ m = 1 \/ m = 2 \/ m = 3 \/ m = 4 \/ m = 5 \/ m = 6
              \/ m = 7 \/ m = 8 \/ m = 9 \/ m = 10) by lia.
  destruct E as [-> | [-> | [-> | [-> | [-> | [-> | [-> | [-> | [-> | [-> | ->]]]]]]]]]];
    cbn [Z.eqb Pos.eqb orb]; Z.to_euclidean_division_equations; lia.
Qed.

Lemma days_from_civil_lt y m d y' m' d' :
  1 <= m <= 12 -> 1 <= d <= days_in_month y m ->
  1 <= m' <= 12 -> 1 <= d' <= days_in_month y' m' ->
  date_lt y m d y' m' d' ->
  days_from_civil y m d < days_from_civil y' m' d'.
Proof.
  intros Hm Hd Hm' Hd' Hlt. unfold days_from_civil. cbv zeta.
  set (Y := if m <=? 2 then y - 1 else y).
  set (Y' := if m' <=? 2 then y' - 1 else y').
  set (mp := if 2 <? m then m - 3 else m + 9).
  set (mp' := if 2 <? m' then m' - 3 else m' + 9).
  assert (HY : (m <= 2 /\ Y = y - 1 /\ mp = m + 9) \/ (2 < m /\ Y = y /\ mp = m - 3)).
  { subst Y mp. destruct (Z.leb_spec m 2), (Z.ltb_spec 2 m); lia. }
  assert (HY' : (m' <= 2 /\ Y' = y' - 1 /\ mp' = m' + 9)
                \/ (2 < m' /\ Y' = y' /\ mp' = m' - 3)).
  { subst Y' mp'. destruct (Z.leb_spec m' 2), (Z.ltb_spec 2 m'); lia. }
  assert (Hdim : d <= (if mp =? 11 then 29 else
                       if (mp =? 1) || (mp =? 3) || (mp =? 6) || (mp =? 8)
                       then 30 else 31)
                 /\ (mp = 11 -> d <= 28 + (if is_leap (Y + 1) then 1 else 0))).
  { destruct (days_in_month_spec y m) as [[E1 E2]|[[E1 E2]|(E1 & E2 & E3 & E4 & E5 & E6)]].
    - assert (Emp : mp = 11) by lia. assert (EY : Y + 1 = y) by lia.
      rewrite Emp, EY. cbn [Z.eqb Pos.eqb]. rewrite E2 in Hd.
      destruct (is_leap y); lia.
    - assert (Emp : mp = 1 \/ mp = 3 \/ mp = 6 \/ mp = 8) by lia.
      split; [|lia]. destruct Emp as [-> | [-> | [-> | ->]]]; cbn [Z.eqb Pos.eqb orb]; lia.
    - split; [|lia].
      rewrite E6 in Hd.
      destruct (Z.eqb_spec mp 11); [lia|].
      destruct (Z.eqb_spec mp 1); [lia|]. destruct (Z.eqb_spec mp 3); [lia|].
      destruct (Z.eqb_spec mp 6); [lia|]. destruct (Z.eqb_spec mp 8); [lia|].
      cbn [orb]. lia. }
  clearbody Y Y' mp mp'.
  assert (Hmp : 0 <= mp <= 11) by lia.
  assert (Hmp' : 0 <= mp' <= 11) by lia.
  assert (Hdoy : (153 * mp + 2) / 5 + d - 1 <= 364 + (if is_leap (Y + 1) then 1 else 0)).
  { destruct Hdim as [Hdim1 Hdim2].
    destruct (Z.eq_dec mp 11) as [E|E].
    - specialize (Hdim2 E). subst mp. change ((153 * 11 + 2) / 5) with 337. lia.
    - pose proof (month_start_step mp 11 ltac:(lia) ltac:(lia) ltac:(lia)) as H.
      change ((153 * 11 + 2) / 5) with 337 in H.
      assert (0 <= (if is_leap (Y + 1) then 1 else 0)) by (destruct (is_leap _); lia).
      lia. }
  assert (Hdoy' : 0 <= (153 * mp' + 2) / 5 + d' - 1).
  { assert (0 <= (153 * mp' + 2) / 5) by (apply Z.div_pos; lia). lia. }
  assert (Hcase : Y < Y' \/ (Y = Y' /\ (mp < mp' \/ (mp = mp' /\ d < d')))).
  { unfold date_lt in Hlt. lia. }
  destruct Hcase as [Hc|[-> [Hc|[-> Hc]]]].
  - pose proof (year_start_step Y Y' Hc) as H. cbv zeta beta in H.
    set (q := (153 * mp + 2) / 5) in *. set (q' := (153 * mp' + 2) / 5) in *.
    clearbody q q'. lia.
  - destruct Hdim as [Hdim1 _].
    pose proof (month_start_step mp mp' ltac:(lia) Hc ltac:(lia)) as H.
    assert (Hne : mp <> 11) by lia.
    set (q := (153 * mp + 2) / 5) in *. set (q' := (153 * mp' + 2) / 5) in *.
    clearbody q q'. lia.
  - lia.
Qed.

Lemma isoformat_fields t :
  in_range t = true ->
  exists y m d hh mm ss us,
    isoformat t = fields_text y m d hh mm ss us
    /\ 1 <= y <= 9999 /\ 1 <= m <= 12 /\ 1 <= d <= days_in_month y m
    /\ 0 <= hh < 24 /\ 0 <= mm < 60 /\ 0 <= ss < 60 /\ 0 <= us < 1000000
    /\ t = days_from_civil y m d * 86400000000
           + ((hh * 60 + mm) * 60 + ss) * 1000000 + us.
Proof.
  unfold in_range, dt_min, dt_max. rewrite andb_true_iff, !Z.leb_le. intros Ht.
  unfold isoformat, date_text, time_text.
  set (days := t / us_per_day).
  set (rest := t mod us_per_day).
  set (secs := rest / us_per_second).
  set (us := rest mod us_per_second).
  assert (Hrest : 0 <= rest < 86400000000)
    by (apply (Z.mod_pos_bound t 86400000000); lia).
  assert (Hdays : -719162 <= days <= 2932896).
  { unfold days, us_per_day, us_per_second. split.
    - apply Z.div_le_lower_bound; lia.
    - apply Z.lt_succ_r, Z.div_lt_upper_bound; lia. }
  assert (Hsecs : 0 <= secs < 86400).
  { unfold secs, us_per_second. split.
    - apply Z.div_pos; lia.
    - apply Z.div_lt_upper_bound; lia. }
  assert (Hus : 0 <= us < 1000000)
    by (apply (Z.mod_pos_bound rest 1000000); lia).
  assert (Ht' : t = days * 86400000000 + (secs * 1000000 + us)).
  { unfold days, secs, us, rest, us_per_day, us_per_second.
    pose proof (Z.div_mod t (86400 * 1000000) ltac:(lia)).
    pose proof (Z.div_mod (t mod (86400 * 1000000)) 1000000 ltac:(lia)). lia. }
  destruct (civil_from_days_inverse days Hdays)
    as (y & m & d & -> & Hy & Hm & Hd & Hback).
  set (hh := secs / 3600). set (mm := secs / 60 mod 60). set (ss := secs mod 60).
  assert (Hhh : 0 <= hh < 24).
  { unfold hh. split; [apply Z.div_pos; lia | apply Z.div_lt_upper_bound; lia]. }
  assert (Hmm : 0 <= mm < 60) by (apply Z.mod_pos_bound; lia).
  assert (Hss : 0 <= ss < 60) by (apply Z.mod_pos_bound; lia).
  assert (Hhms : (hh * 60 + mm) * 60 + ss = secs).
  { unfold hh, mm, ss.
    pose proof (Z.div_mod secs 60 ltac:(lia)).
    pose proof (Z.div_mod (secs / 60) 60 ltac:(lia)).
    rewrite Z.div_div in H0 by lia. change (60 * 60) with 3600 in H0. lia. }
  exists y, m, d, hh, mm, ss, us.
  split; [|repeat (split; [lia|]); lia].
  unfold fields_text.
  destruct (us =? 0);
    repeat first [rewrite pad_append | rewrite append_String | rewrite append_empty];
    reflexivity.
Qed.

Lemma digit_compare a b :
  Ascii.compare (digit a) (digit b) = (a mod 10 ?= b mod 10).
Proof.
  unfold digit.
  assert (Ha : 0 <= a mod 10 < 10) by (apply Z.mod_pos_bound; lia).
  assert (Hb : 0 <= b mod 10 < 10) by (apply Z.mod_pos_bound; lia).
  assert (Ea : a mod 10 = 0 \/ a mod 10 = 1 \/ a mod 10 = 2 \/ a mod 10 = 3
               \/ a mod 10 = 4 \/ a mod 10 = 5 \/ a mod 10 = 6 \/ a mod 10 = 7
               \/ a mod 10 = 8 \/ a mod 10 = 9) by lia.
  assert (Eb : b mod 10 = 0 \/ b mod 10 = 1 \/ b mod 10 = 2 \/ b mod 10 = 3
               \/ b mod 10 = 4 \/ b mod 10 = 5 \/ b mod 10 = 6 \/ b mod 10 = 7
               \/ b mod 10 = 8 \/ b mod 10 = 9) by lia.
  destruct Ea as [-> | [-> | [-> | [-> | [-> | [-> | [-> | [-> | [-> | ->]]]]]]]]];
    destruct Eb as [-> | [-> | [-> | [-> | [-> | [-> | [-> | [-> | [-> | ->]]]]]]]]];
    reflexivity.
Qed.

Lemma compare_pad w a b x y :
  0 <= a < 10 ^ Z.of_nat w -> 0 <= b < 10 ^ Z.of_nat w ->
  String.compare (pad w a x) (pad w b y) = then_by (a ?= b) (String.compare x y).
Proof.
  revert a b x y. induction w as [|w IH]; intros a b x y Ha Hb.
  - simpl in *. assert (a = 0) by lia. assert (b = 0) by lia. subst. reflexivity.
  - rewrite Nat2Z.inj_succ, Z.pow_succ_r in Ha, Hb by lia.
    cbn [pad]. rewrite IH by (split; [apply Z.div_pos; lia | apply Z.div_lt_upper_bound; lia]).
    cbn [String.compare]. rewrite digit_compare.
    pose proof (Z.div_mod a 10 ltac:(lia)). pose proof (Z.div_mod b 10 ltac:(lia)).
    pose proof (Z.mod_pos_bound a 10 ltac:(lia)).
    pose proof (Z.mod_pos_bound b 10 ltac:(lia)).
    destruct (Z.compare_spec (a / 10) (b / 10));
      destruct (Z.compare_spec (a mod 10) (b mod 10));
      destruct (Z.compare_spec a b); cbn [then_by]; try reflexivity; lia.
Qed.

Lemma compare_sep c x y :
  String.compare (String c x) (String c y) = String.compare x y.
Proof. cbn [String.compare]. now rewrite ascii_compare_refl. Qed.

Lemma compare_fields y m d hh mm ss us y' m' d' hh' mm' ss' us' :
  0 <= y < 10000 -> 0 <= m < 100 -> 0 <= d < 100 -> 0 <= hh < 100 ->
  0 <= mm < 100 -> 0 <= ss < 100 -> 0 <= us < 1000000 ->
  0 <= y' < 10000 -> 0 <= m' < 100 -> 0 <= d' < 100 -> 0 <= hh' < 100 ->
  0 <= mm' < 100 -> 0 <= ss' < 100 -> 0 <= us' < 1000000 ->
  String.compare (fields_text y m d hh mm ss us) (fields_text y' m' d' hh' mm' ss' us')
  = then_by (y ?= y') (then_by (m ?= m') (then_by (d ?= d') (then_by (hh ?= hh')
      (then_by (mm ?= mm') (then_by (ss ?= ss') (us ?= us')))))).
Proof.
  intros. unfold fields_text.
  repeat first [rewrite compare_pad by (simpl; lia) | rewrite compare_sep].
  do 6 f_equal.
  destruct (Z.eqb_spec us 0) as [E|E], (Z.eqb_spec us' 0) as [E'|E'].
  - subst. reflexivity.
  - subst. cbn [String.compare]. destruct (Z.compare_spec 0 us'); [lia|reflexivity|lia].
  - subst. cbn [String.compare]. destruct (Z.compare_spec us 0); [lia|lia|reflexivity].
  - rewrite compare_sep, compare_pad by (simpl; lia).
    cbn [String.compare]. destruct (us ?= us'); reflexivity.
Qed.

Lemma isoformat_compare a b :
  in_range a = true -> in_range b = true ->
  String.compare (isoformat a) (isoformat b) = (a ?= b).
Proof.
  intros Ha Hb.
  destruct (isoformat_fields a Ha)
    as (y & m & d & hh & mm & ss & us & -> & Hy & Hm & Hd & Hhh & Hmm & Hss & Hus & Ea).
  destruct (isoformat_fields b Hb)
    as (y' & m' & d' & hh' & mm' & ss' & us' & -> & Hy' & Hm' & Hd' & Hhh' & Hmm'
        & Hss' & Hus' & Eb).
  assert (Hlim : d <= 31).
  { unfold days_in_month in Hd.
    destruct (m =? 2); [destruct (is_leap y)|destruct (_ || _)]; lia. }
  assert (Hlim' : d' <= 31).
  { unfold days_in_month in Hd'.
    destruct (m' =? 2); [destruct (is_leap y')|destruct (_ || _)]; lia. }
  rewrite compare_fields by lia.
  pose proof (days_from_civil_lt y m d y' m' d' Hm Hd Hm' Hd') as Hlt.
  pose proof (days_from_civil_lt y' m' d' y m d Hm' Hd' Hm Hd) as Hgt.
  unfold date_lt in Hlt, Hgt.
  set (D := days_from_civil y m d) in *. set (D' := days_from_civil y' m' d') in *.
  assert (HD : y = y' -> m = m' -> d = d' -> D = D') by (intros; subst; reflexivity).
  clearbody D D'. symmetry.
  destruct (Z.compare_spec y y'); cbn [then_by];
    [|apply Z.compare_lt_iff; lia | apply Z.compare_gt_iff; lia].
  destruct (Z.compare_spec m m'); cbn [then_by];
    [|apply Z.compare_lt_iff; lia | apply Z.compare_gt_iff; lia].
  destruct (Z.compare_spec d d'); cbn [then_by];
    [|apply Z.compare_lt_iff; lia | apply Z.compare_gt_iff; lia].
  assert (E : D = D') by auto. clear Hlt Hgt HD.
  destruct (Z.compare_spec hh hh'); cbn [then_by];
    [|apply Z.compare_lt_iff; lia | apply Z.compare_gt_iff; lia].
  destruct (Z.compare_spec mm mm'); cbn [then_by];
    [|apply Z.compare_lt_iff; lia | apply Z.compare_gt_iff; lia].
  destruct (Z.compare_spec ss ss'); cbn [then_by];
    [|apply Z.compare_lt_iff; lia | apply Z.compare_gt_iff; lia].
  destruct (Z.compare_spec us us');
    [apply Z.compare_eq_iff; lia | apply Z.compare_lt_iff; lia | apply Z.compare_gt_iff; lia].
Qed.

Lemma text_le_isoformat n now :
  in_range n = true -> in_range now = true ->
  text_le (Some (isoformat n)) (isoformat now) = (n <=? now).
Proof.
  intros Hn Hnow. unfold text_le, String.leb, Z.leb.
  rewrite isoformat_compare by assumption. reflexivity.
Qed.

Lemma string_leb_isoformat a b :
  in_range a = true -> in_range b = true ->
  String.leb (isoformat a) (isoformat b) = (a <=? b).
Proof. apply text_le_isoformat. Qed.

(** X10. For a retry instant written as a naive datetime, which is how
    [_handle_failure] writes it ([datetime.utcnow()] plus the delay), the
    test [next_retry_at <= ?] of [acquire_job], made by SQLite on two texts,
    is the comparison of the two instants: a FAILED row under no lease,
    whose [next_retry_at] is the [isoformat] text of the naive datetime
    [n], satisfies the WHERE clause at [now] exactly when [n <= now].  (A
    [next_retry_at] text with a UTC offset is compared as a text all the
    same, and not by its instant: [texts_with_offset] below.) *)
Theorem failed_job_due_from_retry_instant r n now threshold :
  Row.state r = FAILED ->
  Row.locked_by r = None ->
  Row.next_retry_at r = Some (isoformat n) ->
  in_range n = true -> in_range now = true ->
  where_clause (isoformat now) threshold r = true <-> n <= now.
Proof.
  intros Hst Hl Hn Rn Rnow.
  unfold where_clause, pending_clause, failed_clause, lock_clause.
  rewrite Hst, Hl, Hn, (text_le_isoformat n now Rn Rnow).
  rewrite bool_decide_eq_false_2 by discriminate.
  rewrite bool_decide_eq_true_2 by reflexivity.
  cbn [is_null orb andb]. rewrite andb_true_r. apply Z.leb_le.
Qed.

Lemma failed_job_due_from_retry_instant_witness :
  Row.state row_failed_once = FAILED
  /\ Row.locked_by row_failed_once = None
  /\ Row.next_retry_at row_failed_once = Some (isoformat 1704110403250000)
  /\ in_range 1704110403250000 = true
  /\ in_range t_12_00_10 = true
  /\ (where_clause (isoformat t_12_00_10) "2024-01-01 11:55:10" row_failed_once = true
      <-> 1704110403250000 <= t_12_00_10).
Proof.
  assert (H1 : Row.state row_failed_once = FAILED) by reflexivity.
  assert (H2 : Row.locked_by row_failed_once = None) by reflexivity.
  assert (H3 : Row.next_retry_at row_failed_once = Some (isoformat 1704110403250000))
    by (vm_compute; reflexivity).
  assert (H4 : in_range 1704110403250000 = true) by (vm_compute; reflexivity).
  assert (H5 : in_range t_12_00_10 = true) by (vm_compute; reflexivity).
  split; [exact H1|]. split; [exact H2|]. split; [exact H3|].
  split; [exact H4|]. split; [exact H5|].
  exact (failed_job_due_from_retry_instant row_failed_once 1704110403250000
           t_12_00_10 "2024-01-01 11:55:10" H1 H2 H3 H4 H5).
Defined.

(** X11. [acquire_job] never hands out, before its retry instant, a FAILED
    job whose retry instant is stored as a naive datetime (as
    [_handle_failure] stores it): when the row of the job it returns was
    FAILED with [next_retry_at] the [isoformat] text of the naive datetime
    [n], then [n <= now].  (Not so for a text with a UTC offset:
    [texts_with_offset] below.) *)
Theorem acquire_job_not_before_retry_instant w now sql (s s' : store) job r n :
  primary_key s ->
  in_range now = true -> in_range n = true ->
  acquire_job w now sql s = (s', Ok (Some job)) ->
  select_by_id (Job.id job) s = Some r ->
  Row.state r = FAILED ->
  Row.next_retry_at r = Some (isoformat n) ->
  n <= now.
Proof.
  intros Hpk Rnow Rn Hacq Hr Hst Hn.
  destruct (acquire_job_returns _ _ _ _ _ _ Hpk Hacq) as (r0 & Hsel & _ & _ & Hjob).
  apply _row_to_job_fields in Hjob as (Hid & _). cbn [lock_row Row.id] in Hid.
  apply acquire_select_In in Hsel as [Hin Hw].
  rewrite Hid, (primary_key_select s r0 Hpk Hin) in Hr. injection Hr as ->.
  unfold where_clause, pending_clause, failed_clause in Hw.
  rewrite Hst, Hn, (text_le_isoformat n now Rn Rnow) in Hw.
  rewrite bool_decide_eq_false_2 in Hw by discriminate.
  cbn [andb orb] in Hw.
  apply andb_true_iff in Hw as [Hw _]. apply andb_true_iff in Hw as [_ Hw].
  now apply Z.leb_le.
Qed.

Lemma acquire_job_not_before_retry_instant_witness :
  primary_key [row_failed_once]
  /\ in_range t_12_00_10 = true
  /\ in_range 1704110403250000 = true
  /\ acquire_job "worker-1" t_12_00_10 t_12_00_10 [row_failed_once]
     = ([row_b_leased], Ok (Some job_b_acquired))
  /\ select_by_id (Job.id job_b_acquired) [row_failed_once] = Some row_failed_once
  /\ Row.state row_failed_once = FAILED
  /\ Row.next_retry_at row_failed_once = Some (isoformat 1704110403250000)
  /\ 1704110403250000 <= t_12_00_10.
Proof.
  assert (H1 : primary_key [row_failed_once]) by apply primary_key_one.
  assert (H2 : in_range t_12_00_10 = true) by (vm_compute; reflexivity).
  assert (H3 : in_range 1704110403250000 = true) by (vm_compute; reflexivity).
  assert (H4 : acquire_job "worker-1" t_12_00_10 t_12_00_10 [row_failed_once]
               = ([row_b_leased], Ok (Some job_b_acquired)))
    by (vm_compute; reflexivity).
  assert (H5 : select_by_id (Job.id job_b_acquired) [row_failed_once]
               = Some row_failed_once) by reflexivity.
  assert (H6 : Row.state row_failed_once = FAILED) by reflexivity.
  assert (H7 : Row.next_retry_at row_failed_once = Some (isoformat 1704110403250000))
    by (vm_compute; reflexivity).
  split; [exact H1|]. split; [exact H2|]. split; [exact H3|]. split; [exact H4|].
  split; [exact H5|]. split; [exact H6|]. split; [exact H7|].
  exact (acquire_job_not_before_retry_instant _ _ _ _ _ _ _ _ H1 H2 H3 H4 H5 H6 H7).
Defined.

(** ** The age of a lease, as [clear_locks] reads it *)






(** The lease of "job-e", ten minutes old at 12:00:10, and the lease of the
    evening before: same day, and the day before. *)
Example lease_days :
  (t_12_00_10 - 600 * us_per_second) / us_per_day
  = (t_12_00_10 - five_minutes) / us_per_day
  /\ Row.locked_at row_ghost_yesterday
     = Some (isoformat (t_12_00_10 - 43800 * us_per_second))
  /\ (t_12_00_10 - 43800 * us_per_second) / us_per_day
     < (t_12_00_10 - five_minutes) / us_per_day.
Proof. vm_compute. repeat split; reflexivity. Qed.

(** ** What the program writes, it can read *)

Lemma isoformat_text_read txt :
  isoformat_text txt ->
  exists t, in_range t = true /\ txt = isoformat t /\ fromisoformat txt = Some t.
Proof.
  intros (t & Ht & ->). exists t. split; [assumption|]. split; [reflexivity|].
  now apply fromisoformat_isoformat.
Qed.

Lemma row_read r :
  isoformat_text (Row.created_at r) ->
  isoformat_text (Row.updated_at r) ->
  (forall txt, Row.next_retry_at r = Some txt -> isoformat_text txt) ->
  exists job,
    _row_to_job r = Ok job
    /\ in_range (Job.created_at job) = true
    /\ Row.created_at r = isoformat (Job.created_at job).
Proof.
  intros Hc Hu Hn. unfold _row_to_job.
  apply isoformat_text_read in Hc as (c & Rc & Ec & ->).
  apply isoformat_text_read in Hu as (u & Ru & Eu & ->).
  destruct (Row.next_retry_at r) as [txt|] eqn:E.
  - destruct (isoformat_text_read txt (Hn txt eq_refl)) as (n & Rn & En & Hp).
    destruct txt as [|ch txt]; [eexists; split; [reflexivity|]; simpl; auto|].
    rewrite Hp. eexists. split; [reflexivity|]. simpl. auto.
  - eexists. split; [reflexivity|]. simpl. auto.
Qed.

Lemma timestamps_written_read r :
  timestamps_written r ->
  exists job,
    _row_to_job r = Ok job
    /\ in_range (Job.created_at job) = true
    /\ Row.created_at r = isoformat (Job.created_at job).
Proof. intros (Hc & Hu & Hn & _). now apply row_read. Qed.

Lemma timestamps_written_perform s c :
  call_in_range c ->
  Forall timestamps_written s -> Forall timestamps_written (perform s c).
Proof.
  intros Hc H. destruct c as [job|w now sql|job now|k|w sql]; simpl in *.
  - unfold enqueue. destruct (binds _ && binds _); [|assumption].
    destruct (existsb _ s); [assumption|]. simpl.
    apply Forall_app. split; [assumption|]. constructor; [|constructor].
    destruct Hc as (Rc & Ru & Rn).
    split; [|split; [|split]]; simpl.
    + exists (Job.created_at job). auto.
    + exists (Job.updated_at job). auto.
    + intros txt E. destruct (Job.next_retry_at job) as [n|]; [|discriminate].
      injection E as <-. exists n. auto.
    + discriminate.
  - rewrite acquire_job_table. destruct (acquire_select now sql s); [|assumption].
    rewrite Forall_forall in *. unfold update_where. intros r Hr.
    apply list_elem_of_In, in_map_iff in Hr as (r0 & <- & Hr0).
    apply list_elem_of_In, H in Hr0.
    destruct (has_id _ r0); [|assumption].
    destruct Hr0 as (H1 & H2 & H3 & H4).
    split; [|split; [|split]]; simpl; auto.
    intros txt [= <-]. exists now. auto.
  - rewrite Forall_forall in *. unfold update_where. intros r Hr.
    apply list_elem_of_In, in_map_iff in Hr as (r0 & <- & Hr0).
    apply list_elem_of_In, H in Hr0.
    destruct (has_id _ r0); [|assumption].
    destruct Hr0 as (H1 & H2 & H3 & H4). destruct Hc as [Rnow Rn].
    split; [|split; [|split]]; simpl; auto.
    + exists now. auto.
    + intros txt E. destruct (Job.next_retry_at job) as [n|]; [|discriminate].
      injection E as <-. exists n. auto.
    + discriminate.
  - rewrite Forall_forall in *. intros r Hr. apply H.
    apply list_elem_of_In. apply list_elem_of_In, filter_In in Hr. tauto.
  - destruct (clear_locks_table w sql s) as [p ->].
    rewrite Forall_forall in *. unfold update_where. intros r Hr.
    apply list_elem_of_In, in_map_iff in Hr as (r0 & <- & Hr0).
    apply list_elem_of_In, H in Hr0.
    destruct (p r0); [|assumption].
    destruct Hr0 as (H1 & H2 & H3 & H4).
    split; [|split; [|split]]; simpl; auto. discriminate.
Qed.

Lemma run_of_calls_written (calls : list store_call) (s : store) :
  Forall call_in_range calls ->
  Forall timestamps_written s ->
  Forall timestamps_written (fold_left perform calls s).
Proof.
  intros Hc. revert s. induction Hc as [|c calls Hc _ IH]; intros s Hs; simpl; [auto|].
  apply IH. now apply timestamps_written_perform.
Qed.

Lemma table_after_written (calls : list store_call) :
  Forall call_in_range calls -> Forall timestamps_written (table_after calls).
Proof. intros H. apply run_of_calls_written; [assumption | constructor]. Qed.

(** X12. On a table that the store's own calls have written, reading never
    fails: [get_job] returns a job or [None] for every id, and
    [acquire_job] returns a job or [None] for every worker and clock; the
    [ValueError] of [fromisoformat] and the [TypeError] of a missing row are
    out of reach. *)
Theorem store_calls_never_raise (calls : list store_call) :
  Forall call_in_range calls ->
  (forall k, exists o, get_job k (table_after calls) = Ok o)
  /\ (forall w now sql, exists o, (acquire_job w now sql (table_after calls)).2 = Ok o).
Proof.
  intros Hc. pose proof (table_after_written calls Hc) as Hw.
  rewrite Forall_forall in Hw. split.
  - intros k. unfold get_job.
    destruct (select_by_id k (table_after calls)) as [r|] eqn:E; [|eauto].
    apply select_by_id_Some in E as [Hin _].
    apply list_elem_of_In, Hw, timestamps_written_read in Hin as (job & -> & _).
    simpl. eauto.
  - intros w now sql. unfold acquire_job.
    destruct (acquire_select now sql (table_after calls)) as [r|] eqn:E; [|simpl; eauto].
    unfold acquire_lock. cbn [snd].
    rewrite select_by_id_update_where by apply lock_row_id.
    apply acquire_select_In in E as [Hin _].
    destruct (select_by_id (Row.id r) (table_after calls)) as [r1|] eqn:E1.
    + apply select_by_id_Some in E1 as [Hin1 Hid].
      assert (Hh : has_id (Row.id r) r1 = true) by now apply has_id_true.
      simpl. rewrite Hh.
      apply list_elem_of_In, Hw in Hin1. destruct Hin1 as (H1 & H2 & H3 & H4).
      destruct (row_read (lock_row w (isoformat now) r1) H1 H2 H3) as (job & -> & _).
      simpl. eauto.
    + rewrite select_by_id_None in E1. exfalso. now apply (E1 r Hin).
Qed.

Lemma calls_b_p_in_range : Forall call_in_range calls_b_p.
Proof.
  constructor; [|constructor; [exact job_pending_in_range | constructor]].
  split; [vm_compute; reflexivity|]. split; [vm_compute; reflexivity|].
  intros n [= <-]. vm_compute. reflexivity.
Qed.

Lemma _row_to_job_created_at r job :
  _row_to_job r = Ok job ->
  fromisoformat (Row.created_at r) = Some (Job.created_at job).
Proof.
  unfold _row_to_job.
  destruct (fromisoformat (Row.created_at r)); [|discriminate].
  destruct (fromisoformat (Row.updated_at r)); [|discriminate].
  destruct (Row.next_retry_at r) as [[|c txt]|].
  - intros [= <-]. reflexivity.
  - destruct (fromisoformat (String c txt)); [|discriminate].
    intros [= <-]. reflexivity.
  - intros [= <-]. reflexivity.
Qed.

Lemma created_at_instant r job :
  isoformat_text (Row.created_at r) ->
  _row_to_job r = Ok job ->
  in_range (Job.created_at job) = true
  /\ Row.created_at r = isoformat (Job.created_at job).
Proof.
  intros Ht Hj. apply _row_to_job_created_at in Hj.
  apply isoformat_text_read in Ht as (t & Rt & Et & Hp).
  rewrite Hp in Hj. injection Hj as <-. auto.
Qed.

(** X13. On a table in which every [created_at] is the text of a naive
    datetime (what [Job()] and [datetime.utcnow()] give), jobs are served
    oldest first, by the instants and not only by the texts: the job that
    [acquire_job] returns was created no later than any job whose row
    satisfies the WHERE clause.  (Among [created_at] texts with UTC offsets
    the order of the texts is not the order of the instants:
    [texts_with_offset] below.) *)
Theorem acquire_job_oldest_first w now sql (s s' : store) job r job' :
  primary_key s ->
  Forall (fun x => isoformat_text (Row.created_at x)) s ->
  acquire_job w now sql s = (s', Ok (Some job)) ->
  In r s ->
  where_clause (isoformat now) (sqlite_now_minus_5_minutes sql) r = true ->
  _row_to_job r = Ok job' ->
  Job.created_at job <= Job.created_at job'.
Proof.
  intros Hpk Hwr Hacq Hin Hw Hjob'. rewrite Forall_forall in Hwr.
  destruct (acquire_job_returns _ _ _ _ _ _ Hpk Hacq) as (r0 & Hsel & _ & _ & Hjob).
  assert (Hleb : String.leb (Row.created_at r0) (Row.created_at r) = true).
  { unfold acquire_select in Hsel. apply (limit_1_least _ _ _ Hsel).
    apply scan_In. auto. }
  apply acquire_select_In in Hsel as [Hin0 _].
  apply list_elem_of_In, Hwr in Hin0. apply list_elem_of_In, Hwr in Hin.
  destruct (created_at_instant (lock_row w (isoformat now) r0) job Hin0 Hjob)
    as [R0 T0].
  destruct (created_at_instant r job' Hin Hjob') as [R1 T1].
  cbn [lock_row Row.created_at] in T0.
  rewrite T0, T1, (string_leb_isoformat _ _ R0 R1) in Hleb.
  now apply Z.leb_le.
Qed.

Lemma calls_b_p_created_at :
  Forall (fun x => isoformat_text (Row.created_at x)) (table_after calls_b_p).
Proof.
  eapply Forall_impl; [apply table_after_written, calls_b_p_in_range|].
  intros x (H & _). exact H.
Qed.

Lemma acquire_job_oldest_first_witness :
  primary_key (table_after calls_b_p)
  /\ Forall (fun x => isoformat_text (Row.created_at x)) (table_after calls_b_p)
  /\ acquire_job "worker-1" t_12_00_10 t_12_00_10 (table_after calls_b_p)
     = ([row_failed_once; row_p_leased], Ok (Some job_p_acquired))
  /\ In row_failed_once (table_after calls_b_p)
  /\ where_clause (isoformat t_12_00_10) (sqlite_now_minus_5_minutes t_12_00_10)
       row_failed_once = true
  /\ _row_to_job row_failed_once = Ok job_b_failed_once
  /\ Job.created_at job_p_acquired <= Job.created_at job_b_failed_once.
Proof.
  assert (H0 : primary_key (table_after calls_b_p))
    by apply (run_of_calls_keeps calls_b_p [] empty_table_ok).
  assert (H1 : acquire_job "worker-1" t_12_00_10 t_12_00_10 (table_after calls_b_p)
               = ([row_failed_once; row_p_leased], Ok (Some job_p_acquired)))
    by (vm_compute; reflexivity).
  assert (H2 : In row_failed_once (table_after calls_b_p))
    by (left; vm_compute; reflexivity).
  assert (H3 : where_clause (isoformat t_12_00_10)
                 (sqlite_now_minus_5_minutes t_12_00_10) row_failed_once = true)
    by (vm_compute; reflexivity).
  assert (H4 : _row_to_job row_failed_once = Ok job_b_failed_once)
    by (vm_compute; reflexivity).
  split; [exact H0|]. split; [exact calls_b_p_created_at|]. split; [exact H1|].
  split; [exact H2|]. split; [exact H3|]. split; [exact H4|].
  exact (acquire_job_oldest_first _ _ _ _ _ _ _ _
           H0 calls_b_p_created_at H1 H2 H3 H4).
Defined.

(** Timestamps with a UTC offset are compared as texts too, and there the
    texts do not follow the instants.  "job-o" is due at 20:00 UTC and
    satisfies the WHERE clause at 13:00:00, seven hours early.  "job-z" was
    created at 07:00 UTC, before "job-p" (11:30:00), and [acquire_job]
    takes "job-p" first. *)
Example texts_with_offset :
  Row.next_retry_at row_offset_retry = Some "2024-01-01T12:00:00-08:00"
  /\ isoformat t_13_00_00 = "2024-01-01T13:00:00"
  /\ where_clause (isoformat t_13_00_00) (sqlite_now_minus_5_minutes t_13_00_00)
       row_offset_retry = true
  /\ Row.created_at row_offset_created = "2024-01-01T12:00:00+05:00"
  /\ Row.created_at row_pending = "2024-01-01T11:30:00"
  /\ acquire_select t_13_00_00 t_13_00_00 [row_offset_created; row_pending]
     = Some row_pending.
Proof. vm_compute. repeat split; reflexivity. Qed.

Lemma calls_s5_in_range : Forall call_in_range calls_s5.
Proof.
  constructor; [|constructor; [exact job_pending_in_range | constructor]].
  split; [vm_compute; reflexivity|]. split; [vm_compute; reflexivity|].
  intros n [=].
Qed.

Lemma store_calls_never_raise_witness :
  Forall call_in_range calls_s5
  /\ (forall k, exists o, get_job k (table_after calls_s5) = Ok o)
  /\ (forall w now sql,
        exists o, (acquire_job w now sql (table_after calls_s5)).2 = Ok o).
Proof.
  split; [exact calls_s5_in_range|].
  exact (store_calls_never_raise calls_s5 calls_s5_in_range).
Defined.

(** * The worker's cycle *)

(** The job [acquire_job] hands to the worker, when the row it selected can
    be read. *)
Lemma acquire_job_readable w now sql (s : store) r job0 :
  primary_key s ->
  acquire_select now sql s = Some r ->
  _row_to_job r = Ok job0 ->
  exists job,
    acquire_job w now sql s
    = (update_where (has_id (Row.id r)) (lock_row w (isoformat now)) s, Ok (Some job))
    /\ select_by_id (Row.id r)
         (update_where (has_id (Row.id r)) (lock_row w (isoformat now)) s)
       = Some (lock_row w (isoformat now) r)
    /\ Job.id job = Row.id r /\ Job.command job = Row.command r
    /\ Job.attempts job = Row.attempts r /\ Job.max_retries job = Row.max_retries r
    /\ Job.error_message job = Row.error_message r
    /\ isoformat <$> Job.next_retry_at job = isoformat <$> Job.next_retry_at job0.
Proof.
  intros Hpk Hsel Hj0.
  assert (Hin : In r s) by (now apply acquire_select_In in Hsel).
  assert (Hr : select_by_id (Row.id r)
                 (update_where (has_id (Row.id r)) (lock_row w (isoformat now)) s)
               = Some (lock_row w (isoformat now) r)).
  { apply select_by_id_updated; [apply lock_row_id | now apply primary_key_select]. }
  assert (Hj : exists job, _row_to_job (lock_row w (isoformat now) r) = Ok job
                           /\ Job.next_retry_at job = Job.next_retry_at job0).
  { revert Hj0. unfold _row_to_job. cbn [lock_row Row.created_at Row.updated_at
      Row.next_retry_at].
    destruct (fromisoformat (Row.created_at r)); [|discriminate].
    destruct (fromisoformat (Row.updated_at r)); [|discriminate].
    destruct (Row.next_retry_at r) as [[|c txt]|].
    - intros [= <-]. eexists. split; reflexivity.
    - destruct (fromisoformat (String c txt)); [|discriminate].
      intros [= <-]. eexists. split; reflexivity.
    - intros [= <-]. eexists. split; reflexivity. }
  destruct Hj as (job & Hj & Hn). exists job.
  split.
  { unfold acquire_job, acquire_lock. rewrite Hsel, Hr, Hj. reflexivity. }
  split; [exact Hr|].
  apply _row_to_job_fields in Hj as (H1 & H2 & _ & H4 & H5 & H6).
  cbn [lock_row Row.id Row.command Row.attempts Row.max_retries Row.error_message]
    in H1, H2, H4, H5, H6.
  rewrite Hn. repeat split; assumption.
Qed.

Lemma select_by_id_written job t k (s : store) r :
  Job.id job = k ->
  select_by_id k s = Some r ->
  select_by_id k (update_job job t s).1 = Some (write_job job t r).
Proof.
  intros <- H. rewrite update_job_store.
  apply select_by_id_updated; [apply write_job_id | exact H].
Qed.

Lemma select_by_id_written_other job t k (s : store) :
  k <> Job.id job ->
  select_by_id k (update_job job t s).1 = select_by_id k s.
Proof.
  intros H. rewrite update_job_store.
  apply update_where_other; [apply write_job_id | congruence].
Qed.

Ltac row_fields :=
  cbn [write_job lock_row set_completed set_outcome count_failure
       Row.id Row.locked_by Row.locked_at Row.command Row.max_retries
       Row.created_at Row.updated_at Row.state Row.attempts Row.error_message
       Row.next_retry_at Job.id Job.command Job.max_retries Job.state Job.attempts
       Job.created_at Job.updated_at Job.error_message Job.next_retry_at
       fmap option_fmap option_map].

Ltac acquired_row Hid Hr1 :=
  first [ apply select_by_id_written; [exact Hid | exact Hr1]
        | rewrite ?Hid; apply select_by_id_updated; [apply write_job_id | exact Hr1] ].

Ltac other_rows Hid Hother :=
  let k := fresh "k" in
  let Hk := fresh "Hk" in
  intros k Hk; rewrite ?update_job_store;
  cbn [set_completed set_outcome count_failure Job.id]; rewrite ?Hid;
  etransitivity;
  [apply update_where_other; [apply write_job_id | congruence] | now apply Hother].

(** X14. A cycle of the worker that returns normally leaves the job it
    acquired under no lease and settled: COMPLETED with its counters as they
    were when the command succeeded; otherwise FAILED with a retry instant
    and attempts left, or DEAD with none left, the failure counted once, or
    twice when the first retry instant did not fit a [datetime].  No other
    row is changed.  (The count of attempts is not negative, so that
    [backoff_base ** job.attempts] is the integer power, and leaves room
    for two more in an SQLite integer.) *)
Theorem process_next_job_outcome w base clock success msg (s s' : store) r job0 :
  primary_key s ->
  acquire_select (clock 0%nat) (clock 1%nat) s = Some r ->
  _row_to_job r = Ok job0 ->
  0 <= Row.attempts r < 2 ^ 63 - 2 ->
  _process_next_job w base clock success msg s = (s', Ok tt) ->
  (exists r',
     select_by_id (Row.id r) s' = Some r'
     /\ Row.locked_by r' = None /\ Row.locked_at r' = None
     /\ Row.command r' = Row.command r
     /\ Row.max_retries r' = Row.max_retries r
     /\ Row.created_at r' = Row.created_at r
     /\ if success
        then Row.state r' = COMPLETED
             /\ Row.attempts r' = Row.attempts r
             /\ Row.error_message r' = Row.error_message r
        else (Row.attempts r' = Row.attempts r + 1
              \/ Row.attempts r' = Row.attempts r + 2)
             /\ ((Row.state r' = DEAD /\ Row.next_retry_at r' = None
                  /\ Row.max_retries r' <= Row.attempts r')
                 \/ (Row.state r' = FAILED /\ Row.next_retry_at r' <> None
                     /\ Row.attempts r' < Row.max_retries r')))
  /\ forall k, k <> Row.id r -> select_by_id k s' = select_by_id k s.
Proof.
  intros Hpk Hsel Hj0 _.
  destruct (acquire_job_readable w _ _ _ _ _ Hpk Hsel Hj0)
    as (job & Hacq & Hr1 & Hid & Hcmd & Hatt & Hmax & Herr & _).
  assert (Hother : forall k, k <> Row.id r ->
            select_by_id k (update_where (has_id (Row.id r))
                              (lock_row w (isoformat (clock 0%nat))) s)
            = select_by_id k s).
  { intros k Hk. apply update_where_other; [apply lock_row_id | congruence]. }
  unfold _process_next_job. rewrite Hacq.
  set (s1 := update_where (has_id (Row.id r)) (lock_row w (isoformat (clock 0%nat))) s)
    in *.
  destruct success.
  - intros [= <-]. unfold _mark_completed. split.
    + eexists. split; [acquired_row Hid Hr1|].
      row_fields.
      repeat split; assumption.
    + other_rows Hid Hother.
  - unfold _handle_failure. cbv zeta.
    cbn [count_failure set_outcome Job.max_retries Job.attempts Job.id Job.command
         Job.state Job.created_at Job.updated_at Job.next_retry_at Job.error_message].
    destruct (Z.leb_spec (Job.max_retries job) (Job.attempts job + 1)) as [Hd|Hf].
    + cbv beta iota zeta. intros H. apply pair_equal_spec in H as [<- _]. split.
      * eexists. split; [acquired_row Hid Hr1|].
        row_fields.
        repeat (split; [first [reflexivity | assumption]|]).
        split; [left; lia|]. left. repeat split; lia.
      * other_rows Hid Hother.
    + destruct (add_seconds (clock 3%nat) (base ^ (Job.attempts job + 1))) as [next|].
      * cbv beta iota zeta. intros H. apply pair_equal_spec in H as [<- _]. split.
        -- eexists. split; [acquired_row Hid Hr1|].
           row_fields.
           repeat (split; [first [reflexivity | assumption]|]).
           split; [left; lia|]. right. repeat split; [discriminate | lia].
        -- other_rows Hid Hother.
      * cbv beta iota zeta. cbn [Job.max_retries Job.attempts count_failure].
        destruct (Z.leb_spec (Job.max_retries job) (Job.attempts job + 1 + 1)) as [Hd2|Hf2].
        -- cbv beta iota zeta. intros H. apply pair_equal_spec in H as [<- _]. split.
           ++ eexists. split; [acquired_row Hid Hr1|].
              row_fields.
              repeat (split; [first [reflexivity | assumption]|]).
              split; [right; lia|]. left. repeat split; lia.
           ++ other_rows Hid Hother.
        -- destruct (add_seconds (clock 5%nat) (base ^ (Job.attempts job + 1 + 1)))
             as [next|]; cbv beta iota zeta; [|discriminate].
           cbv beta iota zeta. intros H. apply pair_equal_spec in H as [<- _]. split.
           ++ eexists. split; [acquired_row Hid Hr1|].
              row_fields.
              repeat (split; [first [reflexivity | assumption]|]).
              split; [right; lia|]. right. repeat split; [discriminate | lia].
           ++ other_rows Hid Hother.
Qed.

Lemma process_next_job_outcome_witness :
  primary_key [row_failed_once]
  /\ acquire_select (clock_from_12_00_10 0%nat) (clock_from_12_00_10 1%nat)
       [row_failed_once] = Some row_failed_once
  /\ _row_to_job row_failed_once = Ok job_b_failed_once
  /\ 0 <= Row.attempts row_failed_once < 2 ^ 63 - 2
  /\ (exists r',
        select_by_id (Row.id row_failed_once)
          (_process_next_job "worker-1" 2 clock_from_12_00_10 false "Exit code 3"
             [row_failed_once]).1 = Some r'
        /\ Row.locked_by r' = None /\ Row.locked_at r' = None
        /\ Row.command r' = Row.command row_failed_once
        /\ Row.max_retries r' = Row.max_retries row_failed_once
        /\ Row.created_at r' = Row.created_at row_failed_once
        /\ (Row.attempts r' = Row.attempts row_failed_once + 1
            \/ Row.attempts r' = Row.attempts row_failed_once + 2)
        /\ ((Row.state r' = DEAD /\ Row.next_retry_at r' = None
             /\ Row.max_retries r' <= Row.attempts r')
            \/ (Row.state r' = FAILED /\ Row.next_retry_at r' <> None
                /\ Row.attempts r' < Row.max_retries r'))).
Proof.
  assert (H1 : primary_key [row_failed_once]) by apply primary_key_one.
  assert (H2 : acquire_select (clock_from_12_00_10 0%nat) (clock_from_12_00_10 1%nat)
                 [row_failed_once] = Some row_failed_once)
    by (vm_compute; reflexivity).
  assert (H3 : _row_to_job row_failed_once = Ok job_b_failed_once)
    by (vm_compute; reflexivity).
  assert (H4 : _process_next_job "worker-1" 2 clock_from_12_00_10 false "Exit code 3"
                 [row_failed_once]
               = ((_process_next_job "worker-1" 2 clock_from_12_00_10 false
                     "Exit code 3" [row_failed_once]).1, Ok tt))
    by (vm_compute; reflexivity).
  assert (H0 : 0 <= Row.attempts row_failed_once < 2 ^ 63 - 2) by (simpl; lia).
  split; [exact H1|]. split; [exact H2|]. split; [exact H3|]. split; [exact H0|].
  exact (proj1 (process_next_job_outcome "worker-1" 2 clock_from_12_00_10 false
                  "Exit code 3" [row_failed_once] _ row_failed_once
                  job_b_failed_once H1 H2 H3 H0 H4)).
Defined.



(** The two texts a delay that is too long can leave as the diagnostic:
    with a [backoff_base] of 10^12 the [timedelta] is built and the
    addition fails; with 10^14 the [timedelta] is refused. *)
Example overflow_texts :
  Row.error_message
    <$> (_process_next_job "worker-1" backoff_base_huge clock_from_12_00_10 false
           "Exit code 1" [row_two_tries]).1
  = [Some "date value out of range"]
  /\ Row.error_message
       <$> (_process_next_job "worker-1" 100000000000000 clock_from_12_00_10 false
              "Exit code 1" [row_two_tries]).1
     = [Some "days=1157407407; must have magnitude <= 999999999"]
  /\ overflow_text (add_seconds_error (- 100000000000000))
     = "days=-1157407408; must have magnitude <= 999999999"
  /\ overflow_text (add_seconds_error (10 ^ 20))
     = "Python int too large to convert to C int".
Proof. vm_compute. repeat split; reflexivity. Qed.

Lemma unlock_row_lock_row w t r : unlock_row (lock_row w t r) = unlock_row r.
Proof. reflexivity. Qed.

(** X16. When a cycle raises (the retry instant did not fit a [datetime]
    at either try), the table holds nothing of the run but the lease: the
    failure is not counted and its message is not kept.  [_cleanup], which
    [start] then runs, gives the job back, so that the table is the one
    before the cycle with that job PENDING and under no lease.  (Counts of
    attempts are not negative, so that [backoff_base ** job.attempts] is
    the integer power.) *)
Theorem process_next_job_raise_then_cleanup w base clock success msg
    (s s' : store) e sql_now :
  w <> "" ->
  Forall (fun r => Row.locked_by r <> Some w) s ->
  Forall (fun r => 0 <= Row.attempts r < 2 ^ 63 - 2) s ->
  _process_next_job w base clock success msg s = (s', Raise e) ->
  exists r,
    acquire_select (clock 0%nat) (clock 1%nat) s = Some r
    /\ success = false
    /\ s' = update_where (has_id (Row.id r)) (lock_row w (isoformat (clock 0%nat))) s
    /\ _cleanup w sql_now s' = update_where (has_id (Row.id r)) unlock_row s.
Proof.
  intros Hw Hfree _. unfold _process_next_job, acquire_job.
  destruct (acquire_select (clock 0%nat) (clock 1%nat) s) as [r|] eqn:Hsel;
    [|discriminate].
  unfold acquire_lock.
  set (s1 := update_where (has_id (Row.id r)) (lock_row w (isoformat (clock 0%nat))) s).
  destruct (match select_by_id (Row.id r) s1 with
            | Some r0 => _row_to_job r0
            | None => Raise TypeError
            end) as [job|e0]; cbn [result_map]; [|discriminate].
  destruct success; [discriminate|].
  intros H. exists r. split; [reflexivity|]. split; [reflexivity|].
  assert (Hs' : s' = s1).
  { revert H. unfold _handle_failure. cbv zeta.
    cbn [count_failure set_outcome Job.max_retries Job.attempts].
    destruct (_ <=? _); [discriminate|].
    destruct (add_seconds _ _); cbv beta iota zeta; [discriminate|].
    cbn [Job.max_retries Job.attempts count_failure].
    destruct (_ <=? _); [discriminate|].
    destruct (add_seconds _ _); cbv beta iota zeta; [discriminate|].
    intros H. now apply pair_equal_spec in H as [<- _]. }
  split; [exact Hs'|]. rewrite Hs'.
  unfold _cleanup, clear_locks. rewrite bool_decide_eq_false_2 by assumption.
  unfold s1, update_where. rewrite map_map. apply map_ext_in.
  intros x Hx. rewrite Forall_forall in Hfree.
  apply list_elem_of_In, Hfree in Hx.
  destruct (has_id (Row.id r) x).
  - unfold held_by. cbn [lock_row Row.locked_by Row.state].
    rewrite !bool_decide_eq_true_2 by reflexivity. reflexivity.
  - unfold held_by. rewrite (bool_decide_eq_false_2 _ Hx). reflexivity.
Qed.

Lemma process_next_job_raise_then_cleanup_witness :
  "worker-1" <> ""
  /\ Forall (fun r => Row.locked_by r <> Some "worker-1") [row_pending]
  /\ Forall (fun r => 0 <= Row.attempts r < 2 ^ 63 - 2) [row_pending]
  /\ _process_next_job "worker-1" backoff_base_huge clock_from_12_00_10 false
       "Exit code 1" [row_pending] = ([row_p_leased], Raise (OverflowError CInt))
  /\ exists r,
       acquire_select (clock_from_12_00_10 0%nat) (clock_from_12_00_10 1%nat)
         [row_pending] = Some r
       /\ false = false
       /\ [row_p_leased]
          = update_where (has_id (Row.id r))
              (lock_row "worker-1" (isoformat (clock_from_12_00_10 0%nat)))
              [row_pending]
       /\ _cleanup "worker-1" t_12_00_12 [row_p_leased]
          = update_where (has_id (Row.id r)) unlock_row [row_pending].
Proof.
  assert (H1 : "worker-1" <> "") by discriminate.
  assert (H2 : Forall (fun r => Row.locked_by r <> Some "worker-1") [row_pending])
    by (constructor; [discriminate | constructor]).
  assert (H3 : _process_next_job "worker-1" backoff_base_huge clock_from_12_00_10
                 false "Exit code 1" [row_pending]
               = ([row_p_leased], Raise (OverflowError CInt)))
    by (vm_compute; reflexivity).
  assert (H0 : Forall (fun r => 0 <= Row.attempts r < 2 ^ 63 - 2) [row_pending])
    by (constructor; [simpl; lia | constructor]).
  split; [exact H1|]. split; [exact H2|]. split; [exact H0|]. split; [exact H3|].
  exact (process_next_job_raise_then_cleanup "worker-1" backoff_base_huge
           clock_from_12_00_10 false "Exit code 1" [row_pending] [row_p_leased]
           (OverflowError CInt) t_12_00_12 H1 H2 H0 H3).
Defined.

(** * Listing, clearing the dead-letter queue, the status table *)

(** ** [list_jobs] *)

Lemma insert_desc_In r l x : In x (insert_desc r l) <-> x = r \/ In x l.
Proof.
  induction l as [|m l IH]; simpl; [intuition congruence|].
  destruct (String.leb _ _); simpl; [intuition congruence|].
  rewrite IH. intuition congruence.
Qed.

Lemma insert_desc_length r l : length (insert_desc r l) = S (length l).
Proof.
  induction l as [|m l IH]; simpl; [reflexivity|].
  destruct (String.leb _ _); simpl; [reflexivity | now rewrite IH].
Qed.

Lemma order_desc_In l x : In x (order_by_created_at_desc l) <-> In x l.
Proof.
  unfold order_by_created_at_desc.
  induction l as [|r l IH]; simpl; [tauto|].
  rewrite insert_desc_In, IH. intuition congruence.
Qed.

Lemma order_desc_length l : length (order_by_created_at_desc l) = length l.
Proof.
  unfold order_by_created_at_desc.
  induction l as [|r l IH]; simpl; [reflexivity|].
  now rewrite insert_desc_length, IH.
Qed.

Lemma insert_desc_sorted r l :
  desc_by_text l -> desc_by_text (insert_desc r l).
Proof.
  induction l as [|m l IH]; simpl.
  - intros _. split; [constructor | exact I].
  - intros [Hm Hl].
    destruct (String.leb (Row.created_at m) (Row.created_at r)) eqn:E.
    + cbn [desc_by_text]. split; [|split; assumption].
      constructor; [exact E|].
      rewrite Forall_forall in *. intros x Hx.
      apply string_leb_trans with (Row.created_at m); [now apply Hm | exact E].
    + cbn [desc_by_text]. split; [|now apply IH].
      rewrite Forall_forall in *. intros x Hx.
      apply list_elem_of_In, insert_desc_In in Hx as [->|Hx].
      * now apply string_ltb_leb, string_leb_false.
      * now apply Hm, list_elem_of_In.
Qed.

Lemma order_desc_sorted l : desc_by_text (order_by_created_at_desc l).
Proof.
  unfold order_by_created_at_desc.
  induction l as [|r l IH]; simpl; [exact I | now apply insert_desc_sorted].
Qed.

Lemma In_firstn_In {A} n (l : list A) x : In x (firstn n l) -> In x l.
Proof.
  revert l. induction n as [|n IH]; intros [|a l]; simpl; try tauto.
  intros [->|H]; auto.
Qed.

Lemma firstn_sorted n l : desc_by_text l -> desc_by_text (firstn n l).
Proof.
  revert l. induction n as [|n IH]; intros [|r l]; simpl; try tauto.
  intros [Hr Hl]. split; [|now apply IH].
  rewrite Forall_forall in *. intros x Hx. apply Hr.
  apply list_elem_of_In. apply list_elem_of_In in Hx. eapply In_firstn_In, Hx.
Qed.

Lemma limit_rows_sorted limit l : desc_by_text l -> desc_by_text (limit_rows limit l).
Proof.
  destruct limit as [n|]; simpl; [|auto].
  destruct (n <=? 0); [auto | apply firstn_sorted].
Qed.

Lemma limit_rows_In limit l x : In x (limit_rows limit l) -> In x l.
Proof.
  destruct limit as [n|]; simpl; [|auto].
  destruct (n <=? 0); [auto | apply In_firstn_In].
Qed.


Lemma rows_in_state_In state (s : store) r :
  In r (rows_in_state state s)
  <-> In r s /\ forall st, state = Some st -> Row.state r = st.
Proof.
  destruct state as [st|]; simpl.
  - rewrite filter_In, bool_decide_eq_true. split.
    + intros [H1 H2]. split; [assumption|]. now intros ? [= <-].
    + intros [H1 H2]. auto.
  - split; [|tauto]. intros H. split; [assumption | discriminate].
Qed.

Lemma rows_to_jobs_read rows :
  Forall timestamps_written rows ->
  exists jobs,
    rows_to_jobs rows = Ok jobs
    /\ Forall2 read_as rows jobs.
Proof.
  induction 1 as [|r rows Hr _ (jobs & E & IH)]; simpl.
  - exists []. split; [reflexivity | constructor].
  - destruct (timestamps_written_read r Hr) as (job & Hj & Hrange & Htxt).
    rewrite Hj, E. exists (job :: jobs). split; [reflexivity|].
    constructor; [repeat split; assumption | assumption].
Qed.

Lemma newest_first_read rows jobs :
  Forall2 read_as rows jobs ->
  desc_by_text rows -> newest_first jobs.
Proof.
  induction 1 as [|r job rows jobs (Hj & Hrange & Htxt) H2 IH]; simpl; [auto|].
  intros [Hr Hrows]. split; [|now apply IH].
  clear IH Hrows. induction H2 as [|r' job' rows jobs (Hj' & Hrange' & Htxt') _ IH'].
  - constructor.
  - apply Forall_cons in Hr as [Hr1 Hr2]. constructor; [|now apply IH'].
    rewrite Htxt, Htxt', string_leb_isoformat in Hr1 by assumption.
    now apply Z.leb_le.
Qed.

Lemma read_as_ids rows jobs :
  Forall2 read_as rows jobs -> Job.id <$> jobs = Row.id <$> rows.
Proof.
  induction 1 as [|r j l l' (Hj & _) _ IH]; [reflexivity|].
  rewrite !fmap_cons, IH. f_equal.
  now apply _row_to_job_fields in Hj as (-> & _).
Qed.

Lemma read_as_job rows jobs job :
  Forall2 read_as rows jobs ->
  In job jobs <-> exists r, In r rows /\ _row_to_job r = Ok job.
Proof.
  induction 1 as [|r j l l' (Hj & _) _ IH]; simpl.
  - split; [tauto | intros (r & [] & _)].
  - rewrite IH. split.
    + intros [->|(r' & Hin & Hr')]; [exists r; auto | exists r'; auto].
    + intros (r' & [->|Hin] & Hr'); [left; congruence | right; eauto].
Qed.

Lemma read_as_row rows jobs r :
  Forall2 read_as rows jobs ->
  In r rows -> exists job, In job jobs /\ _row_to_job r = Ok job.
Proof.
  induction 1 as [|r0 j l l' (Hj & _) _ IH]; simpl; [tauto|].
  intros [->|Hin]; [exists j; auto|].
  destruct (IH Hin) as (j' & ? & ?). exists j'. auto.
Qed.

Lemma listed_rows_written state limit (s : store) :
  Forall timestamps_written s ->
  Forall timestamps_written
    (limit_rows limit (order_by_created_at_desc (rows_in_state state s))).
Proof.
  rewrite !Forall_forall. intros H r Hr. apply H.
  apply list_elem_of_In. apply list_elem_of_In in Hr.
  apply limit_rows_In, order_desc_In, rows_in_state_In in Hr. tauto.
Qed.

(** X17. On a table whose timestamps are all texts of naive datetimes,
    [list_jobs] (with a limit that SQLite accepts) never fails; it lists the
    newest job first, by the instants of creation and not only by their
    texts; and every job it lists is read from a row of the table that is
    in the state asked for.  (A table with a timestamp that carries a UTC
    offset is outside: there the order of the texts is not the order of
    the instants.) *)
Theorem list_jobs_newest_first state limit (s : store) :
  limit_fits limit ->
  Forall timestamps_written s ->
  exists jobs,
    list_jobs state limit s = Ok jobs
    /\ newest_first jobs
    /\ forall job, In job jobs ->
         exists r, In r s /\ _row_to_job r = Ok job
                   /\ forall st, state = Some st -> Job.state job = st.
Proof.
  intros _ Hs. unfold list_jobs.
  destruct (rows_to_jobs_read _ (listed_rows_written state limit s Hs))
    as (jobs & E & H2).
  exists jobs. split; [exact E|]. split.
  - apply (newest_first_read _ _ H2), limit_rows_sorted, order_desc_sorted.
  - intros job Hjob.
    apply (read_as_job _ _ job H2) in Hjob as Hr.
    destruct Hr as (r & Hin & Hr).
    apply limit_rows_In, order_desc_In, rows_in_state_In in Hin as [Hin Hst].
    exists r. split; [assumption|]. split; [assumption|].
    intros st E'. apply _row_to_job_fields in Hr as (_ & _ & -> & _). auto.
Qed.

Lemma calls_s5_written : Forall timestamps_written (table_after calls_s5).
Proof. apply table_after_written, calls_s5_in_range. Qed.

Lemma list_jobs_newest_first_witness :
  limit_fits None
  /\ Forall timestamps_written (table_after calls_s5)
  /\ exists jobs,
       list_jobs None None (table_after calls_s5) = Ok jobs
       /\ newest_first jobs
       /\ forall job, In job jobs ->
            exists r, In r (table_after calls_s5) /\ _row_to_job r = Ok job
                      /\ forall st, None = Some st -> Job.state job = st.
Proof.
  assert (H : limit_fits None) by (intros n [=]).
  split; [exact H|]. split; [exact calls_s5_written|].
  exact (list_jobs_newest_first None None (table_after calls_s5)
           H calls_s5_written).
Defined.

(** The two jobs of S5, listed: "job-p" of 11:30:00 before "job-d" of
    11:00:00, although "job-d" was enqueued first. *)
Example list_jobs_s5 :
  Row.id <$> table_after calls_s5 = ["job-d"; "job-p"]
  /\ result_map (map Job.id) (list_jobs None None (table_after calls_s5))
     = Ok ["job-p"; "job-d"].
Proof. vm_compute. split; reflexivity. Qed.



Example list_limit_zero_lists_all :
  result_map (map Job.id) (list_jobs None (Some 0) store_s5) = Ok ["job-p"; "job-d"]
  /\ result_map (map Job.id) (list_jobs None (Some 1) store_s5) = Ok ["job-p"]
  /\ result_map (map Job.id) (list_jobs (Some DEAD) (Some (-1)) store_s5) = Ok ["job-d"].
Proof. vm_compute. repeat split. Qed.

(** ** [dlq clear] *)

Lemma insert_desc_perm r l : insert_desc r l ≡ₚ r :: l.
Proof.
  induction l as [|m l IH]; simpl; [reflexivity|].
  destruct (String.leb _ _); [reflexivity|].
  rewrite IH. apply perm_swap.
Qed.

Lemma order_desc_perm l : order_by_created_at_desc l ≡ₚ l.
Proof.
  unfold order_by_created_at_desc.
  induction l as [|r l IH]; simpl; [reflexivity|].
  now rewrite insert_desc_perm, IH.
Qed.

Lemma primary_key_same_id (s : store) r r' :
  primary_key s -> In r s -> In r' s -> Row.id r = Row.id r' -> r = r'.
Proof.
  intros Hpk Hr Hr' E.
  pose proof (primary_key_select s r Hpk Hr) as H1.
  pose proof (primary_key_select s r' Hpk Hr') as H2.
  rewrite E in H1. congruence.
Qed.

Lemma filter_all {A} (p : A -> bool) (l : list A) :
  (forall x, In x l -> p x = true) -> List.filter p l = l.
Proof.
  induction l as [|a l IH]; simpl; intros H; [reflexivity|].
  rewrite (H a) by now left. f_equal. apply IH. intros x Hx. apply H. now right.
Qed.

Lemma filter_twice {A} (p q : A -> bool) (l : list A) :
  List.filter q (List.filter p l) = List.filter (fun x => p x && q x) l.
Proof.
  induction l as [|a l IH]; simpl; [reflexivity|].
  destruct (p a); simpl; [destruct (q a); simpl; now rewrite IH | exact IH].
Qed.

Lemma delete_counting_eq (s : store) c job :
  delete_counting (s, c) job
  = (List.filter (fun r => negb (has_id (Job.id job) r)) s,
     if existsb (has_id (Job.id job)) s then c + 1 else c).
Proof. reflexivity. Qed.

Lemma delete_each_all jobs (s : store) c :
  NoDup (Job.id <$> jobs) ->
  (forall job, In job jobs -> existsb (has_id (Job.id job)) s = true) ->
  fold_left delete_counting jobs (s, c)
  = (List.filter (fun r => negb (existsb (fun job => has_id (Job.id job) r) jobs)) s,
     c + Z.of_nat (length jobs)).
Proof.
  revert s c. induction jobs as [|job jobs IH]; intros s c Hnd Hin.
  - simpl. f_equal; [|lia]. symmetry. now apply filter_all.
  - rewrite fmap_cons, NoDup_cons in Hnd. destruct Hnd as [Hnew Hnd].
    cbn [fold_left]. rewrite delete_counting_eq.
    rewrite (Hin job) by now left.
    rewrite IH; [| exact Hnd |].
    + f_equal.
      * rewrite filter_twice. apply filter_ext. intros r. cbn [existsb].
        now rewrite negb_orb.
      * cbn [length]. lia.
    + intros j Hj.
      assert (Hne : Job.id j <> Job.id job).
      { intros E. apply Hnew. rewrite <- E. apply list_elem_of_fmap.
        exists j. split; [reflexivity | now apply list_elem_of_In]. }
      apply select_by_id_existsb.
      rewrite select_by_id_filter_other by assumption.
      apply select_by_id_existsb. apply Hin. now right.
Qed.

(** X19. [dlq clear] on a table whose timestamps the program wrote deletes
    exactly the DEAD rows, leaves every other row in place and as it is,
    and reports the number of DEAD rows there were. *)
Theorem dlq_clear_removes_dead (s : store) :
  primary_key s ->
  Forall timestamps_written s ->
  clear s = (List.filter (fun r => negb (bool_decide (Row.state r = DEAD))) s,
             Ok (count_state DEAD s)).
Proof.
  intros Hpk Hs. unfold clear, list_jobs.
  destruct (rows_to_jobs_read _ (listed_rows_written (Some DEAD) None s Hs))
    as (jobs & E & H2).
  rewrite E. cbn [limit_rows rows_in_state] in H2.
  set (dead := List.filter (fun r => bool_decide (Row.state r = DEAD)) s) in *.
  set (rows := order_by_created_at_desc dead) in *.
  pose proof (read_as_ids _ _ H2) as Hids.
  pose proof (fun job => read_as_job _ _ job H2) as Hjob.
  pose proof (fun r => read_as_row _ _ r H2) as Hread.
  assert (Hrows : forall r, In r rows <-> In r s /\ Row.state r = DEAD).
  { intros r. unfold rows, dead.
    rewrite order_desc_In, filter_In, bool_decide_eq_true. tauto. }
  unfold delete_each. rewrite delete_each_all.
  - f_equal; [|f_equal].
    + apply filter_ext_in. intros r Hr. f_equal.
      destruct (bool_decide_reflect (Row.state r = DEAD)) as [Hd|Hd].
      * apply existsb_exists.
        destruct (Hread r (proj2 (Hrows r) (conj Hr Hd))) as (job & Hin & Hj).
        exists job. split; [assumption|].
        apply has_id_true. now apply _row_to_job_fields in Hj as (-> & _).
      * destruct (existsb _ jobs) eqn:Ex; [|reflexivity].
        apply existsb_exists in Ex as (job & Hin & Hid).
        apply has_id_true in Hid.
        apply Hjob in Hin as (r' & Hr' & Hj).
        apply _row_to_job_fields in Hj as (Hj & _).
        apply Hrows in Hr' as [Hr' Hd'].
        assert (r = r') by (apply (primary_key_same_id s); congruence).
        congruence.
    + unfold count_state. fold dead.
      rewrite <- (order_desc_length dead). fold rows.
      rewrite (Forall2_length _ _ _ H2). lia.
  - rewrite Hids. unfold rows. rewrite order_desc_perm.
    now apply primary_key_filter.
  - intros job Hin. apply Hjob in Hin as (r & Hr & Hj).
    apply _row_to_job_fields in Hj as (-> & _).
    apply Hrows in Hr as [Hr _].
    apply select_by_id_existsb. exists r. now apply primary_key_select.
Qed.

Lemma calls_s5_primary_key : primary_key (table_after calls_s5).
Proof. apply (run_of_calls_keeps calls_s5 [] empty_table_ok). Qed.

Lemma dlq_clear_removes_dead_witness :
  primary_key (table_after calls_s5)
  /\ Forall timestamps_written (table_after calls_s5)
  /\ clear (table_after calls_s5)
     = (List.filter (fun r => negb (bool_decide (Row.state r = DEAD)))
          (table_after calls_s5),
        Ok (count_state DEAD (table_after calls_s5))).
Proof.
  split; [exact calls_s5_primary_key|]. split; [exact calls_s5_written|].
  exact (dlq_clear_removes_dead (table_after calls_s5)
           calls_s5_primary_key calls_s5_written).
Defined.

Example dlq_clear_s5 : clear store_s5 = ([row_pending], Ok 1).
Proof. vm_compute. reflexivity. Qed.

(** ** [status] *)

Lemma count_states_total (s : store) :
  count_state PENDING s + count_state PROCESSING s + count_state COMPLETED s
  + count_state FAILED s + count_state DEAD s
  = Z.of_nat (length s).
Proof.
  unfold count_state. induction s as [|r s IH]; [reflexivity|].
  cbn [List.filter length]. destruct (Row.state r); cbn [bool_decide decide_rel]; simpl; lia.
Qed.

(** X20. The table that [status] prints has one line for every state, in
    the order PENDING, PROCESSING, COMPLETED, FAILED, DEAD; each line holds
    the number of rows in that state, 0 for a state that [get_stats] does
    not mention, and the five numbers add up to the number of rows. *)
Theorem status_table_counts (s : store) :
  status_table s
  = [("PENDING", count_state PENDING s); ("PROCESSING", count_state PROCESSING s);
     ("COMPLETED", count_state COMPLETED s); ("FAILED", count_state FAILED s);
     ("DEAD", count_state DEAD s)]
  /\ fold_right Z.add 0 (snd <$> status_table s) = Z.of_nat (length s).
Proof.
  assert (H : forall st, default 0 (get_stats s !! value st) = count_state st s).
  { intros st. rewrite get_stats_lookup, count_key_value.
    destruct (Z.eqb_spec (count_state st s) 0) as [->|_]; reflexivity. }
  assert (E : status_table s
              = [("PENDING", count_state PENDING s);
                 ("PROCESSING", count_state PROCESSING s);
                 ("COMPLETED", count_state COMPLETED s);
                 ("FAILED", count_state FAILED s);
                 ("DEAD", count_state DEAD s)]).
  { unfold status_table, all_states. cbn [map]. rewrite !H. reflexivity. }
  split; [exact E|]. rewrite E. cbn [fmap list_fmap snd fold_right].
  rewrite <- count_states_total. lia.
Qed.

(** * The configuration *)

Lemma load_config_has_defaults file config k :
  ConfigManager._load_config file = Ok config ->
  config !! k = None -> ConfigManager.DEFAULT_CONFIG !! k = None.
Proof.
  destruct file as [| | | |m]; cbn [ConfigManager._load_config].
  - intros [= <-]. tauto.
  - intros [= <-]. tauto.
  - discriminate.
  - discriminate.
  - intros [= <-]. rewrite lookup_union_None. tauto.
Qed.

(** X21. What [set] stores, the next [ConfigManager] reads: after
    [set(key, value)] on a manager loaded from any file, loading the file
    left behind gives the manager's own configuration again, in which
    [key] reads [value] and every other key reads as before.  (The merge
    with the defaults on loading changes nothing, because a loaded
    configuration already has every default key.) *)
Theorem config_set_then_load file config key v :
  ConfigManager._load_config file = Ok config ->
  let '(config', file') := ConfigManager.set config key v in
  ConfigManager._load_config file' = Ok config'
  /\ (forall d, ConfigManager.get config' key d = Some v)
  /\ forall k d, k <> key -> ConfigManager.get config' k d = ConfigManager.get config k d.
Proof.
  intros Hload. unfold ConfigManager.set. cbn [ConfigManager._load_config].
  split; [|split].
  - f_equal. apply map_eq. intros k. rewrite lookup_union.
    destruct (<[key := v]> config !! k) as [x|] eqn:E.
    + now destruct (ConfigManager.DEFAULT_CONFIG !! k).
    + apply lookup_insert_None in E as [E _].
      now rewrite (load_config_has_defaults _ _ _ Hload E).
  - intros d. unfold ConfigManager.get. now rewrite lookup_insert_eq.
  - intros k d Hk. unfold ConfigManager.get. now rewrite lookup_insert_ne by congruence.
Qed.

Lemma config_set_then_load_witness :
  ConfigManager._load_config ConfigManager.file_backoff_3
  = Ok ({["backoff_base" := ConfigManager.VInt 3]} ∪ ConfigManager.DEFAULT_CONFIG)
  /\ let '(config', file') :=
       ConfigManager.set
         ({["backoff_base" := ConfigManager.VInt 3]} ∪ ConfigManager.DEFAULT_CONFIG)
         "max_retries" (ConfigManager.VInt 5) in
     ConfigManager._load_config file' = Ok config'
     /\ (forall d, ConfigManager.get config' "max_retries" d = Some (ConfigManager.VInt 5))
     /\ forall k d, k <> "max_retries" ->
          ConfigManager.get config' k d
          = ConfigManager.get
              ({["backoff_base" := ConfigManager.VInt 3]} ∪ ConfigManager.DEFAULT_CONFIG)
              k d.
Proof.
  assert (H : ConfigManager._load_config ConfigManager.file_backoff_3
              = Ok ({["backoff_base" := ConfigManager.VInt 3]}
                      ∪ ConfigManager.DEFAULT_CONFIG)) by reflexivity.
  split; [exact H|].
  exact (config_set_then_load ConfigManager.file_backoff_3 _ "max_retries"
           (ConfigManager.VInt 5) H).
Defined.

Example config_file_overrides_default :
  result_map (fun c => (ConfigManager.get c "backoff_base" None,
                        ConfigManager.get c "max_retries" None,
                        ConfigManager.get c "poll" (Some (ConfigManager.VInt 1))))
             (ConfigManager._load_config ConfigManager.file_backoff_3)
  = Ok (Some (ConfigManager.VInt 3), Some (ConfigManager.VInt 3),
        Some (ConfigManager.VInt 1)).
Proof. vm_compute. reflexivity. Qed.

(** * Two calls through one [JobStore] object *)

(** X22. What [self._lock] achieves.  Two [acquire_job] calls made through
    one [JobStore] object, however their steps are scheduled, never return
    the same job; a job that one of them has returned is PROCESSING in the
    table, and the table still has one row for every id. *)
Theorem one_job_store_hands_out_once schedule (s : store) a b s' a' b' :
  primary_key s ->
  store_object a = store_object b ->
  at_pc a = AtSelect -> at_pc b = AtSelect ->
  run schedule s a b = Some (s', a', b') ->
  (forall i j, returned_id a' = Some i -> returned_id b' = Some j -> i <> j)
  /\ (forall i, returned_id a' = Some i \/ returned_id b' = Some i ->
        exists r, select_by_id i s' = Some r /\ Row.state r = PROCESSING)
  /\ primary_key s'.
Proof.
  intros Hpk Ho Ha Hb Hrun.
  assert (H : sharing_one_store s a b).
  { unfold sharing_one_store, in_step_with, holds_lock, id_in_hand.
    rewrite Ha, Hb. repeat split; auto. }
  apply (run_sharing_one_store _ _ _ _ _ _ _ H) in Hrun
    as (Hpk' & _ & _ & Ha' & Hb' & Hd).
  split; [|split; [|exact Hpk']].
  - intros i j Hi Hj. apply Hd.
    + unfold returned_id in Hi. unfold id_in_hand.
      destruct (at_pc a') as [| |[[?|]|]]; congruence.
    + unfold returned_id in Hj. unfold id_in_hand.
      destruct (at_pc b') as [| |[[?|]|]]; congruence.
  - unfold returned_id, in_step_with in *. intros i [Hi|Hi].
    + destruct (at_pc a') as [| |[[job|]|]]; try discriminate.
      injection Hi as <-. exact Ha'.
    + destruct (at_pc b') as [| |[[job|]|]]; try discriminate.
      injection Hi as <-. exact Hb'.
Qed.

Lemma one_job_store_hands_out_once_witness :
  primary_key store_tie
  /\ store_object call_shared_1 = store_object call_shared_2
  /\ at_pc call_shared_1 = AtSelect
  /\ at_pc call_shared_2 = AtSelect
  /\ run [false; false; true; true] store_tie call_shared_1 call_shared_2
     = Some (shared_run_end.1.1, shared_run_end.1.2, shared_run_end.2)
  /\ (forall i j, returned_id shared_run_end.1.2 = Some i ->
                  returned_id shared_run_end.2 = Some j -> i <> j)
  /\ (forall i, returned_id shared_run_end.1.2 = Some i
                \/ returned_id shared_run_end.2 = Some i ->
        exists r, select_by_id i shared_run_end.1.1 = Some r
                  /\ Row.state r = PROCESSING)
  /\ primary_key shared_run_end.1.1.
Proof.
  assert (H1 : primary_key store_tie).
  { unfold primary_key. vm_compute. apply NoDup_cons. split.
    - intros H. apply list_elem_of_singleton in H. discriminate H.
    - apply NoDup_singleton. }
  assert (H2 : store_object call_shared_1 = store_object call_shared_2) by reflexivity.
  assert (H3 : at_pc call_shared_1 = AtSelect) by reflexivity.
  assert (H4 : at_pc call_shared_2 = AtSelect) by reflexivity.
  assert (H5 : run [false; false; true; true] store_tie call_shared_1 call_shared_2
               = Some (shared_run_end.1.1, shared_run_end.1.2, shared_run_end.2))
    by (vm_compute; reflexivity).
  split; [exact H1|]. split; [exact H2|]. split; [exact H3|]. split; [exact H4|].
  split; [exact H5|].
  exact (one_job_store_hands_out_once _ _ _ _ _ _ _ H1 H2 H3 H4 H5).
Defined.

Example shared_run_gives_both_jobs :
  returned_id shared_run_end.1.2 = Some "b" /\ returned_id shared_run_end.2 = Some "a".
Proof. split; reflexivity. Qed.

Lemma acquire_job_nothing_eligible_witness :
  (forall r, In r [row_dead; row_b_leased] ->
             where_clause (isoformat t_12_00_10)
               (sqlite_now_minus_5_minutes t_12_00_10) r = false)
  /\ acquire_job "worker-2" t_12_00_10 t_12_00_10 [row_dead; row_b_leased]
     = ([row_dead; row_b_leased], Ok None).
Proof.
  assert (H : forall r, In r [row_dead; row_b_leased] ->
                        where_clause (isoformat t_12_00_10)
                          (sqlite_now_minus_5_minutes t_12_00_10) r = false).
  { intros r [<-|[<-|[]]]; vm_compute; reflexivity. }
  split; [exact H|].
  exact (proj1 (acquire_job_nothing_eligible "worker-2" t_12_00_10 t_12_00_10
                  [row_dead; row_b_leased]) H).
Defined.
